(** * Flight search assistant: date normalisation, ranking, retry flow and
    the search-flights route.

    Shallow embedding of the TypeScript sources

      - [src/ai/flows/flight-booking-assistant.ts] : the completion flow with
        its retry loop, the results view ([sortedFlights]) and the chat
        component ([parseFlexibleDate], the date-range splitting);
      - the [POST] handler of the search-flights route.

    The modules [JS], [DateNormalizer], [Double], [Ranking], [Assistant],
    [Json], [SearchRoute], [Chat] and [ResultsView] hold the definitions;
    the properties follow them.

    JavaScript strings are modelled as [string] (sequences of 8-bit code
    units); the character classes of the regular expressions are the ASCII
    ones, and code units above 127 are neither digits, letters nor white
    space.  The numbers that the code computes with are doubles: the value
    of a finite double is a rational ([Q]), a JSON literal is read as the
    nearest double and each operation on prices rounds its result
    ([Double]); what the code counts (digits, minutes, lengths, passengers of
    the chat) is an integer ([Z], [nat]) within the range where doubles are
    exact.  What the code reads from its environment is a parameter: the current year and
    the engine's date parser ([DateNormalizer.Engine]), the answers of the
    completion service ([Assistant.Attempt]), the run of the lookup process
    ([SearchRoute.ChildRun]). *)

From Stdlib Require Import ZArith QArith Qabs Qround Qpower String Ascii List Bool.
From Stdlib Require Import Arith Lia.
From Stdlib Require Import DecimalString Permutation Sorted.
Import ListNotations.

Close Scope Q_scope.
Local Open Scope string_scope.

(** ** JavaScript string primitives *)

Module JS.

(** [\d] *)
Definition is_digit (c : ascii) : bool :=
  let n := nat_of_ascii c in (48 <=? n)%nat && (n <=? 57)%nat.

(** [\s], and the characters removed by [trim]: TAB, LF, VT, FF, CR, SP. *)
Definition is_space (c : ascii) : bool :=
  let n := nat_of_ascii c in ((9 <=? n)%nat && (n <=? 13)%nat) || (n =? 32)%nat.

Definition is_upper (c : ascii) : bool :=
  let n := nat_of_ascii c in (65 <=? n)%nat && (n <=? 90)%nat.

Definition is_lower (c : ascii) : bool :=
  let n := nat_of_ascii c in (97 <=? n)%nat && (n <=? 122)%nat.

Definition lower_char (c : ascii) : ascii :=
  if is_upper c then ascii_of_nat (nat_of_ascii c + 32) else c.

Definition upper_char (c : ascii) : ascii :=
  if is_lower c then ascii_of_nat (nat_of_ascii c - 32) else c.

Fixpoint map_string (f : ascii -> ascii) (s : string) : string :=
  match s with
  | EmptyString => EmptyString
  | String c r => String (f c) (map_string f r)
  end.

(** [s.toLowerCase()], [s.toUpperCase()] *)
Definition toLowerCase : string -> string := map_string lower_char.
Definition toUpperCase : string -> string := map_string upper_char.

(** Longest prefix whose characters satisfy [p], and what follows it: a
    greedy [p*]. *)
Fixpoint span (p : ascii -> bool) (s : string) : string * string :=
  match s with
  | EmptyString => (EmptyString, EmptyString)
  | String c r =>
      if p c then let (a, b) := span p r in (String c a, b)
      else (EmptyString, s)
  end.

(** Every character of [s] satisfies [p]. *)
Fixpoint all_chars (p : ascii -> bool) (s : string) : bool :=
  match s with
  | EmptyString => true
  | String c r => p c && all_chars p r
  end.

Definition is_empty (s : string) : bool :=
  match s with EmptyString => true | _ => false end.

Definition trimStart (s : string) : string := snd (span is_space s).

Fixpoint trimEnd (s : string) : string :=
  match s with
  | EmptyString => EmptyString
  | String c r =>
      let r' := trimEnd r in
      if is_space c && is_empty r' then EmptyString else String c r'
  end.

(** [s.trim()] *)
Definition trim (s : string) : string := trimEnd (trimStart s).

(** [s] with the prefix [p] removed, when [s] starts with [p]. *)
Fixpoint strip_prefix (p s : string) : option string :=
  match p, s with
  | EmptyString, _ => Some s
  | String a p', String b s' =>
      if Ascii.eqb a b then strip_prefix p' s' else None
  | String _ _, EmptyString => None
  end.

Definition startsWith (s p : string) : bool :=
  match strip_prefix p s with Some _ => true | None => false end.

(** [s.includes(needle)] *)
Fixpoint includes (s needle : string) : bool :=
  startsWith s needle
  || match s with
     | EmptyString => false
     | String _ r => includes r needle
     end.

(** The double quote character. *)
Abbreviation DQ := (Ascii false true false false false true false false).

(** [s] between double quotes. *)
Definition quoted (s : string) : string :=
  String DQ s ++ String DQ EmptyString.

(** [s.padStart(2, '0')] *)
Definition padStart2 (s : string) : string :=
  match String.length s with
  | 0 => "00"
  | 1 => "0" ++ s
  | _ => s
  end.

(** [s.slice(0, 3)] *)
Definition slice_0_3 (s : string) : string := String.substring 0 3 s.

(** Value of a string of decimal digits. *)
Fixpoint digits_value (acc : Z) (s : string) : Z :=
  match s with
  | EmptyString => acc
  | String c r => digits_value (10 * acc + (Z.of_nat (nat_of_ascii c) - 48)) r
  end.

(** [parseInt(s)] on what a group of digits captured; [None] is the [NaN]
    of the empty string. *)
Definition parseInt (s : string) : option Z :=
  match s with
  | EmptyString => None
  | _ => Some (digits_value 0 s)
  end.

(** [`${n}`] for an integer [n]. *)
Definition string_of_Z (n : Z) : string := NilZero.string_of_int (Z.to_int n).

End JS.

(** ** The chat component: date normalisation and range splitting *)

Module DateNormalizer.
Import JS.

(** What the component reads from its JavaScript engine: the calendar year
    of [new Date()], and the engine's own date parser.  [Date_parse s] is
    [None] when [isNaN(new Date(s).getTime())], and otherwise
    [Some (new Date(s).toISOString().split('T')[0])].  Outside the ISO
    formats the strings that [new Date] accepts are implementation
    defined, and the component runs in the user's browser. *)
Record Engine := {
  currentYear : Z;
  Date_parse : string -> option string
}.

(** [/^\d{4}-\d{2}-\d{2}$/.test(s)] *)
Definition isoDatePattern (s : string) : bool :=
  match s with
  | String y1 (String y2 (String y3 (String y4 (String h1
    (String m1 (String m2 (String h2 (String d1 (String d2 EmptyString))))))))) =>
      is_digit y1 && is_digit y2 && is_digit y3 && is_digit y4
      && Ascii.eqb h1 "-"
      && is_digit m1 && is_digit m2
      && Ascii.eqb h2 "-"
      && is_digit d1 && is_digit d2
  | _ => false
  end.

Definition monthMap : list (string * string) :=
  [ ("jan", "01"); ("january", "01");
    ("feb", "02"); ("february", "02");
    ("mar", "03"); ("march", "03");
    ("apr", "04"); ("april", "04");
    ("may", "05");
    ("jun", "06"); ("june", "06");
    ("jul", "07"); ("july", "07");
    ("aug", "08"); ("august", "08");
    ("sep", "09"); ("september", "09");
    ("oct", "10"); ("october", "10");
    ("nov", "11"); ("november", "11");
    ("dec", "12"); ("december", "12") ].

Fixpoint assoc {V : Type} (k : string) (m : list (string * V)) : option V :=
  match m with
  | [] => None
  | (k', v) :: r => if String.eqb k k' then Some v else assoc k r
  end.

(** The alternatives of the first group of the month pattern, in the order
    in which the pattern lists them. *)
Definition monthAlternatives : list string :=
  [ "jan"; "january"; "feb"; "february"; "mar"; "march"; "apr"; "april";
    "may"; "jun"; "june"; "jul"; "july"; "aug"; "august"; "sep";
    "september"; "oct"; "october"; "nov"; "november"; "dec"; "december" ].

(** [(st|nd|rd|th)?$] *)
Definition ordinalEnd (s : string) : bool :=
  is_empty s || String.eqb s "st" || String.eqb s "nd"
  || String.eqb s "rd" || String.eqb s "th".

(** [(\d{1,2})(st|nd|rd|th)?$]: two digits are tried before one. *)
Definition dayEnd (s : string) : option string :=
  match s with
  | String a (String b t) =>
      if is_digit a && is_digit b && ordinalEnd t
      then Some (String a (String b EmptyString))
      else if is_digit a && ordinalEnd (String b t)
      then Some (String a EmptyString)
      else None
  | String a EmptyString =>
      if is_digit a then Some (String a EmptyString) else None
  | EmptyString => None
  end.

(** [\s*(\d{1,2})(st|nd|rd|th)?$].  The greedy [\s*] takes the whole run of
    white space: giving a character back leaves white space where a digit
    is required. *)
Definition dayTail (s : string) : option string :=
  dayEnd (snd (span is_space s)).

(** The alternation is tried in order, and an alternative whose
    continuation fails is abandoned for the next one (["jan"] before
    ["january"]).  The result is the pair of the groups 1 and 2. *)
Fixpoint monthDayFrom (alts : list string) (s : string) : option (string * string) :=
  match alts with
  | [] => None
  | a :: alts' =>
      match match strip_prefix a s with
            | Some r => dayTail r
            | None => None
            end with
      | Some d => Some (a, d)
      | None => monthDayFrom alts' s
      end
  end.

(** [s.match(/^(jan|january|...|december)\s*(\d{1,2})(st|nd|rd|th)?$/)] *)
Definition monthDayMatch (s : string) : option (string * string) :=
  monthDayFrom monthAlternatives s.

(** [monthMap[k]] inside a template literal. *)
Definition monthOf (k : string) : string :=
  match assoc k monthMap with
  | Some m => m
  | None => "undefined"
  end.

(** [parseFlexibleDate].  The body is wrapped in [try { } catch { return
    dateStr; }]; on a string argument none of its calls throws
    ([toISOString] is guarded by the [isNaN] test). *)
Definition parseFlexibleDate (E : Engine) (dateStr : string) : string :=
  let cleanStr := trim (toLowerCase dateStr) in
  if isoDatePattern cleanStr then cleanStr
  else
    match monthDayMatch cleanStr with
    | Some (m, d) =>
        let month := monthOf m in
        let day := padStart2 d in
        let year := currentYear E in
        string_of_Z year ++ "-" ++ month ++ "-" ++ day
    | None =>
        match Date_parse E dateStr with
        | Some iso => iso
        | None => dateStr
        end
    end.

(** *** Splitting a range *)

Definition nonempty_span (p : ascii -> bool) (s : string) : option string :=
  let (w, r) := span p s in if is_empty w then None else Some r.

(** [\s+(?:to|through)\s+] at the start of [s]; the result is what follows
    the match. *)
Definition wordSeparator (s : string) : option string :=
  match nonempty_span is_space s with
  | None => None
  | Some r =>
      match match strip_prefix "to" r with
            | Some r' => nonempty_span is_space r'
            | None => None
            end with
      | Some rest => Some rest
      | None =>
          match strip_prefix "through" r with
          | Some r' => nonempty_span is_space r'
          | None => None
          end
      end
  end.

(** [\s*-\s*] at the start of [s]. *)
Definition dashSeparator (s : string) : option string :=
  match snd (span is_space s) with
  | String c r =>
      if Ascii.eqb c "-" then Some (snd (span is_space r)) else None
  | EmptyString => None
  end.

(** [/\s+(?:to|through)\s+|\s*-\s*/] at the start of [s]. *)
Definition separator (s : string) : option string :=
  match wordSeparator s with
  | Some r => Some r
  | None => dashSeparator s
  end.

(** Number of characters of [s] that a separator at its start covers. *)
Definition separatorLength (s : string) : option nat :=
  match separator s with
  | Some r => Some (String.length s - String.length r)
  | None => None
  end.

(** [String.prototype.split] with the separator pattern: the string is
    scanned from the left, a separator closes the current part and the
    scan resumes after it.  [skip] counts the characters of a separator
    still to be passed, [cur] is the part being read. *)
Fixpoint splitFrom (skip : nat) (cur : string) (s : string) : list string :=
  match s with
  | EmptyString => [cur]
  | String c r =>
      match skip with
      | S k => splitFrom k cur r
      | O =>
          match separatorLength s with
          | Some (S k) => cur :: splitFrom k EmptyString r
          | _ => splitFrom 0 (cur ++ String c EmptyString) r
          end
      end
  end.

(** [dates.split(/\s+(?:to|through)\s+|\s*-\s*/)] *)
Definition splitDates (dates : string) : list string :=
  splitFrom 0 EmptyString dates.

Definition hasConnector (dates : string) : bool :=
  includes dates " to " || includes dates " through " || includes dates "-".

(** The resolution of [dates] into [departureDate] and [returnDate] in
    [handleSendMessage]; [None] is the [null] of [returnDate]. *)
Definition resolveDates (E : Engine) (dates : string) : string * option string :=
  if hasConnector dates then
    match splitDates dates with
    | [p0; p1] =>
        (parseFlexibleDate E (trim p0), Some (parseFlexibleDate E (trim p1)))
    | _ => (dates, None)
    end
  else (parseFlexibleDate E dates, None).

(** *** The notions of the specification *)

(** The reading of the specification's range rule: the expression is cut
    once, at the first connector; [cur] is the part read so far. *)
Fixpoint cutAtFirst (cur : string) (s : string) : option (string * string) :=
  match s with
  | EmptyString => None
  | String c r =>
      match separator s with
      | Some rest => Some (cur, rest)
      | None => cutAtFirst (cur ++ String c EmptyString) r
      end
  end.

Definition spec_resolveDates (E : Engine) (dates : string) : string * option string :=
  if hasConnector dates then
    match cutAtFirst EmptyString dates with
    | Some (p0, p1) =>
        (parseFlexibleDate E (trim p0), Some (parseFlexibleDate E (trim p1)))
    | None => (parseFlexibleDate E dates, None)
    end
  else (parseFlexibleDate E dates, None).

Definition leapYear (y : Z) : bool :=
  ((y mod 4 =? 0) && (negb (y mod 100 =? 0) || (y mod 400 =? 0)))%Z.

Definition daysInMonth (y m : Z) : Z :=
  if (m =? 2)%Z then (if leapYear y then 29 else 28)%Z
  else if ((m =? 4) || (m =? 6) || (m =? 9) || (m =? 11))%Z then 30%Z
  else 31%Z.

(** A valid ISO calendar date: the shape [YYYY-MM-DD] with a month of the
    year and a day of that month. *)
Definition validIsoDate (s : string) : bool :=
  isoDatePattern s
  && (let y := digits_value 0 (String.substring 0 4 s) in
      let m := digits_value 0 (String.substring 5 2 s) in
      let d := digits_value 0 (String.substring 8 2 s) in
      (1 <=? m)%Z && (m <=? 12)%Z && (1 <=? d)%Z && (d <=? daysInMonth y m)%Z).

(** An engine whose date parser accepts the UTC date-time strings
    [YYYY-MM-DDTHH:mm:ssZ] and nothing else. *)
Definition utcDateTime (s : string) : option string :=
  let d := String.substring 0 10 s in
  let t := String.substring 10 10 s in
  match t with
  | String "T" (String h1 (String h2 (String ":" (String m1 (String m2
    (String ":" (String s1 (String s2 (String "Z" EmptyString))))))))) =>
      if isoDatePattern d && (String.length s =? 20)%nat
         && is_digit h1 && is_digit h2 && is_digit m1 && is_digit m2
         && is_digit s1 && is_digit s2
      then Some d else None
  | _ => None
  end.

Definition engine2025 : Engine :=
  {| currentYear := 2025; Date_parse := utcDateTime |}.

(** *** Classes of strings used in the statements *)

(** The characters of an ISO date. *)
Definition iso_char (c : ascii) : bool := is_digit c || Ascii.eqb c "-".


(** A day of one or two digits. *)
Definition day_digits (d : string) : Prop :=
  all_chars is_digit d = true /\ (1 <= String.length d <= 2)%nat.


Definition four_digits (s : string) : bool :=
  match s with
  | String a (String b (String c (String d EmptyString))) =>
      is_digit a && is_digit b && is_digit c && is_digit d
  | _ => false
  end.

(** A character that is neither white space nor a dash. *)
Definition plain_char (c : ascii) : bool :=
  negb (is_space c) && negb (Ascii.eqb c "-").

(** One connector between two parts. *)
Definition connectors : list string := [ " to "; " through "; "-"; " - " ].

End DateNormalizer.

(** ** Numbers: IEEE 754 double precision *)

Module Double.

(** [2^e] *)
Definition pow2 (e : Z) : Q := Qpower 2 e.

(** For [q > 0], the exponent [e] with [2^e <= q < 2^(e+1)]. *)
Definition floorLog2 (q : Q) : Z :=
  let e := (Z.log2 (Qnum q) - Z.log2 (Zpos (Qden q)))%Z in
  if Qle_bool (pow2 e) q then e else (e - 1)%Z.

(** The nearest integer, and the even one of two that are as near. *)
Definition roundHalfEven (x : Q) : Z :=
  let f := Qfloor x in
  match ((x - inject_Z f) ?= 1 # 2)%Q with
  | Lt => f
  | Gt => (f + 1)%Z
  | Eq => if Z.even f then f else (f + 1)%Z
  end.

(** The value that stands for [Infinity]; [- infinity] stands for
    [-Infinity]. *)
Definition infinity : Q := pow2 1024.

(** The double nearest to [q]: 53 significant bits, the multiples of
    [2^-1074] below [2^-1022], ties to the even significand, and an
    infinity for what rounds to [2^1024] or more. *)
Definition round (q : Q) : Q :=
  if Qeq_bool q 0 then 0%Q
  else
    let e := Z.max (floorLog2 (Qabs q) - 52) (-1074) in
    let r := (inject_Z (roundHalfEven (q / pow2 e)) * pow2 e)%Q in
    if Qle_bool infinity (Qabs r)
    then (if Qle_bool 0 r then infinity else - infinity)%Q
    else Qred r.

(** The operations on finite doubles, each rounding its exact result; the
    divisor is not zero. *)
Definition add (x y : Q) : Q := round (x + y).
Definition sub (x y : Q) : Q := round (x - y).
Definition div (x y : Q) : Q := round (x / y).

(** [q] is the value of a finite double. *)
Definition finite (q : Q) : bool :=
  Qeq_bool (round q) q && negb (Qle_bool infinity (Qabs q)).

(** [q] is a multiple of [2^-1074], as every double is. *)
Definition onGrid (q : Q) : Prop :=
  exists n : Z, (q == inject_Z n * pow2 (-1074))%Q.

End Double.

(** ** The results view: duration parsing and ranking *)

Module Ranking.
Import JS.

(** The fields of a [Flight] that the ranking reads, and those that tell
    two offers apart.  [duration] is optional ([a.duration?.match]); a
    price is a number, given by its value. *)
Record Flight := {
  id : string;
  provider : string;
  price : Q;
  duration : option string;
  stops : Z
}.

(** The duration pattern, one or more digits, [h], white space, digits if
    any, [m], at the start of [s]: the groups 1 and 2.  Each greedy run is
    maximal: what follows a shorter run is a character of the same class,
    which the next item of the pattern rejects. *)
Definition durationHere (s : string) : option (string * string) :=
  let (h, r1) := span is_digit s in
  if is_empty h then None
  else
    match r1 with
    | String "h" r2 =>
        let (m, r3) := span is_digit (snd (span is_space r2)) in
        match r3 with
        | String "m" _ => Some (h, m)
        | _ => None
        end
    | _ => None
    end.

(** The pattern is not anchored: the leftmost position where it matches. *)
Fixpoint durationSearch (s : string) : option (string * string) :=
  match durationHere s with
  | Some g => Some g
  | None =>
      match s with
      | EmptyString => None
      | String _ r => durationSearch r
      end
  end.

(** [(d?.match(re) || []).slice(1)] *)
Definition durationGroups (d : option string) : list string :=
  match d with
  | None => []
  | Some s =>
      match durationSearch s with
      | Some (h, m) => [h; m]
      | None => []
      end
  end.

(** [parseInt(s) || 0] *)
Definition parseIntOr0 (s : string) : Z :=
  match parseInt s with
  | Some n => if (n =? 0)%Z then 0%Z else n
  | None => 0%Z
  end.

(** [.reduce((acc, val, i) => acc + val * (i === 0 ? 60 : 1), 0)] *)
Fixpoint reduceFrom (i : nat) (acc : Z) (vals : list Z) : Z :=
  match vals with
  | [] => acc
  | val :: r =>
      reduceFrom (S i) (acc + val * (if (i =? 0)%nat then 60 else 1))%Z r
  end.

Definition durationOf (d : option string) : Z :=
  reduceFrom 0 0%Z (map parseIntOr0 (durationGroups d)).

Definition durationMinutes (f : Flight) : Z := durationOf (duration f).

(** The comparator of [sortedFlights]; [activeTab] is the value of the
    selected tab, and the [switch] falls to the best ranking on any value
    other than the two it names.  The operations on prices are those of
    doubles, each rounding its result; the durations are integers. *)
Definition compareFlights (activeTab : string) (a b : Flight) : Q :=
  let durationA := durationMinutes a in
  let durationB := durationMinutes b in
  if String.eqb activeTab "cheapest" then Double.sub (price a) (price b)
  else if String.eqb activeTab "fastest" then inject_Z (durationA - durationB)
  else Double.sub (Double.add (Double.div (price a) 2) (inject_Z durationA))
                  (Double.add (Double.div (price b) 2) (inject_Z durationB)).

(** [Array.prototype.sort] with a comparator: a stable sort (ECMAScript
    2019), here by insertion.  An element goes after those that the
    comparator puts strictly before it. *)
Fixpoint insertBy {A : Type} (cmp : A -> A -> Q) (x : A) (l : list A) : list A :=
  match l with
  | [] => [x]
  | y :: t =>
      if Qle_bool (cmp x y) 0 then x :: y :: t
      else y :: insertBy cmp x t
  end.

Definition sortBy {A : Type} (cmp : A -> A -> Q) (l : list A) : list A :=
  fold_right (insertBy cmp) [] l.

(** [[...flights].sort(...)] *)
Definition sortedFlights (activeTab : string) (flights : list Flight) : list Flight :=
  sortBy (compareFlights activeTab) flights.

Definition bestFlight (flights : list Flight) : option Flight :=
  hd_error (sortBy (compareFlights "best") flights).
Definition cheapestFlight (flights : list Flight) : option Flight :=
  hd_error (sortBy (fun a b => Double.sub (price a) (price b)) flights).
Definition fastestFlight (flights : list Flight) : option Flight :=
  hd_error (sortBy (fun a b => inject_Z (durationMinutes a - durationMinutes b)) flights).

(** The key by which each tab orders the offers; the key of the best
    ranking is the sum as the code computes it, a double. *)
Definition rankKey (activeTab : string) (f : Flight) : Q :=
  if String.eqb activeTab "cheapest" then price f
  else if String.eqb activeTab "fastest" then inject_Z (durationMinutes f)
  else Double.add (Double.div (price f) 2) (inject_Z (durationMinutes f)).

(** *** The notions of the specification *)

(** [l'] is [l] sorted by [key], ascending and stable: the same offers,
    every offer before those of a larger or equal key, and the offers of
    one key in the order they have in [l]. *)
Definition stably_sorted_by {A : Type} (key : A -> Q) (l l' : list A) : Prop :=
  Permutation l l'
  /\ StronglySorted (fun a b => (key a <= key b)%Q) l'
  /\ forall k : Q,
       filter (fun a => Qeq_bool (key a) k) l'
       = filter (fun a => Qeq_bool (key a) k) l.

(** The reading of the specification's duration rule: hours before an [h]
    and minutes before an [m], each of which may be absent and then counts
    for nothing. *)
Definition spec_durationMinutes (s : string) : Z :=
  let (n, r1) := span is_digit s in
  match r1 with
  | String "h" r2 =>
      let (m, r3) := span is_digit (snd (span is_space r2)) in
      (60 * digits_value 0 n
       + match r3 with
         | String "m" _ => digits_value 0 m
         | _ => 0
         end)%Z
  | String "m" _ => digits_value 0 n
  | _ => 0%Z
  end.

(** An offer of the examples. *)
Definition offer (i : string) (p : Q) (d : string) : Flight :=
  {| id := i; provider := "Demo Airlines"; price := p; duration := Some d; stops := 1 |}.

End Ranking.

(** ** The completion flow and its retry loop *)

Module Assistant.
Import JS.

Record FlightDetails := {
  destination : option string;
  origin : option string;
  dates : option string;
  passengers : option Z
}.

Record FlightBookingOutput := {
  reply : string;
  isFlightDetailsComplete : bool;
  flightDetails : option FlightDetails
}.

(** What the flow reads of a thrown error: the number in [error?.status]
    and the string in [error?.message]; a missing field, or a thrown
    [undefined], is [None]. *)
Record Error := {
  status : option Z;
  message : option string
}.

(** One call of the prompt: it returns an output or throws. *)
Inductive Attempt :=
| Returned (output : FlightBookingOutput)
| Thrown (error : Error).

Inductive Event :=
| Called (attempt : nat)
| Slept (ms : nat).

Definition maxRetries : nat := 2.

Definition statusIs (e : Error) (n : Z) : bool :=
  match status e with
  | Some s => (s =? n)%Z
  | None => false
  end.

Definition messageIncludes (e : Error) (w : string) : bool :=
  match message e with
  | Some m => includes m w
  | None => false
  end.

(** The errors after which the loop is left: quota and authentication. *)
Definition noRetry (e : Error) : bool :=
  statusIs e 429 || statusIs e 401 || statusIs e 403.

(** The loop [for (attempt = 1; attempt <= maxRetries; attempt++)];
    [remaining] is [maxRetries + 1 - attempt].  The result is the output
    returned from inside the loop, or the last error when the loop is
    left, together with the calls and waits made. *)
Fixpoint retryLoop (prompt : nat -> Attempt) (remaining attempt : nat)
    (lastError : option Error) : (FlightBookingOutput + option Error) * list Event :=
  match remaining with
  | O => (inr lastError, [])
  | S remaining' =>
      match prompt attempt with
      | Returned output => (inl output, [Called attempt])
      | Thrown error =>
          if noRetry error then (inr (Some error), [Called attempt])
          else
            let wait :=
              if (attempt <? maxRetries)%nat
                 && (statusIs error 503 || messageIncludes error "overloaded")
              then [Slept (attempt * 1000)] else [] in
            let (r, evs) := retryLoop prompt remaining' (S attempt) (Some error) in
            (r, Called attempt :: wait ++ evs)
      end
  end.

Definition overloadedReply : string :=
  "🤖 Google's AI service is experiencing high demand right now. Please try again in a moment.

✈️ Good news: Flight search is still working perfectly! You can search for flights while the AI recovers.".

Definition quotaReply : string :=
  "📊 I've reached my API usage limit for now. Please try again in a few minutes.

✈️ Flight search is still available while we wait!".

Definition authReply : string :=
  "🔑 There's an API authentication issue. Please check your Google AI API key configuration.

✈️ Flight search functionality is still working!".

Definition genericReply : string :=
  "⚡ I encountered a temporary issue, but I'm still here to help!

✈️ Flight search is working perfectly - please try searching for flights!".

Definition fallbackOf (r : string) : FlightBookingOutput :=
  {| reply := r; isFlightDetailsComplete := false; flightDetails := None |}.

Definition errStatusIs (e : option Error) (n : Z) : bool :=
  match e with Some e => statusIs e n | None => false end.
Definition errMessageIncludes (e : option Error) (w : string) : bool :=
  match e with Some e => messageIncludes e w | None => false end.

(** The code after the loop. *)
Definition fallback (lastError : option Error) : FlightBookingOutput :=
  if errStatusIs lastError 503 || errMessageIncludes lastError "overloaded"
  then fallbackOf overloadedReply
  else if errStatusIs lastError 429 || errMessageIncludes lastError "quota"
  then fallbackOf quotaReply
  else if errStatusIs lastError 401 || errStatusIs lastError 403
  then fallbackOf authReply
  else fallbackOf genericReply.

Record Run := {
  result : FlightBookingOutput;
  fromFallback : bool;
  events : list Event
}.

(** [flightBookingAssistantFlow], against a completion service that
    answers the [n]-th call with [prompt n]. *)
Definition flightBookingAssistantFlow (prompt : nat -> Attempt) : Run :=
  match retryLoop prompt maxRetries 1 None with
  | (inl output, evs) =>
      {| result := output; fromFallback := false; events := evs |}
  | (inr lastError, evs) =>
      {| result := fallback lastError; fromFallback := true; events := evs |}
  end.

Definition isCall (e : Event) : bool :=
  match e with Called _ => true | Slept _ => false end.

(** Number of completion calls of a run. *)
Definition attemptsMade (r : Run) : nat := List.length (filter isCall (events r)).

(** The failure classes of the fallback replies. *)
Inductive FailureClass := Overloaded | QuotaExceeded | AuthFailed | OtherFailure.

Definition classify (lastError : option Error) : FailureClass :=
  if errStatusIs lastError 503 || errMessageIncludes lastError "overloaded"
  then Overloaded
  else if errStatusIs lastError 429 || errMessageIncludes lastError "quota"
  then QuotaExceeded
  else if errStatusIs lastError 401 || errStatusIs lastError 403
  then AuthFailed
  else OtherFailure.

Definition replyOfClass (c : FailureClass) : string :=
  match c with
  | Overloaded => overloadedReply
  | QuotaExceeded => quotaReply
  | AuthFailed => authReply
  | OtherFailure => genericReply
  end.

(** A reply claims a found flight when it says so in these words. *)
Definition claimsFlightFound (r : string) : bool :=
  includes (toLowerCase r) "found".

(** *** Services and errors of the examples *)

(** The wait after a first failure that is retried. *)
Definition waitAfterFirst (e : Error) : list Event :=
  if statusIs e 503 || messageIncludes e "overloaded" then [Slept 1000] else [].

(** A service that answers its calls with the elements of [l], in order. *)
Definition serviceOf (l : list Attempt) (n : nat) : Attempt :=
  nth (n - 1) l (Thrown {| status := None; message := None |}).

Definition quotaError : Error :=
  {| status := Some 429%Z; message := Some "Resource has been exhausted (e.g. check quota)." |}.
Definition overloadError : Error :=
  {| status := Some 503%Z; message := Some "The model is overloaded." |}.

End Assistant.

(** ** JSON values, [JSON.parse] and the JavaScript reading of values *)

Module Json.
Import JS.

#[local] Set Warnings "-register-all".

Inductive value :=
| Null
| Bool (b : bool)
| Num (q : Q)
| Str (s : string)
| Arr (items : list value)
| Obj (members : list (string * value)).

(** A JavaScript value that may be [undefined]. *)
Definition jsval := option value.

Fixpoint assoc (k : string) (m : list (string * value)) : jsval :=
  match m with
  | [] => None
  | (k', v) :: r => if String.eqb k k' then Some v else assoc k r
  end.

(** A later member replaces an earlier one of the same name. *)
Fixpoint set (k : string) (v : value) (m : list (string * value)) : list (string * value) :=
  match m with
  | [] => [(k, v)]
  | (k', v') :: r =>
      if String.eqb k k' then (k, v) :: r else (k', v') :: set k v r
  end.

(** [v.k] for one of the member names that the route reads (none of them
    is a property of the strings, numbers, booleans or arrays themselves);
    the caller treats [null], on which the access throws. *)
Definition getProp (v : value) (k : string) : jsval :=
  match v with
  | Obj m => assoc k m
  | _ => None
  end.

(** [!!v] *)
Definition truthy (v : jsval) : bool :=
  match v with
  | None => false
  | Some Null => false
  | Some (Bool b) => b
  | Some (Num q) => negb (Qeq_bool q 0)
  | Some (Str s) => negb (is_empty s)
  | Some (Arr _) => true
  | Some (Obj _) => true
  end.

(** No number of [v] is an infinity: [v] is written by [JSON.stringify] as
    it is, where an infinity would be written as [null]. *)
Fixpoint finiteNumbers (v : value) : bool :=
  match v with
  | Num q => negb (Qle_bool Double.infinity (Qabs q))
  | Arr items => forallb finiteNumbers items
  | Obj members => forallb (fun kv : string * value => let (_, x) := kv in finiteNumbers x) members
  | _ => true
  end.

(** [Array.isArray(v)] *)
Definition isArray (v : jsval) : bool :=
  match v with
  | Some (Arr _) => true
  | _ => false
  end.

(** An object literal as it reaches its reader after serialisation: the
    members whose value is [undefined] are left out. *)
Fixpoint object (fields : list (string * jsval)) : list (string * value) :=
  match fields with
  | [] => []
  | (k, Some v) :: r => (k, v) :: object r
  | (_, None) :: r => object r
  end.

Definition ofNat (n : nat) : value := Num (inject_Z (Z.of_nat n)).

(** *** The parser *)

Definition is_ws (c : ascii) : bool :=
  let n := nat_of_ascii c in
  (n =? 32)%nat || (n =? 9)%nat || (n =? 10)%nat || (n =? 13)%nat.

Fixpoint skip_ws (s : string) : string :=
  match s with
  | String c r => if is_ws c then skip_ws r else s
  | EmptyString => EmptyString
  end.

Definition hexval (c : ascii) : option nat :=
  let n := nat_of_ascii c in
  if is_digit c then Some (n - 48)
  else if (97 <=? n)%nat && (n <=? 102)%nat then Some (n - 87)
  else if (65 <=? n)%nat && (n <=? 70)%nat then Some (n - 55)
  else None.

(** The code unit of a [\u] escape, written in UTF-8. *)
Definition utf8 (n : nat) : string :=
  if (n <? 128)%nat then String (ascii_of_nat n) EmptyString
  else if (n <? 2048)%nat then
    String (ascii_of_nat (192 + n / 64))
      (String (ascii_of_nat (128 + n mod 64)) EmptyString)
  else
    String (ascii_of_nat (224 + n / 4096))
      (String (ascii_of_nat (128 + (n / 64) mod 64))
         (String (ascii_of_nat (128 + n mod 64)) EmptyString)).

Definition escape (c : ascii) : option ascii :=
  match c with
  | DQ => Some DQ
  | "\"%char => Some "\"%char
  | "/"%char => Some "/"%char
  | "b"%char => Some (ascii_of_nat 8)
  | "f"%char => Some (ascii_of_nat 12)
  | "n"%char => Some (ascii_of_nat 10)
  | "r"%char => Some (ascii_of_nat 13)
  | "t"%char => Some (ascii_of_nat 9)
  | _ => None
  end.

(** The characters of a string literal after its opening quote, and what
    follows the closing quote. *)
Fixpoint parse_chars (s : string) : option (string * string) :=
  match s with
  | EmptyString => None
  | String c r =>
      if Ascii.eqb c DQ then Some (EmptyString, r)
      else if Ascii.eqb c "\" then
        match r with
        | EmptyString => None
        | String e r1 =>
            if Ascii.eqb e "u" then
              match r1 with
              | String a (String b (String c' (String d r2))) =>
                  match hexval a, hexval b, hexval c', hexval d, parse_chars r2 with
                  | Some x, Some y, Some z, Some w, Some (t, r') =>
                      Some (utf8 (((x * 16 + y) * 16 + z) * 16 + w) ++ t, r')
                  | _, _, _, _, _ => None
                  end
              | _ => None
              end
            else
              match escape e, parse_chars r1 with
              | Some x, Some (t, r') => Some (String x t, r')
              | _, _ => None
              end
        end
      else if (nat_of_ascii c <? 32)%nat then None
      else
        match parse_chars r with
        | Some (t, r') => Some (String c t, r')
        | None => None
        end
  end.

Definition pow10 (e : Z) (m : Z) : Q :=
  if (0 <=? e)%Z then inject_Z (m * 10 ^ e)
  else Qmake m (Z.to_pos (10 ^ (- e))).

(** A number literal: sign, integer part without a leading zero, fraction,
    exponent; its value is the double nearest to the number written, zero
    for a number too small and an infinity for a number too large. *)
Definition parse_number (s : string) : option (Q * string) :=
  let (neg, s1) :=
    match s with String "-" r => (true, r) | _ => (false, s) end in
  let (ip, s2) := span is_digit s1 in
  let int_ok :=
    match ip with
    | EmptyString => false
    | String "0" (String _ _) => false
    | _ => true
    end in
  if negb int_ok then None
  else
    let frac :=
      match s2 with
      | String "." r =>
          let (fp, s3) := span is_digit r in
          if is_empty fp then None else Some (fp, s3)
      | _ => Some (EmptyString, s2)
      end in
    match frac with
    | None => None
    | Some (fp, s3) =>
        let expo :=
          match s3 with
          | String c r =>
              if Ascii.eqb c "e" || Ascii.eqb c "E" then
                let (eneg, r1) :=
                  match r with
                  | String "-" r' => (true, r')
                  | String "+" r' => (false, r')
                  | _ => (false, r)
                  end in
                let (ed, s4) := span is_digit r1 in
                if is_empty ed then None
                else Some ((if eneg then - digits_value 0 ed else digits_value 0 ed)%Z, s4)
              else Some (0%Z, s3)
          | EmptyString => Some (0%Z, s3)
          end in
        match expo with
        | None => None
        | Some (e, s4) =>
            let m := digits_value 0 (ip ++ fp) in
            let q := pow10 (e - Z.of_nat (String.length fp)) m in
            Some (Double.round (if neg then Qopp q else q), s4)
        end
    end.

Definition literal (w : string) (v : value) (s : string) : option (value * string) :=
  match strip_prefix w s with
  | Some r => Some (v, r)
  | None => None
  end.

(** Recursive descent; every call consumes [fuel], and a text of [n]
    characters is read with [2 * n + 2]. *)
Fixpoint parse_value (fuel : nat) (s : string) : option (value * string) :=
  match fuel with
  | O => None
  | S fuel' =>
      match skip_ws s with
      | EmptyString => None
      | String c r as s' =>
          if Ascii.eqb c "[" then
            match skip_ws r with
            | EmptyString => None
            | String c' r' as r0 =>
                if Ascii.eqb c' "]" then Some (Arr [], r')
                else
                  match parse_items fuel' r0 with
                  | Some (l, r'') => Some (Arr l, r'')
                  | None => None
                  end
            end
          else if Ascii.eqb c "{" then
            match skip_ws r with
            | EmptyString => None
            | String c' r' as r0 =>
                if Ascii.eqb c' "}" then Some (Obj [], r')
                else
                  match parse_members fuel' [] r0 with
                  | Some (m, r'') => Some (Obj m, r'')
                  | None => None
                  end
            end
          else if Ascii.eqb c DQ then
            match parse_chars r with
            | Some (t, r') => Some (Str t, r')
            | None => None
            end
          else if Ascii.eqb c "t" then literal "true" (Bool true) s'
          else if Ascii.eqb c "f" then literal "false" (Bool false) s'
          else if Ascii.eqb c "n" then literal "null" Null s'
          else
            match parse_number s' with
            | Some (q, r') => Some (Num q, r')
            | None => None
            end
      end
  end

with parse_items (fuel : nat) (s : string) : option (list value * string) :=
  match fuel with
  | O => None
  | S fuel' =>
      match parse_value fuel' s with
      | Some (v, r) =>
          match skip_ws r with
          | EmptyString => None
          | String c r' =>
              if Ascii.eqb c "," then
                match parse_items fuel' r' with
                | Some (l, r'') => Some (v :: l, r'')
                | None => None
                end
              else if Ascii.eqb c "]" then Some ([v], r')
              else None
          end
      | None => None
      end
  end

with parse_members (fuel : nat) (acc : list (string * value)) (s : string)
    : option (list (string * value) * string) :=
  match fuel with
  | O => None
  | S fuel' =>
      match skip_ws s with
      | EmptyString => None
      | String c r =>
          if Ascii.eqb c DQ then
            match parse_chars r with
            | Some (k, r1) =>
                match skip_ws r1 with
                | EmptyString => None
                | String c1 r2 =>
                    if Ascii.eqb c1 ":" then
                      match parse_value fuel' r2 with
                      | Some (v, r3) =>
                          match skip_ws r3 with
                          | EmptyString => None
                          | String c3 r4 =>
                              if Ascii.eqb c3 "," then parse_members fuel' (set k v acc) r4
                              else if Ascii.eqb c3 "}" then Some (set k v acc, r4)
                              else None
                          end
                      | None => None
                      end
                    else None
                end
            | None => None
            end
          else None
      end
  end.

(** [JSON.parse(text)]; [None] when it throws a [SyntaxError]. *)
Definition JSON_parse (text : string) : option value :=
  match parse_value (2 * String.length text + 2) text with
  | Some (v, r) => if is_empty (skip_ws r) then Some v else None
  | None => None
  end.

End Json.


(** ** The search-flights route *)

Module SearchRoute.
Import JS Json.

(** The result of a piece of code that may throw. *)
Inductive completion (A : Type) :=
| Normal (a : A)
| Throw.
Arguments Normal {A} a.
Arguments Throw {A}.

Record Response := {
  status : Z;
  body : value
}.

(** *** The lookup process and the promise around it *)

(** What the child process does, as the events it emits.  The [data] of
    an output event is the text of one chunk as [data.toString()] gives it:
    each chunk is decoded on its own, and the texts are what the listeners
    append. *)
Inductive ChildEvent :=
| EvError
| EvStdout (data : string)
| EvStderr (data : string)
| EvClose (code : option Z).

(** A run of the lookup: the process cannot be started, and the child
    emits [error] and then [close] with the code of the failure; or it runs,
    writes to its two output channels, in chunks given by their decoded
    texts, and is closed.  A [close] code of
    [None] is the [null] of a process ended by a signal.  These are the
    events for which the route registers listeners; an error of the input
    channel itself, for which it registers none, is outside the model. *)
Inductive ChildRun :=
| CannotStart (code : option Z)
| Exits (stdout_chunks stderr_chunks : list string) (code : option Z).

Definition eventsOf (r : ChildRun) : list ChildEvent :=
  match r with
  | CannotStart code => [EvError; EvClose code]
  | Exits out err code => map EvStdout out ++ map EvStderr err ++ [EvClose code]
  end.

Inductive Settled :=
| Resolved (v : string)
| Rejected.

(** The variables of the promise executor, and the state of the promise. *)
Record Executor := {
  stdout : string;
  stderr : string;
  settled : option Settled
}.

(** [resolve] and [reject] act on a pending promise only. *)
Definition settle (s : Settled) (x : Executor) : Executor :=
  match settled x with
  | Some _ => x
  | None => {| stdout := stdout x; stderr := stderr x; settled := Some s |}
  end.

Definition startFailureOutput : string :=
  "{" ++ quoted "flights" ++ ": [], " ++ quoted "error" ++ ": "
  ++ quoted "Python environment not available" ++ "}".

(** The listeners, called in the order of their registration: on [error]
    the one given at [spawn] resolves, then the later one rejects. *)
Definition listen (x : Executor) (ev : ChildEvent) : Executor :=
  match ev with
  | EvError => settle Rejected (settle (Resolved startFailureOutput) x)
  | EvStdout data =>
      {| stdout := stdout x ++ data; stderr := stderr x; settled := settled x |}
  | EvStderr data =>
      {| stdout := stdout x; stderr := stderr x ++ data; settled := settled x |}
  | EvClose code =>
      match code with
      | Some 0%Z => settle (Resolved (stdout x)) x
      | _ => settle Rejected x
      end
  end.

Definition pending : Executor :=
  {| stdout := EmptyString; stderr := EmptyString; settled := None |}.

(** The chunks of a channel, one after the other. *)
Definition joinChunks (chunks : list string) : string :=
  fold_right append EmptyString chunks.

(** [await new Promise(...)]: [None] when the promise stays pending. *)
Definition awaitLookup (r : ChildRun) : option (completion string) :=
  match settled (fold_left listen (eventsOf r) pending) with
  | Some (Resolved v) => Some (Normal v)
  | Some Rejected => Some Throw
  | None => None
  end.

(** *** Normalisation of the lookup output *)

(** The destructured fields of the request body. *)
Record Params := {
  origin : jsval;
  destination : jsval;
  departureDate : jsval;
  returnDate : jsval;
  passengers : jsval;
  googleFlightsUrl : jsval
}.

Definition search_params (p : Params) : value :=
  Obj (object [ ("origin", origin p); ("destination", destination p);
                ("departureDate", departureDate p);
                ("returnDate", returnDate p);
                ("passengers", passengers p) ]).

(** [x.slice(0, 3).toUpperCase()]: on a value that is not a string one of
    the two calls throws a [TypeError]. *)
Definition code3 (x : jsval) : completion value :=
  match x with
  | Some (Str s) => Normal (Str (toUpperCase (slice_0_3 s)))
  | _ => Throw
  end.

Definition mockFlight (p : Params) (fromCode toCode : value) : value :=
  Obj (object
    [ ("id", Some (Str "api_1"));
      ("provider", Some (Str "Live Search Demo"));
      ("airline", Some (Str "Demo Airlines"));
      ("price", Some (Num 650));
      ("duration", Some (Str "14h 30m"));
      ("stops", Some (Num 1));
      ("stopDetails", Some (Str "1 stop"));
      ("from", Some (Obj (object [ ("code", Some fromCode);
                                   ("time", Some (Str "10:30"));
                                   ("airport", origin p) ])));
      ("to", Some (Obj (object [ ("code", Some toCode);
                                 ("time", Some (Str "09:00"));
                                 ("airport", destination p) ])));
      ("legs", Some (Arr [ Obj (object
         [ ("airline", Some (Str "Demo Airlines"));
           ("airlineLogoUrl", Some (Str "https://picsum.photos/40/40?random=99"));
           ("departureTime", Some (Str "10:30"));
           ("arrivalTime", Some (Str "09:00"));
           ("duration", Some (Str "14h 30m"));
           ("stops", Some (Str "1 stop"));
           ("fromCode", Some fromCode);
           ("toCode", Some toCode) ]) ])) ]).

Definition demoNote : string :=
  "Demo results - real flight search is being configured".

(** The [catch (parseError)] block. *)
Definition demoResults (p : Params) : completion value :=
  match code3 (origin p) with
  | Throw => Throw
  | Normal fromCode =>
      match code3 (destination p) with
      | Throw => Throw
      | Normal toCode =>
          let mockFlights := [mockFlight p fromCode toCode] in
          Normal (Obj (object
            [ ("flights", Some (Arr mockFlights));
              ("total_results", Some (ofNat (List.length mockFlights)));
              ("search_params", Some (search_params p));
              ("note", Some (Str demoNote)) ]))
      end
  end.

(** The re-wrapping of a parsed value without a [flights] array. *)
Definition rewrap (p : Params) (finalResults : value) : value :=
  Obj (object
    [ ("flights", Some (match finalResults with
                        | Arr l => Arr l
                        | _ => Arr []
                        end));
      ("total_results", Some (match finalResults with
                              | Arr l => ofNat (List.length l)
                              | _ => ofNat 0
                              end));
      ("search_params", Some (search_params p)) ]).

(** The [try] block: [None] when it throws, which is when [JSON.parse]
    rejects the text or yields [null], whose [flights] cannot be read. *)
Definition tryParse (p : Params) (out : string) : option value :=
  match JSON_parse out with
  | None => None
  | Some Null => None
  | Some finalResults =>
      let flights := getProp finalResults "flights" in
      if negb (truthy flights) || negb (isArray flights)
      then Some (rewrap p finalResults)
      else Some finalResults
  end.

Definition normalizeResults (p : Params) (out : string) : completion value :=
  match tryParse p out with
  | Some finalResults => Normal finalResults
  | None => demoResults p
  end.

(** *** The handler *)

Definition missingParameters : string :=
  "Missing required parameters: origin, destination, departureDate".

Definition badRequest : Response :=
  {| status := 400; body := Obj [("error", Str missingParameters)] |}.

Definition internalError : Response :=
  {| status := 500;
     body := Obj [("error", Str "Internal server error"); ("flights", Arr [])] |}.

Definition ok (v : value) : Response := {| status := 200; body := v |}.

(** The object given to [JSON.stringify] and written to the input channel
    of the process. *)
Definition searchData (p : Params) : value :=
  Obj (object
    [ ("origin", origin p); ("destination", destination p);
      ("departureDate", departureDate p); ("returnDate", returnDate p);
      ("passengers", if truthy (passengers p) then passengers p else Some (Num 1));
      ("googleFlightsUrl", googleFlightsUrl p) ]).

(** [const { ... } = body]; destructuring [null] throws. *)
Definition destructure (body : value) : completion Params :=
  match body with
  | Null => Throw
  | _ =>
      Normal {| origin := getProp body "origin";
                destination := getProp body "destination";
                departureDate := getProp body "departureDate";
                returnDate := getProp body "returnDate";
                passengers := getProp body "passengers";
                googleFlightsUrl := getProp body "googleFlightsUrl" |}
  end.

(** [!origin || !destination || !departureDate] *)
Definition missingRequired (p : Params) : bool :=
  negb (truthy (origin p)) || negb (truthy (destination p))
  || negb (truthy (departureDate p)).

(** What a call of the handler does: the response, if the handler answers,
    and the payloads given to the lookup processes it started. *)
Record Outcome := {
  response : option Response;
  lookups : list value
}.

Definition answer (r : Response) (l : list value) : Outcome :=
  {| response := Some r; lookups := l |}.

(** [POST]: [spawn] is the behaviour of the lookup process on a payload,
    [requestText] the body of the request.  Every [Throw] of the body is
    caught by the outer [catch], which answers 500. *)
Definition POST (spawn : value -> ChildRun) (requestText : string) : Outcome :=
  match JSON_parse requestText with
  | None => answer internalError []
  | Some body =>
      match destructure body with
      | Throw => answer internalError []
      | Normal p =>
          if missingRequired p then answer badRequest []
          else
            let payload := searchData p in
            match awaitLookup (spawn payload) with
            | None => {| response := None; lookups := [payload] |}
            | Some Throw => answer internalError [payload]
            | Some (Normal out) =>
                match normalizeResults p out with
                | Normal finalResults => answer (ok finalResults) [payload]
                | Throw => answer internalError [payload]
                end
            end
      end
  end.

(** *** Requests and results of the examples *)

(** What the route returns when the process cannot be started. *)
Definition startFailureResult : value :=
  Obj [("flights", Arr []); ("error", Str "Python environment not available")].

Definition glasgowChennai : Params :=
  {| origin := Some (Str "Glasgow"); destination := Some (Str "Chennai");
     departureDate := Some (Str "2025-09-19"); returnDate := None;
     passengers := None; googleFlightsUrl := None |}.

(** The text of a request body with the given string fields. *)
Definition requestOf (fields : list (string * string)) : string :=
  "{" ++ String.concat ", " (map (fun kv => quoted (fst kv) ++ ": " ++ quoted (snd kv)) fields) ++ "}".

Definition glasgowRequest : string :=
  requestOf [ ("origin", "Glasgow"); ("destination", "Chennai");
              ("departureDate", "2025-09-19") ].

Definition noOriginRequest : string :=
  requestOf [ ("destination", "Chennai"); ("departureDate", "2025-09-19") ].

End SearchRoute.

(** ** Counting dashes in a date expression *)

Module DateParts.
Import JS.

Definition nodash (c : ascii) : bool := negb (Ascii.eqb c "-").

(** Number of dashes of [s]. *)
Fixpoint dashes (s : string) : nat :=
  match s with
  | EmptyString => 0
  | String c r => (if Ascii.eqb c "-" then 1 else 0) + dashes r
  end.

(** [s] without its first [n] characters. *)
Fixpoint string_drop (n : nat) (s : string) : string :=
  match n, s with
  | O, _ => s
  | S n', String _ r => string_drop n' r
  | S _, EmptyString => EmptyString
  end.

End DateParts.

(** ** The lookup promise on any sequence of events *)

Module LookupEvents.
Import JS Json SearchRoute.

(** [await new Promise(...)] when the child emits the events [evs]. *)
Definition awaitEvents (evs : list ChildEvent) : option (completion string) :=
  match settled (fold_left listen evs pending) with
  | Some (Resolved v) => Some (Normal v)
  | Some Rejected => Some Throw
  | None => None
  end.

Definition isData (ev : ChildEvent) : bool :=
  match ev with
  | EvStdout _ | EvStderr _ => true
  | EvError | EvClose _ => false
  end.

(** The text of the [stdout] events of [evs], in order. *)
Fixpoint stdoutOf (evs : list ChildEvent) : string :=
  match evs with
  | [] => EmptyString
  | EvStdout data :: r => data ++ stdoutOf r
  | _ :: r => stdoutOf r
  end.

(** What the route retains of a run: whether the process started, the
    chunks of its output when its code is zero, and whether its code is
    zero. *)
Definition essence (r : ChildRun) : ChildRun :=
  match r with
  | CannotStart _ => CannotStart None
  | Exits out _ (Some 0%Z) => Exits out [] (Some 0%Z)
  | Exits _ _ _ => Exits [] [] None
  end.

End LookupEvents.

(** ** Outputs and errors of the examples *)

Module FlowSamples.
Import JS Assistant.

Definition completeOutput : FlightBookingOutput :=
  {| reply := "Searching the web...";
     isFlightDetailsComplete := true;
     flightDetails := Some {| Assistant.destination := Some "Chennai";
                              Assistant.origin := Some "Glasgow";
                              dates := Some "sep25 to oct2";
                              Assistant.passengers := Some 2%Z |} |}.

Definition quotaByMessage : Assistant.Error :=
  {| Assistant.status := None; message := Some "You exceeded your current quota" |}.

End FlowSamples.

(** ** The chat component: one submitted message *)

Module Chat.
Import JS Json DateNormalizer.
Import SearchRoute(completion, Normal, Throw).

Inductive Role := user | assistant.

Record Message := {
  role : Role;
  content : string
}.

Definition roleName (r : Role) : string :=
  match r with
  | user => "user"
  | assistant => "assistant"
  end.

(** [`${msg.role}: ${msg.content}`] *)
Definition renderMessage (m : Message) : string :=
  roleName (role m) ++ ": " ++ content m.

(** The line feed. *)
Definition LF : string := String (ascii_of_nat 10) EmptyString.

(** [currentMessages.map(...).join('\n')] *)
Definition conversationHistory (msgs : list Message) : string :=
  String.concat LF (map renderMessage msgs).

(** The input of the assistant: the history, and the flights to analyse
    when there are some. *)
Record FlightBookingInput := {
  history : string;
  availableFlights : option value
}.

(** [s || d] on strings. *)
Definition orElse (s d : string) : string := if is_empty s then d else s.

(** [n || d] on integers. *)
Definition orElseZ (n d : Z) : Z := if (n =? 0)%Z then d else n.

(** The fields of [response.flightDetails] with the defaults of their
    destructuring. *)
Record Details := {
  destination : string;
  origin : string;
  dates : string;
  passengers : Z
}.

Definition detailsOf (d : Assistant.FlightDetails) : Details :=
  {| destination := match Assistant.destination d with Some s => s | None => EmptyString end;
     origin := match Assistant.origin d with Some s => s | None => EmptyString end;
     dates := match Assistant.dates d with Some s => s | None => EmptyString end;
     passengers := match Assistant.passengers d with Some n => n | None => 1%Z end |}.

Definition queryParts (d : Details) : list string :=
  (if is_empty (destination d) then [] else ["to " ++ destination d])
  ++ (if is_empty (origin d) then [] else ["from " ++ origin d])
  ++ (if is_empty (dates d) then [] else ["on " ++ dates d])
  ++ (if (passengers d =? 0)%Z then []
      else ["for " ++ string_of_Z (passengers d) ++ " people"]).

(** [`Flights ${queryParts.join(' ')}`] *)
Definition newFlightQuery (d : Details) : string :=
  "Flights " ++ String.concat " " (queryParts d).

(** *** The link to the search engine *)

(** The characters that [encodeURIComponent] leaves as they are. *)
Definition uriUnreserved (c : ascii) : bool :=
  is_upper c || is_lower c || is_digit c
  || Ascii.eqb c "-" || Ascii.eqb c "_" || Ascii.eqb c "." || Ascii.eqb c "!"
  || Ascii.eqb c "~" || Ascii.eqb c "*" || Ascii.eqb c "'" || Ascii.eqb c "("
  || Ascii.eqb c ")".

Definition hexDigit (n : nat) : ascii :=
  if (n <? 10)%nat then ascii_of_nat (48 + n) else ascii_of_nat (55 + n).

Definition percentEncoded (c : ascii) : string :=
  String "%" (String (hexDigit (nat_of_ascii c / 16))
                (String (hexDigit (nat_of_ascii c mod 16)) EmptyString)).

(** [encodeURIComponent(s)], on the bytes of the UTF-8 form of [s]. *)
Fixpoint encodeURIComponent (s : string) : string :=
  match s with
  | EmptyString => EmptyString
  | String c r =>
      (if uriUnreserved c then String c EmptyString else percentEncoded c)
      ++ encodeURIComponent r
  end.

(** A date is truthy when it is neither [null] nor empty. *)
Definition present (d : option string) : bool :=
  match d with
  | Some s => negb (is_empty s)
  | None => false
  end.

Definition flightsQuery (d : Details) (departureDate : string)
    (returnDate : option string) : string :=
  let route :=
    "Flights+to+" ++ encodeURIComponent (orElse (destination d) "Chennai")
    ++ "+from+" ++ encodeURIComponent (orElse (origin d) "Glasgow")
    ++ "+for+" ++ string_of_Z (orElseZ (passengers d) 1)
    ++ "+adults+on+" ++ departureDate in
  match returnDate with
  | Some r => if is_empty r then route else route ++ "+through+" ++ r
  | None => route
  end.

Definition googleFlightsUrl (d : Details) (departureDate : string)
    (returnDate : option string) : string :=
  "https://www.google.com/travel/flights?q="
  ++ flightsQuery d departureDate returnDate ++ "&curr=GBP&gl=uk&hl=en".

(** *** The request to the route *)

Definition dateValue (d : option string) : value :=
  match d with
  | Some s => Str s
  | None => Null
  end.

(** The object sent as the body of the request. *)
Definition searchRequest (d : Details) (departureDate : string)
    (returnDate : option string) : value :=
  Obj [ ("origin", Str (orElse (origin d) "Glasgow"));
        ("destination", Str (orElse (destination d) "Chennai"));
        ("departureDate", Str (orElse departureDate "2025-09-19"));
        ("returnDate", dateValue returnDate);
        ("passengers", Num (inject_Z (orElseZ (passengers d) 1)));
        ("googleFlightsUrl", Str (googleFlightsUrl d departureDate returnDate)) ].

(** The search criteria kept for the results view. *)
Definition criteria (d : Details) (departureDate : string)
    (returnDate : option string) : value :=
  Obj [ ("origin", Str (orElse (origin d) "Glasgow"));
        ("destination", Str (orElse (destination d) "Chennai"));
        ("departureDate", Str (orElse departureDate "2025-09-19"));
        ("returnDate", dateValue returnDate);
        ("passengers", Num (inject_Z (orElseZ (passengers d) 1))) ].

(** [flightData.flights || []]; reading a member of [null] throws. *)
Definition fetchedFlights (flightData : value) : completion value :=
  match flightData with
  | Null => Throw
  | _ =>
      let flights := getProp flightData "flights" in
      match flights with
      | Some f => if truthy flights then Normal f else Normal (Arr [])
      | None => Normal (Arr [])
      end
  end.

(** *** The state and the services *)

(** The state that [handleSendMessage] reads and sets. *)
Record State := {
  messages : list Message;
  input : string;
  loading : bool;
  flightQuery : option string;
  showViewFlightsButton : bool;
  realFlights : value;
  searchCriteria : option value
}.

(** The two services called: the assistant, and the request to the route
    with the reading of its answer as JSON.  Each returns or throws. *)
Record Services := {
  flightBookingAssistant : FlightBookingInput -> completion Assistant.FlightBookingOutput;
  searchFlights : value -> completion value
}.

Inductive Call :=
| AssistantCall (request : FlightBookingInput)
| SearchCall (body : value).

Definition errorText : string := "Sorry, I encountered an error. Please try again.".

Definition fetchFailureText : string :=
  "I found your search details but encountered an issue retrieving live flight data. Please try again.".

(** [setMessages(prev => [...prev, m]); setLoading(false)] *)
Definition say (text : string) (st : State) : State :=
  {| messages := (messages st ++ [{| role := assistant; content := text |}])%list;
     input := input st;
     loading := false;
     flightQuery := flightQuery st;
     showViewFlightsButton := showViewFlightsButton st;
     realFlights := realFlights st;
     searchCriteria := searchCriteria st |}.

Definition setFlightQuery (q : string) (st : State) : State :=
  {| messages := messages st;
     input := input st;
     loading := loading st;
     flightQuery := Some q;
     showViewFlightsButton := showViewFlightsButton st;
     realFlights := realFlights st;
     searchCriteria := searchCriteria st |}.

(** [setRealFlights(flights); setSearchCriteria(c)] *)
Definition setSearchResult (flights c : value) (st : State) : State :=
  {| messages := messages st;
     input := input st;
     loading := loading st;
     flightQuery := flightQuery st;
     showViewFlightsButton := showViewFlightsButton st;
     realFlights := flights;
     searchCriteria := Some c |}.

Definition setShowViewFlightsButton (b : bool) (st : State) : State :=
  {| messages := messages st;
     input := input st;
     loading := loading st;
     flightQuery := flightQuery st;
     showViewFlightsButton := b;
     realFlights := realFlights st;
     searchCriteria := searchCriteria st |}.

(** The request of the second call: the history with the first reply, and
    the flights found. *)
Definition analysisRequest (historyText : string)
    (response : Assistant.FlightBookingOutput) (flights : value) : FlightBookingInput :=
  {| history := historyText ++ LF ++ "assistant: " ++ Assistant.reply response;
     availableFlights := Some flights |}.

(** The search and the analysis of its flights, once the assistant has
    the details: the flight query, the dates, the inner [try] block with
    the request to the route and the second call of the assistant, and its
    [catch], which says [fetchFailureText] and returns. *)
Definition searchAndAnalyse (E : Engine) (S : Services) (historyText : string)
    (response : Assistant.FlightBookingOutput) (details : Assistant.FlightDetails)
    (st : State) : State * list Call :=
  let d := detailsOf details in
  let st1 := setFlightQuery (newFlightQuery d) st in
  let (departureDate, returnDate) := resolveDates E (dates d) in
  let body := searchRequest d departureDate returnDate in
  match searchFlights S body with
  | Throw => (say fetchFailureText st1, [SearchCall body])
  | Normal flightData =>
      match fetchedFlights flightData with
      | Throw => (say fetchFailureText st1, [SearchCall body])
      | Normal flights =>
          let st2 := setSearchResult flights (criteria d departureDate returnDate) st1 in
          let request2 := analysisRequest historyText response flights in
          match flightBookingAssistant S request2 with
          | Throw =>
              (say fetchFailureText st2, [SearchCall body; AssistantCall request2])
          | Normal response2 =>
              (say (Assistant.reply response2) (setShowViewFlightsButton true st2),
               [SearchCall body; AssistantCall request2])
          end
      end
  end.

(** [messageContent || input] *)
Definition contentOf (messageContent : option string) (st : State) : string :=
  match messageContent with
  | Some m => orElse m (input st)
  | None => input st
  end.

(** [!messageContent || !processedInitialQuery.current]: whether the
    message is added to the transcript as a message of the user. *)
Definition addsUserMessage (processed : bool) (messageContent : option string) : bool :=
  negb (present messageContent) || negb processed.

(** [currentMessages]: the messages of the state, taken to be those that
    the function sees in its closure, with the message of the user when it
    is added. *)
Definition currentMessages (processed : bool) (messageContent : option string)
    (st : State) : list Message :=
  if addsUserMessage processed messageContent
  then (messages st ++ [{| role := user; content := contentOf messageContent st |}])%list
  else messages st.

(** The state when the first call is made: the button hidden, the message
    added, the input emptied if the message was typed, [loading] set. *)
Definition started (processed : bool) (messageContent : option string)
    (st : State) : State :=
  {| messages := currentMessages processed messageContent st;
     input := if present messageContent then input st else EmptyString;
     loading := true;
     flightQuery := flightQuery st;
     showViewFlightsButton := false;
     realFlights := realFlights st;
     searchCriteria := searchCriteria st |}.

(** The request of the first call. *)
Definition firstRequest (processed : bool) (messageContent : option string)
    (st : State) : FlightBookingInput :=
  {| history := conversationHistory (currentMessages processed messageContent st);
     availableFlights := None |}.

(** [handleSendMessage(messageContent)]: the state after the call and the
    calls made to the services, in a component whose state is [st] and
    whose [processedInitialQuery.current] is [processed].  The updates of
    the state are applied in the order of the code. *)
Definition handleSendMessage (E : Engine) (S : Services) (processed : bool)
    (messageContent : option string) (st : State) : State * list Call :=
  if is_empty (trim (contentOf messageContent st)) then (st, [])
  else
    let st1 := started processed messageContent st in
    let request := firstRequest processed messageContent st in
    match flightBookingAssistant S request with
    | Throw => (say errorText st1, [AssistantCall request])
    | Normal response =>
        match Assistant.isFlightDetailsComplete response,
              Assistant.flightDetails response with
        | true, Some details =>
            let (st2, calls) :=
              searchAndAnalyse E S (history request) response details st1 in
            (st2, AssistantCall request :: calls)
        | _, _ => (say (Assistant.reply response) st1, [AssistantCall request])
        end
    end.

(** The state after a search that returned [flights]. *)
Definition searched (details : Assistant.FlightDetails) (departureDate : string)
    (returnDate : option string) (flights : value) (st : State) : State :=
  setSearchResult flights (criteria (detailsOf details) departureDate returnDate)
    (setFlightQuery (newFlightQuery (detailsOf details)) st).

End Chat.

(** ** Outputs and services of the examples of the chat *)

Module ChatSamples.
Import JS Json Chat.
Import SearchRoute(completion, Normal, Throw).

Definition analysis : Assistant.FlightBookingOutput :=
  {| Assistant.reply := "I found one flight for you.";
     Assistant.isFlightDetailsComplete := true;
     Assistant.flightDetails := None |}.

Definition oneFlight : value :=
  Obj [("flights", Arr [Obj [("id", Str "api_1"); ("price", Num (inject_Z 650))]])].

(** An assistant that has the details at once and then analyses the
    flights, and a route that found one flight. *)
Definition services : Services :=
  {| flightBookingAssistant := fun request =>
       match availableFlights request with
       | None => Normal FlowSamples.completeOutput
       | Some _ => Normal analysis
       end;
     searchFlights := fun _ => Normal oneFlight |}.

Definition fresh : State :=
  {| messages := [];
     input := EmptyString;
     loading := false;
     flightQuery := None;
     showViewFlightsButton := false;
     realFlights := Arr [];
     searchCriteria := None |}.

Definition glasgowDetails : Details :=
  {| destination := "Chennai"; origin := EmptyString;
     dates := "sep25 to oct2"; passengers := 2 |}.

(** The text of the request that the chat sends for [glasgowDetails]. *)
Definition searchText : string :=
  "{" ++ quoted "origin" ++ ":" ++ quoted "Glasgow" ++ ","
  ++ quoted "destination" ++ ":" ++ quoted "Chennai" ++ ","
  ++ quoted "departureDate" ++ ":" ++ quoted "2025-09-25" ++ ","
  ++ quoted "returnDate" ++ ":" ++ quoted "2025-10-02" ++ ","
  ++ quoted "passengers" ++ ":2,"
  ++ quoted "googleFlightsUrl" ++ ":"
  ++ quoted "https://www.google.com/travel/flights?q=Flights+to+Chennai+from+Glasgow+for+2+adults+on+2025-09-25+through+2025-10-02&curr=GBP&gl=uk&hl=en"
  ++ "}".

End ChatSamples.

(** ** The results view: the query and its flights *)

Module ResultsView.
Import JS Json.
Import SearchRoute(completion, Normal, Throw).

(** [s.split(sep)] for a separator that is not empty: the separator is
    looked for from the left, and the search goes on after each
    occurrence.  [skip] counts the characters of an occurrence still to
    pass, [cur] is the part being read. *)
Fixpoint splitOn (sep : string) (skip : nat) (cur s : string) : list string :=
  match s with
  | EmptyString => [cur]
  | String c r =>
      match skip with
      | S k => splitOn sep k cur r
      | O =>
          if startsWith s sep
          then cur :: splitOn sep (String.length sep - 1) EmptyString r
          else splitOn sep 0 (cur ++ String c EmptyString) r
      end
  end.

Definition split (s sep : string) : list string := splitOn sep 0 EmptyString s.

(** The output of [parseFlightQuery], as the view reads it: two strings,
    and a third that may be absent. *)
Record ParseFlightQueryOutput := {
  destination : string;
  dates : string;
  otherDetails : option string
}.

(** [parsed.otherDetails?.includes('from') ?
     parsed.otherDetails.split('from')[1]?.trim() || 'London' : 'London'] *)
Definition originOf (parsed : ParseFlightQueryOutput) : string :=
  match otherDetails parsed with
  | Some details =>
      if includes details "from"
      then match nth_error (split details "from") 1 with
           | Some part => Chat.orElse (trim part) "London"
           | None => "London"
           end
      else "London"
  | None => "London"
  end.

(** The search parameters kept for the cards, which are also the body of
    the request to the route. *)
Definition searchParamsOf (parsed : ParseFlightQueryOutput) : value :=
  Obj [ ("origin", Str (originOf parsed));
        ("destination", Str (destination parsed));
        ("departureDate", Str (dates parsed));
        ("returnDate", Null);
        ("passengers", Num (inject_Z 1)) ].

(** The three messages of the view; the first one ends with the text of
    the [error] member of the answer. *)
Inductive ErrorShown :=
| ApiError (error : value)
| NoFlightsAvailable
| Unreachable.

Record State := {
  parsedQuery : option ParseFlightQueryOutput;
  flights : list value;
  loading : bool;
  error : option ErrorShown;
  searchParams : option value
}.

(** The two services called: the parsing of the query, and the request to
    the route with the reading of its answer as JSON. *)
Record Services := {
  parseFlightQuery : string -> completion ParseFlightQueryOutput;
  searchFlights : value -> completion value
}.

Inductive Call :=
| ParseCall (query : string)
| SearchCall (body : value).

Definition provided : ParseFlightQueryOutput :=
  {| destination := "Provided"; dates := "Provided";
     otherDetails := Some "From AI search" |}.

Definition setParsedQuery (parsed : ParseFlightQueryOutput) (st : State) : State :=
  {| parsedQuery := Some parsed;
     flights := flights st;
     loading := loading st;
     error := error st;
     searchParams := searchParams st |}.

Definition setFlights (l : list value) (st : State) : State :=
  {| parsedQuery := parsedQuery st;
     flights := l;
     loading := loading st;
     error := error st;
     searchParams := searchParams st |}.

Definition setLoading (b : bool) (st : State) : State :=
  {| parsedQuery := parsedQuery st;
     flights := flights st;
     loading := b;
     error := error st;
     searchParams := searchParams st |}.

Definition setError (e : option ErrorShown) (st : State) : State :=
  {| parsedQuery := parsedQuery st;
     flights := flights st;
     loading := loading st;
     error := e;
     searchParams := searchParams st |}.

Definition setSearchParams (p : value) (st : State) : State :=
  {| parsedQuery := parsedQuery st;
     flights := flights st;
     loading := loading st;
     error := error st;
     searchParams := Some p |}.

(** The [catch] block. *)
Definition unreachable (st : State) : State :=
  setLoading false (setFlights [] (setError (Some Unreachable) st)).

(** The reading of the answer of the route; reading a member of [null]
    throws. *)
Definition showAnswer (flightData : value) (st : State) : completion State :=
  match flightData with
  | Null => Throw
  | _ =>
      match getProp flightData "flights" with
      | Some (Arr (f :: l)) => Normal (setFlights (f :: l) st)
      | _ =>
          match getProp flightData "error" with
          | Some e =>
              if truthy (Some e)
              then Normal (setFlights [] (setError (Some (ApiError e)) st))
              else Normal (setFlights [] (setError (Some NoFlightsAvailable) st))
          | None => Normal (setFlights [] (setError (Some NoFlightsAvailable) st))
          end
      end
  end.

(** The four calls that open [fetchQueryAndFlights]. *)
Definition cleared (st : State) : State :=
  {| parsedQuery := None;
     flights := [];
     loading := true;
     error := None;
     searchParams := searchParams st |}.

(** The calls made for a query that was parsed into [parsed]. *)
Definition callsFor (query : string) (parsed : ParseFlightQueryOutput) : list Call :=
  [ParseCall query; SearchCall (searchParamsOf parsed)].

(** The part of [fetchQueryAndFlights] that is run when the parent gave no
    flights: the query is parsed, and the route is asked when the result
    has a destination and dates.  [st0] is the state when it starts. *)
Definition parseAndSearch (mockFlights : list value) (S : Services)
    (query : string) (st0 : State) : State * list Call :=
  match parseFlightQuery S query with
  | Throw => (unreachable st0, [ParseCall query])
  | Normal parsed =>
      let st1 := setParsedQuery parsed st0 in
      if negb (is_empty (destination parsed)) && negb (is_empty (dates parsed))
      then
        let st2 := setSearchParams (searchParamsOf parsed) st1 in
        match searchFlights S (searchParamsOf parsed) with
        | Throw => (unreachable st2, callsFor query parsed)
        | Normal flightData =>
            match showAnswer flightData st2 with
            | Throw => (unreachable st2, callsFor query parsed)
            | Normal st3 => (setLoading false st3, callsFor query parsed)
            end
        end
      else (setLoading false (setFlights mockFlights st1), [ParseCall query])
  end.

(** [fetchQueryAndFlights()]: the state after the call and the calls made
    to the services.  [mockFlights] is the constant list of the module,
    [providedFlights] and [providedSearchParams] are the properties of the
    component. *)
Definition fetchQueryAndFlights (mockFlights : list value) (S : Services)
    (query : string) (providedFlights : option (list value))
    (providedSearchParams : option value) (st : State) : State * list Call :=
  let st0 := cleared st in
  match providedFlights with
  | Some (f :: l) =>
      let st1 := setParsedQuery provided (setFlights (f :: l) st0) in
      (setLoading false
         match providedSearchParams with
         | Some p => setSearchParams p st1
         | None => st1
         end, [])
  | _ => parseAndSearch mockFlights S query st0
  end.

(** The effect on [query] and [providedFlights]. *)
Definition onQuery (mockFlights : list value) (S : Services)
    (query : string) (providedFlights : option (list value))
    (providedSearchParams : option value) (st : State) : State * list Call :=
  if is_empty query then (setLoading false st, [])
  else fetchQueryAndFlights mockFlights S query providedFlights providedSearchParams st.

(** *** Services of the examples *)

Definition toChennai : ParseFlightQueryOutput :=
  {| destination := "Chennai"; dates := "2025-09-19";
     otherDetails := Some "2 adults, from Glasgow" |}.

Definition emptyAnswer : value := Obj [("flights", Arr []); ("error", Str "Python environment not available")].

Definition sampleServices : Services :=
  {| parseFlightQuery := fun _ => Normal toChennai;
     searchFlights := fun _ => Normal emptyAnswer |}.

Definition initial : State :=
  {| parsedQuery := None;
     flights := [];
     loading := true;
     error := None;
     searchParams := None |}.

(** The text of the request that the view sends for [toChennai]. *)
Definition searchText : string :=
  "{" ++ quoted "origin" ++ ":" ++ quoted "Glasgow" ++ ","
  ++ quoted "destination" ++ ":" ++ quoted "Chennai" ++ ","
  ++ quoted "departureDate" ++ ":" ++ quoted "2025-09-19" ++ ","
  ++ quoted "returnDate" ++ ":null,"
  ++ quoted "passengers" ++ ":1}".

End ResultsView.

Import JS DateNormalizer.

(** * Properties *)

(** ** Evaluation on the examples of the specification *)

Example normalize_sep25 : parseFlexibleDate engine2025 "sep25" = "2025-09-25".
Proof. reflexivity. Qed.

Example normalize_25th : parseFlexibleDate engine2025 "25th" = "25th".
Proof. reflexivity. Qed.

Example normalize_full_name :
  parseFlexibleDate engine2025 " January 5TH " = "2025-01-05".
Proof. reflexivity. Qed.

Example normalize_date_time :
  parseFlexibleDate engine2025 "2025-09-25T10:00:00Z" = "2025-09-25".
Proof. reflexivity. Qed.

Example resolve_sep25_oct2 :
  resolveDates engine2025 "sep25 to oct2" = ("2025-09-25", Some "2025-10-02").
Proof. reflexivity. Qed.

Example split_spaced_dash : splitDates "sep 25 - oct 2" = ["sep 25"; "oct 2"].
Proof. reflexivity. Qed.

Example split_three_parts : splitDates "a  -  b through c" = ["a"; "b"; "c"].
Proof. reflexivity. Qed.

Example split_iso_range :
  resolveDates engine2025 "2025-09-25 to 2025-10-02"
  = ("2025-09-25 to 2025-10-02", None).
Proof. reflexivity. Qed.

(** ** Characters and strings *)

Ltac split_andb :=
  repeat match goal with
  | h : _ && _ = true |- _ => apply andb_true_iff in h; destruct h
  end.

Lemma digit_char_facts (c : ascii) :
  is_digit c = true ->
  is_upper c = false /\ is_space c = false /\ is_lower c = false.
Proof.
  destruct c as [[] [] [] [] [] [] [] []]; vm_compute; intros H;
    try discriminate H; repeat split.
Qed.

Lemma all_chars_impl (p q : ascii -> bool) (s : string) :
  (forall c, p c = true -> q c = true) ->
  all_chars p s = true -> all_chars q s = true.
Proof.
  intros Hpq. induction s as [|c s IH]; cbn; [reflexivity|].
  intros H. split_andb. rewrite (Hpq c), IH; auto.
Qed.

Lemma all_chars_app (p : ascii -> bool) (s t : string) :
  all_chars p (s ++ t) = all_chars p s && all_chars p t.
Proof.
  induction s as [|c s IH]; cbn; [reflexivity|].
  now rewrite IH, andb_assoc.
Qed.

Lemma append_assoc (a b c : string) : (a ++ b) ++ c = a ++ (b ++ c).
Proof. induction a as [|x a IH]; cbn; [reflexivity|]. now rewrite IH. Qed.

Lemma append_empty_r (a : string) : a ++ "" = a.
Proof. induction a as [|x a IH]; cbn; [reflexivity|]. now rewrite IH. Qed.

Lemma length_append (a b : string) :
  String.length (a ++ b) = String.length a + String.length b.
Proof. induction a as [|x a IH]; cbn; [reflexivity|]. now rewrite IH. Qed.

Lemma toLowerCase_id (s : string) :
  all_chars (fun c => negb (is_upper c)) s = true -> toLowerCase s = s.
Proof.
  unfold toLowerCase.
  induction s as [|c s IH]; cbn [map_string all_chars]; [reflexivity|].
  intros H. split_andb. rewrite IH by assumption.
  unfold lower_char. destruct (is_upper c); [discriminate|reflexivity].
Qed.

Lemma trimEnd_id (s : string) :
  all_chars (fun c => negb (is_space c)) s = true -> trimEnd s = s.
Proof.
  induction s as [|c s IH]; cbn; [reflexivity|].
  intros H. split_andb. rewrite IH by assumption.
  destruct (is_space c); [discriminate|reflexivity].
Qed.

Lemma trimStart_id (s : string) :
  all_chars (fun c => negb (is_space c)) s = true -> trimStart s = s.
Proof.
  unfold trimStart. destruct s as [|c s]; cbn; [reflexivity|].
  intros H. split_andb. destruct (is_space c); [discriminate|reflexivity].
Qed.

Lemma trim_id (s : string) :
  all_chars (fun c => negb (is_space c)) s = true -> trim s = s.
Proof.
  intros H. unfold trim. rewrite trimStart_id by assumption. now apply trimEnd_id.
Qed.

Lemma iso_char_facts (c : ascii) :
  iso_char c = true -> is_upper c = false /\ is_space c = false.
Proof.
  unfold iso_char. intros H. apply orb_true_iff in H. destruct H as [H|H].
  - apply digit_char_facts in H. tauto.
  - apply Ascii.eqb_eq in H. subst. split; reflexivity.
Qed.

Lemma isoDatePattern_chars (s : string) :
  isoDatePattern s = true -> all_chars iso_char s = true.
Proof.
  intros H.
  do 10 (destruct s as [|? s]; [discriminate H|]).
  destruct s; [|discriminate H].
  cbn [isoDatePattern] in H. split_andb.
  unfold iso_char. cbn [all_chars].
  repeat match goal with h : _ = true |- _ => rewrite h; clear h end.
  rewrite ?orb_true_r. reflexivity.
Qed.

Lemma isoDatePattern_clean (s : string) :
  isoDatePattern s = true -> trim (toLowerCase s) = s.
Proof.
  intros H. apply isoDatePattern_chars in H.
  rewrite toLowerCase_id.
  - apply trim_id. revert H. apply all_chars_impl.
    intros c Hc. apply iso_char_facts in Hc. destruct Hc as [_ ->]. reflexivity.
  - revert H. apply all_chars_impl.
    intros c Hc. apply iso_char_facts in Hc. destruct Hc as [-> _]. reflexivity.
Qed.

(** C8.  A string of the shape [YYYY-MM-DD] is returned as it is, so that
    normalising it twice gives what normalising it once gives. *)
Theorem iso_date_unchanged (E : Engine) (s : string) :
  isoDatePattern s = true ->
  parseFlexibleDate E s = s
  /\ parseFlexibleDate E (parseFlexibleDate E s) = parseFlexibleDate E s.
Proof.
  intros H.
  assert (Hs : parseFlexibleDate E s = s).
  { unfold parseFlexibleDate. rewrite (isoDatePattern_clean s H), H. reflexivity. }
  split; [exact Hs|]. rewrite Hs. exact Hs.
Qed.

Lemma iso_date_unchanged_witness :
  parseFlexibleDate engine2025 "2025-09-25" = "2025-09-25"
  /\ parseFlexibleDate engine2025 (parseFlexibleDate engine2025 "2025-09-25")
     = parseFlexibleDate engine2025 "2025-09-25".
Proof. apply (iso_date_unchanged engine2025 "2025-09-25"). reflexivity. Defined.

(** ** The month pattern *)

Lemma span_app (p : ascii -> bool) (w r : string) :
  all_chars p w = true ->
  match r with EmptyString => True | String c _ => p c = false end ->
  span p (w ++ r) = (w, r).
Proof.
  intros Hw Hr. induction w as [|c w IH]; cbn [append span all_chars] in *.
  - destruct r as [|c r]; [reflexivity|]. cbn. now rewrite Hr.
  - split_andb. rewrite H, IH by assumption. reflexivity.
Qed.






Lemma dayEnd_digits (s d : string) : dayEnd s = Some d -> day_digits d.
Proof.
  unfold dayEnd, day_digits. destruct s as [|a [|b t]]; [discriminate| |].
  - destruct (is_digit a) eqn:Ha; [|discriminate].
    intros [= <-]. cbn. rewrite Ha. split; [reflexivity|lia].
  - destruct (is_digit a) eqn:Ha; [|discriminate]. cbn [andb].
    destruct (is_digit b && ordinalEnd t) eqn:Hb.
    + intros [= <-]. split_andb. cbn. rewrite Ha, H. split; [reflexivity|lia].
    + destruct (ordinalEnd (String b t)); [|discriminate].
      intros [= <-]. cbn. rewrite Ha. split; [reflexivity|lia].
Qed.

Lemma monthDayFrom_sound (alts : list string) (s m d : string) :
  monthDayFrom alts s = Some (m, d) -> In m alts /\ day_digits d.
Proof.
  induction alts as [|a alts IH]; cbn [monthDayFrom]; [discriminate|].
  destruct (match strip_prefix a s with Some r => dayTail r | None => None end)
    as [d'|] eqn:Hd.
  - intros [= <- <-]. split; [now left|].
    destruct (strip_prefix a s) as [r|]; [|discriminate].
    unfold dayTail in Hd. now apply dayEnd_digits in Hd.
  - intros H. apply IH in H. destruct H. split; [now right|assumption].
Qed.














Section Normalizer.
Variable E : Engine.


End Normalizer.


(** ** The shape of a normalised date *)

Lemma years_four_digits :
  forallb (fun n => four_digits (string_of_Z (1000 + Z.of_nat n))) (seq 0 (Z.to_nat 9000)) = true.
Proof. vm_compute. reflexivity. Qed.

Lemma year_four_digits (y : Z) :
  (1000 <= y <= 9999)%Z -> four_digits (string_of_Z y) = true.
Proof.
  intros Hy. pose proof years_four_digits as H.
  rewrite forallb_forall in H.
  specialize (H (Z.to_nat (y - 1000))).
  replace (1000 + Z.of_nat (Z.to_nat (y - 1000)))%Z with y in H by lia.
  apply H. apply in_seq. lia.
Qed.

Lemma month_day_shape (y m d : string) :
  four_digits y = true -> In m monthAlternatives -> day_digits d ->
  isoDatePattern (y ++ "-" ++ monthOf m ++ "-" ++ padStart2 d) = true.
Proof.
  intros Hy Hm [Hd Hl].
  destruct y as [|y1 [|y2 [|y3 [|y4 [|? ?]]]]]; try discriminate Hy.
  cbn [four_digits] in Hy. split_andb.
  assert (Hmm : exists m1 m2, monthOf m = String m1 (String m2 EmptyString)
                 /\ is_digit m1 = true /\ is_digit m2 = true).
  { cbn in Hm. repeat destruct Hm as [<- | Hm]; try contradiction;
      do 2 eexists; (split; [reflexivity|split; reflexivity]). }
  destruct Hmm as (m1 & m2 & -> & Hm1 & Hm2).
  destruct d as [|a [|b [|c d]]]; cbn in Hl; try lia;
    cbn [all_chars] in Hd; split_andb;
    cbn [append padStart2 String.length isoDatePattern];
    repeat match goal with h : is_digit _ = true |- _ => rewrite h end;
    reflexivity.
Qed.

Section NormalizerShape.
Variable E : Engine.
Hypothesis year_range : (1000 <= currentYear E <= 9999)%Z.

(** C9, as the code has it.  The normaliser returns, on every string, a
    string of the shape [YYYY-MM-DD], or the date that the engine's own
    parser made of the string, or the string itself; whether the month and
    the day of the first form exist in the calendar is not examined. *)
Theorem normalizer_total_shape (dateStr : string) :
  exists r : string,
    parseFlexibleDate E dateStr = r
    /\ (isoDatePattern r = true \/ Date_parse E dateStr = Some r \/ r = dateStr).
Proof.
  eexists. split; [reflexivity|]. unfold parseFlexibleDate.
  destruct (isoDatePattern (trim (toLowerCase dateStr))) eqn:Hiso; [now left|].
  destruct (monthDayMatch (trim (toLowerCase dateStr))) as [[m d]|] eqn:Hm.
  - left. apply monthDayFrom_sound in Hm. destruct Hm as [Hm Hd].
    apply month_day_shape; [now apply year_four_digits|assumption..].
  - destruct (Date_parse E dateStr); [right; left|right; right]; reflexivity.
Qed.

End NormalizerShape.

Lemma normalizer_total_shape_witness :
  exists r : string,
    parseFlexibleDate engine2025 "feb31" = r
    /\ (isoDatePattern r = true \/ Date_parse engine2025 "feb31" = Some r \/ r = "feb31").
Proof.
  apply (normalizer_total_shape engine2025). cbn. lia.
Defined.

(** C9 as stated fails: ["feb31"] is normalised to the 31st of February,
    which is neither a date of the calendar nor the string given. *)
Lemma normalizer_invalid_date :
  parseFlexibleDate engine2025 "feb31" = "2025-02-31"
  /\ ~ (validIsoDate (parseFlexibleDate engine2025 "feb31") = true
        \/ parseFlexibleDate engine2025 "feb31" = "feb31").
Proof.
  split; [reflexivity|]. intros [H|H]; vm_compute in H; discriminate H.
Qed.

(** ** Splitting a date range *)

Lemma separator_plain (c : ascii) (r : string) :
  plain_char c = true -> separatorLength (String c r) = None.
Proof.
  unfold plain_char. intros H. split_andb.
  apply negb_true_iff in H, H0.
  unfold separatorLength, separator, wordSeparator, dashSeparator, nonempty_span.
  cbn [span]. rewrite H. cbn [is_empty snd]. rewrite H0. reflexivity.
Qed.

Lemma span_space_plain (b : string) :
  all_chars plain_char b = true -> span is_space b = (EmptyString, b).
Proof.
  destruct b as [|c b]; [reflexivity|]. cbn [all_chars span]. intros H.
  split_andb. unfold plain_char in H. split_andb.
  apply negb_true_iff in H. now rewrite H.
Qed.

Lemma plain_head (b : string) :
  all_chars plain_char b = true ->
  match b with EmptyString => True | String c _ => is_space c = false end.
Proof.
  destruct b as [|c b]; [trivial|]. cbn [all_chars]. intros H.
  split_andb. unfold plain_char in H. split_andb. now apply negb_true_iff.
Qed.

Lemma nonempty_span_app (p : ascii -> bool) (c : ascii) (w r : string) :
  all_chars p (String c w) = true ->
  match r with EmptyString => True | String x _ => p x = false end ->
  nonempty_span p (String c w ++ r) = Some r.
Proof.
  intros Hw Hr. unfold nonempty_span. rewrite span_app by assumption. reflexivity.
Qed.

Lemma separator_connector (conn b : string) :
  In conn connectors -> all_chars plain_char b = true ->
  separator (conn ++ b) = Some b.
Proof.
  intros Hc Hb. pose proof (plain_head b Hb) as Hh.
  pose proof (span_app is_space EmptyString b eq_refl Hh) as Hs. cbn [append] in Hs.
  unfold separator, wordSeparator, dashSeparator.
  cbn in Hc. destruct Hc as [<- | [<- | [<- | [<- | []]]]].
  - change (" to " ++ b) with (" " ++ ("to " ++ b)).
    rewrite nonempty_span_app by reflexivity.
    change (strip_prefix "to" ("to " ++ b)) with (Some (" " ++ b)).
    cbv beta iota. rewrite nonempty_span_app by (reflexivity || assumption). reflexivity.
  - change (" through " ++ b) with (" " ++ ("through " ++ b)).
    rewrite nonempty_span_app by reflexivity.
    change (strip_prefix "to" ("through " ++ b)) with (@None string).
    change (strip_prefix "through" ("through " ++ b)) with (Some (" " ++ b)).
    cbv beta iota. rewrite nonempty_span_app by (reflexivity || assumption). reflexivity.
  - change ("-" ++ b) with (String "-" b).
    unfold nonempty_span. cbn [span]. 
    change (is_space "-") with false. cbn [is_empty snd].
    change (Ascii.eqb "-" "-") with true. rewrite Hs. reflexivity.
  - change (" - " ++ b) with (" " ++ ("- " ++ b)).
    unfold nonempty_span at 1. rewrite span_app by reflexivity.
    cbn [is_empty]. 
    change (strip_prefix "to" ("- " ++ b)) with (@None string).
    change (strip_prefix "through" ("- " ++ b)) with (@None string).
    cbn [snd append]. change (Ascii.eqb "-" "-") with true.
    change (String " " b) with (" " ++ b).
    rewrite span_app by (reflexivity || assumption). reflexivity.
Qed.

Lemma separatorLength_connector (conn b : string) :
  In conn connectors -> all_chars plain_char b = true ->
  separatorLength (conn ++ b) = Some (String.length conn).
Proof.
  intros Hc Hb. unfold separatorLength.
  rewrite separator_connector, length_append by assumption. f_equal. lia.
Qed.

Lemma splitFrom_skip (x cur r : string) :
  splitFrom (String.length x) cur (x ++ r) = splitFrom 0 cur r.
Proof.
  induction x as [|c x IH]; cbn [String.length append]; [reflexivity|].
  cbn [splitFrom]. exact IH.
Qed.

Lemma splitFrom_plain (a cur r : string) :
  all_chars plain_char a = true ->
  splitFrom 0 cur (a ++ r) = splitFrom 0 (cur ++ a) r.
Proof.
  revert cur. induction a as [|c a IH]; intros cur Ha.
  - now rewrite append_empty_r.
  - cbn [all_chars] in Ha. split_andb. cbn [append splitFrom].
    rewrite separator_plain by assumption. rewrite IH by assumption.
    now rewrite append_assoc.
Qed.

Lemma splitDates_connector (a conn b : string) :
  all_chars plain_char a = true -> In conn connectors ->
  all_chars plain_char b = true ->
  splitDates (a ++ conn ++ b) = [a; b].
Proof.
  intros Ha Hc Hb. unfold splitDates. rewrite splitFrom_plain by assumption.
  cbn [append].
  pose proof (separatorLength_connector conn b Hc Hb) as Hl.
  destruct conn as [|c conn]; [cbn in Hc; intuition discriminate|].
  cbn [append splitFrom]. cbn [append] in Hl. rewrite Hl. cbn [String.length].
  rewrite splitFrom_skip.
  replace b with (b ++ "") at 1 by apply append_empty_r.
  rewrite splitFrom_plain by assumption. reflexivity.
Qed.

Lemma includes_here (s needle : string) :
  startsWith s needle = true -> includes s needle = true.
Proof. intros H. destruct s; cbn [includes]; now rewrite H. Qed.

Lemma includes_later (c : ascii) (s needle : string) :
  includes s needle = true -> includes (String c s) needle = true.
Proof. intros H. cbn [includes]. rewrite H. apply orb_true_r. Qed.

Lemma includes_app (a s needle : string) :
  includes s needle = true -> includes (a ++ s) needle = true.
Proof.
  intros H. induction a as [|c a IH]; cbn [append]; [assumption|].
  now apply includes_later.
Qed.

Lemma hasConnector_connector (a conn b : string) :
  In conn connectors -> hasConnector (a ++ conn ++ b) = true.
Proof.
  intros Hc. unfold hasConnector.
  cbn in Hc. destruct Hc as [<- | [<- | [<- | [<- | []]]]].
  - rewrite (includes_app a _ " to "); [reflexivity|].
    apply includes_here. reflexivity.
  - rewrite (includes_app a _ " through "), orb_true_r; [reflexivity|].
    apply includes_here. reflexivity.
  - rewrite (includes_app a _ "-"), !orb_true_r; [reflexivity|].
    apply includes_here. reflexivity.
  - rewrite (includes_app a _ "-"), !orb_true_r; [reflexivity|].
    apply includes_later, includes_here. reflexivity.
Qed.

Lemma plain_trim (a : string) : all_chars plain_char a = true -> trim a = a.
Proof.
  intros H. apply trim_id. revert H. apply all_chars_impl.
  intros c Hc. unfold plain_char in Hc. now split_andb.
Qed.

Section RangeSplitting.
Variable E : Engine.

(** C2, as the code has it.  An expression without a connector is
    normalised whole; one with a connector is split at every connector,
    and only when exactly two parts result is each part trimmed and
    normalised, the whole expression being kept as written otherwise.  Two
    parts free of white space and dashes around one connector are the two
    parts of the split. *)
Theorem range_resolution :
  (forall dates : string,
      hasConnector dates = false ->
      resolveDates E dates = (parseFlexibleDate E dates, None))
  /\ (forall dates p0 p1 : string,
      hasConnector dates = true ->
      splitDates dates = [p0; p1] ->
      resolveDates E dates =
        (parseFlexibleDate E (trim p0), Some (parseFlexibleDate E (trim p1))))
  /\ (forall dates : string,
      hasConnector dates = true ->
      List.length (splitDates dates) <> 2 ->
      resolveDates E dates = (dates, None))
  /\ (forall a conn b : string,
      all_chars plain_char a = true ->
      In conn connectors ->
      all_chars plain_char b = true ->
      resolveDates E (a ++ conn ++ b) =
        (parseFlexibleDate E a, Some (parseFlexibleDate E b)))
  /\ resolveDates E "sep25 to oct2" =
       (string_of_Z (currentYear E) ++ "-09-25",
        Some (string_of_Z (currentYear E) ++ "-10-02")).
Proof.
  split; [|split; [|split; [|split]]].
  - intros dates H. unfold resolveDates. now rewrite H.
  - intros dates p0 p1 H Hs. unfold resolveDates. now rewrite H, Hs.
  - intros dates H Hl. unfold resolveDates. rewrite H.
    destruct (splitDates dates) as [|p0 [|p1 [|p2 l]]]; try reflexivity.
    now contradiction Hl.
  - intros a conn b Ha Hc Hb. unfold resolveDates.
    rewrite hasConnector_connector, splitDates_connector by assumption.
    now rewrite !plain_trim by assumption.
  - reflexivity.
Qed.

End RangeSplitting.

Lemma range_resolution_witness :
  resolveDates engine2025 "2025" = ("2025", None)
  /\ resolveDates engine2025 "sep25 through oct2" = ("2025-09-25", Some "2025-10-02")
  /\ resolveDates engine2025 "2025-09-25" = ("2025-09-25", None).
Proof.
  destruct (range_resolution engine2025) as (H1 & H2 & H3 & H4 & _).
  split; [|split].
  - apply (H1 "2025"). reflexivity.
  - apply (H4 "sep25" " through " "oct2"); [reflexivity|cbn; tauto|reflexivity].
  - apply (H3 "2025-09-25"); [reflexivity|]. vm_compute. discriminate.
Defined.

(** C2 as stated fails.  Cut at its first connector, a single ISO date
    would give a departure and a return date, and so would an expression
    with two connectors; the code splits at every connector and, finding
    three parts, keeps the expression whole with no return date. *)
Lemma range_not_first_connector :
  hasConnector "2025-09-25" = true
  /\ cutAtFirst "" "2025-09-25" = Some ("2025", "09-25")
  /\ resolveDates engine2025 "2025-09-25" = ("2025-09-25", None)
  /\ resolveDates engine2025 "2025-09-25" <> spec_resolveDates engine2025 "2025-09-25"
  /\ cutAtFirst "" "sep25 to oct2 to nov3" = Some ("sep25", "oct2 to nov3")
  /\ resolveDates engine2025 "sep25 to oct2 to nov3" = ("sep25 to oct2 to nov3", None)
  /\ resolveDates engine2025 "sep25 to oct2 to nov3"
       <> spec_resolveDates engine2025 "sep25 to oct2 to nov3".
Proof.
  repeat split; try reflexivity; vm_compute; discriminate.
Qed.
(** ** Rounding to doubles *)

Lemma pow2_pos (e : Z) : (0 < Double.pow2 e)%Q.
Proof. apply Qpower_0_lt. reflexivity. Qed.

Lemma pow2_plus (a b : Z) :
  (Double.pow2 (a + b) == Double.pow2 a * Double.pow2 b)%Q.
Proof. apply Qpower_plus. discriminate. Qed.

Lemma pow2_Z (k : Z) : (0 <= k)%Z -> (Double.pow2 k == inject_Z (2 ^ k))%Q.
Proof. intros H. unfold Double.pow2. now rewrite (Zpower_Qpower 2 k H). Qed.

Lemma pow2_le (a b : Z) : (a <= b)%Z -> (Double.pow2 a <= Double.pow2 b)%Q.
Proof. intros H. apply Qpower_le_compat_l; [exact H|discriminate]. Qed.

Lemma floorLog2_le (q : Q) : (0 < q)%Q -> (Double.pow2 (Double.floorLog2 q) <= q)%Q.
Proof.
  intros Hq. unfold Double.floorLog2.
  destruct (Qle_bool (Double.pow2 _) q) eqn:Hb; [now apply Qle_bool_iff|].
  clear Hb. destruct q as [n d]. cbn [Qnum Qden].
  assert (Hn : (0 < n)%Z) by (unfold Qlt in Hq; cbn in Hq; lia).
  pose proof (Z.log2_spec n Hn) as [Hn1 _].
  pose proof (Z.log2_spec (Z.pos d) (Pos2Z.is_pos d)) as [_ Hd2].
  pose proof (Z.log2_nonneg n) as Ha.
  pose proof (Z.log2_nonneg (Z.pos d)) as Hb.
  set (a := Z.log2 n) in *. set (b := Z.log2 (Z.pos d)) in *.
  replace (a - b - 1)%Z with (a + - Z.succ b)%Z by lia.
  rewrite pow2_plus. unfold Double.pow2 at 2. rewrite Qpower_opp.
  fold (Double.pow2 (Z.succ b)).
  rewrite !pow2_Z by lia.
  rewrite (Qmake_Qdiv n d).
  apply Qle_shift_div_l; [change 0%Q with (inject_Z 0); rewrite <- Zlt_Qlt; lia|].
  unfold Qdiv. rewrite <- Qmult_assoc, (Qmult_comm (/ _)), Qmult_assoc.
  apply Qle_shift_div_r; [change 0%Q with (inject_Z 0); rewrite <- Zlt_Qlt; lia|].
  rewrite <- !inject_Z_mult, <- Zle_Qle.
  assert (0 < 2 ^ a)%Z by (apply Z.pow_pos_nonneg; lia).
  nia.
Qed.

Lemma roundHalfEven_cases (x : Q) :
  Double.roundHalfEven x = Qfloor x \/ Double.roundHalfEven x = (Qfloor x + 1)%Z.
Proof.
  unfold Double.roundHalfEven.
  destruct (_ ?= _)%Q; [destruct (Z.even _)| |]; auto.
Qed.

Lemma roundHalfEven_ge (x : Q) : (1 <= x)%Q -> (1 <= Double.roundHalfEven x)%Z.
Proof.
  intros H. apply Qfloor_resp_le in H. change (Qfloor 1) with 1%Z in H.
  destruct (roundHalfEven_cases x) as [-> | ->]; lia.
Qed.

Lemma roundHalfEven_le (x : Q) : (x <= -1)%Q -> (Double.roundHalfEven x <= -1)%Z.
Proof.
  intros H. pose proof (Qfloor_resp_le _ _ H) as Hf.
  change (Qfloor (-1)) with (-1)%Z in Hf.
  destruct (Z.eq_dec (Qfloor x) (-1)) as [E|E].
  - unfold Double.roundHalfEven. rewrite E.
    assert (Hx : (x == -1)%Q).
    { apply Qle_antisym; [exact H|]. pose proof (Qfloor_le x) as Hl.
      rewrite E in Hl. exact Hl. }
    assert (Hc : ((x - inject_Z (-1)) ?= 1 # 2)%Q = Lt).
    { apply Qlt_alt. rewrite Hx. reflexivity. }
    rewrite Hc. lia.
  - destruct (roundHalfEven_cases x) as [-> | ->]; lia.
Qed.

(** The exponent of the last place of a double near [q]. *)
Lemma ulp_le (q : Q) :
  Double.onGrid q -> (0 < q)%Q ->
  (Double.pow2 (Z.max (Double.floorLog2 q - 52) (-1074)) <= q)%Q.
Proof.
  intros [n Hn] Hq.
  destruct (Z.max_spec (Double.floorLog2 q - 52) (-1074)) as [[_ ->]|[_ ->]].
  - assert (0 < n)%Z.
    { rewrite Hn in Hq. destruct (Z.lt_trichotomy 0 n) as [|[<-|Hneg]]; [assumption| |].
      - rewrite Qmult_0_l in Hq. now apply Qlt_irrefl in Hq.
      - exfalso. apply (Qlt_irrefl 0). eapply Qlt_trans; [exact Hq|].
        setoid_replace 0%Q with (0 * Double.pow2 (-1074))%Q by ring.
        apply Qmult_lt_compat_r; [apply pow2_pos|].
        change 0%Q with (inject_Z 0). now rewrite <- Zlt_Qlt. }
    rewrite Hn.
    setoid_replace (Double.pow2 (-1074)) with (1 * Double.pow2 (-1074))%Q at 1 by ring.
    apply Qmult_le_compat_r; [|apply Qlt_le_weak, pow2_pos].
    change 1%Q with (inject_Z 1). rewrite <- Zle_Qle. lia.
  - apply Qle_trans with (Double.pow2 (Double.floorLog2 q));
      [apply pow2_le; lia|now apply floorLog2_le].
Qed.

Lemma onGrid_opp (q : Q) : Double.onGrid q -> Double.onGrid (- q).
Proof.
  intros [n Hn]. exists (- n)%Z. rewrite Hn, inject_Z_opp. ring.
Qed.

Lemma onGrid_minus (x y : Q) :
  Double.onGrid x -> Double.onGrid y -> Double.onGrid (x - y).
Proof.
  intros [n Hn] [m Hm]. exists (n - m)%Z. rewrite Hn, Hm.
  unfold Z.sub. rewrite inject_Z_plus, inject_Z_opp. ring.
Qed.

Lemma onGrid_eq (x y : Q) : (x == y)%Q -> Double.onGrid x -> Double.onGrid y.
Proof. intros E [n Hn]. exists n. now rewrite <- E. Qed.

Lemma round_zero (q : Q) : (q == 0)%Q -> Double.round q = 0%Q.
Proof.
  intros H. unfold Double.round. apply Qeq_bool_iff in H. now rewrite H.
Qed.

Lemma clamp_sign (r : Q) :
  let c := if Qle_bool Double.infinity (Qabs r)
           then (if Qle_bool 0 r then Double.infinity else - Double.infinity)%Q
           else Qred r in
  ((0 < r)%Q -> (0 < c)%Q) /\ ((r < 0)%Q -> (c < 0)%Q).
Proof.
  cbv zeta. pose proof (pow2_pos 1024) as Hi. fold Double.infinity in Hi.
  destruct (Qle_bool Double.infinity (Qabs r)).
  - destruct (Qle_bool 0 r) eqn:Hs.
    + apply Qle_bool_iff in Hs. split; [intros _; exact Hi|].
      intros H. exfalso. apply (Qlt_irrefl r). now apply Qlt_le_trans with 0%Q.
    + split.
      * intros H. apply Qlt_le_weak, Qle_bool_iff in H. congruence.
      * intros _. apply Qopp_lt_compat in Hi. exact Hi.
  - rewrite Qred_correct. tauto.
Qed.

Lemma Qabs_of_pos (q : Q) : (0 < q)%Q -> Qabs q = q.
Proof.
  destruct q as [n d]. unfold Qlt, Qabs. cbn. intros H.
  now rewrite Z.abs_eq by lia.
Qed.

Lemma Qabs_of_neg (q : Q) : (q < 0)%Q -> Qabs q = (- q)%Q.
Proof.
  destruct q as [n d]. unfold Qlt, Qabs, Qopp. cbn. intros H.
  now rewrite Z.abs_neq by lia.
Qed.

Lemma round_pos (q : Q) : Double.onGrid q -> (0 < q)%Q -> (0 < Double.round q)%Q.
Proof.
  intros Hg Hq. unfold Double.round.
  destruct (Qeq_bool q 0) eqn:H0.
  { apply Qeq_bool_iff in H0. rewrite H0 in Hq. now apply Qlt_irrefl in Hq. }
  rewrite (Qabs_of_pos q Hq).
  assert (He := ulp_le q Hg Hq).
  set (e := Z.max (Double.floorLog2 q - 52) (-1074)) in *.
  apply clamp_sign.
  assert (1 <= Double.roundHalfEven (q / Double.pow2 e))%Z.
  { apply roundHalfEven_ge. apply Qle_shift_div_l; [apply pow2_pos|].
    now rewrite Qmult_1_l. }
  setoid_replace 0%Q with (0 * Double.pow2 e)%Q by ring.
  apply Qmult_lt_compat_r; [apply pow2_pos|].
  change 0%Q with (inject_Z 0). rewrite <- Zlt_Qlt. lia.
Qed.

Lemma round_neg (q : Q) : Double.onGrid q -> (q < 0)%Q -> (Double.round q < 0)%Q.
Proof.
  intros Hg Hq. unfold Double.round.
  destruct (Qeq_bool q 0) eqn:H0.
  { apply Qeq_bool_iff in H0. rewrite H0 in Hq. now apply Qlt_irrefl in Hq. }
  rewrite (Qabs_of_neg q Hq).
  assert (Hp : (0 < - q)%Q).
  { apply Qopp_lt_compat in Hq. exact Hq. }
  assert (He := ulp_le (- q) (onGrid_opp q Hg) Hp).
  set (e := Z.max (Double.floorLog2 (- q) - 52) (-1074)) in *.
  apply clamp_sign.
  assert (Double.roundHalfEven (q / Double.pow2 e) <= -1)%Z.
  { apply roundHalfEven_le. apply Qle_shift_div_r; [apply pow2_pos|].
    apply Qopp_le_compat in He. rewrite Qopp_involutive in He.
    setoid_replace (-1 * Double.pow2 e)%Q with (- Double.pow2 e)%Q by ring.
    exact He. }
  setoid_replace 0%Q with (0 * Double.pow2 e)%Q by ring.
  apply Qmult_lt_compat_r; [apply pow2_pos|].
  change 0%Q with (inject_Z 0). rewrite <- Zlt_Qlt. lia.
Qed.

Lemma pow2_onGrid (e : Z) : (-1074 <= e)%Z -> Double.onGrid (Double.pow2 e).
Proof.
  intros H. exists (2 ^ (e + 1074))%Z.
  rewrite <- pow2_Z by lia. rewrite <- pow2_plus.
  replace (e + 1074 + -1074)%Z with e by lia. reflexivity.
Qed.

Lemma onGrid_mult (n : Z) (q : Q) : Double.onGrid q -> Double.onGrid (inject_Z n * q).
Proof.
  intros [m Hm]. exists (n * m)%Z. rewrite Hm, inject_Z_mult. ring.
Qed.

Lemma round_onGrid (q : Q) : Double.onGrid (Double.round q).
Proof.
  unfold Double.round.
  destruct (Qeq_bool q 0); [exists 0%Z; ring|].
  set (e := Z.max (Double.floorLog2 (Qabs q) - 52) (-1074)).
  set (r := (inject_Z (Double.roundHalfEven (q / Double.pow2 e)) * Double.pow2 e)%Q).
  destruct (Qle_bool Double.infinity (Qabs r)).
  - destruct (Qle_bool 0 r); [|apply onGrid_opp]; apply pow2_onGrid; lia.
  - apply (onGrid_eq r); [now rewrite Qred_correct|].
    apply onGrid_mult, pow2_onGrid. subst e. lia.
Qed.

Lemma finite_onGrid (q : Q) : Double.finite q = true -> Double.onGrid q.
Proof.
  unfold Double.finite. intros H. apply andb_prop in H. destruct H as [H _].
  apply Qeq_bool_iff in H. apply (onGrid_eq _ _ H), round_onGrid.
Qed.

(** The difference of two doubles, rounded, has the sign of the exact
    difference: it is zero for equal doubles only. *)
Lemma sub_sign (x y : Q) :
  Double.onGrid x -> Double.onGrid y ->
  Qle_bool (Double.sub x y) 0 = true <-> (x <= y)%Q.
Proof.
  intros Hx Hy. pose proof (onGrid_minus x y Hx Hy) as Hg.
  rewrite Qle_bool_iff. unfold Double.sub.
  destruct (Q_dec (x - y) 0) as [[Hlt|Hgt]|Heq].
  - pose proof (round_neg _ Hg Hlt) as Hr. split; intros _.
    + apply Qlt_le_weak. apply Qplus_lt_l with (z := (- y)%Q).
      now rewrite Qplus_opp_r.
    + now apply Qlt_le_weak.
  - pose proof (round_pos _ Hg Hgt) as Hr. split; intros H.
    + exfalso. apply (Qlt_irrefl 0). now apply Qlt_le_trans with (Double.round (x - y)).
    + exfalso. apply (Qlt_irrefl 0). apply Qlt_le_trans with (x - y)%Q; [exact Hgt|].
      apply Qplus_le_l with (z := y). ring_simplify. exact H.
  - rewrite (round_zero _ Heq). split; intros _; [|apply Qle_refl].
    apply Qplus_le_l with (z := (- y)%Q). rewrite Qplus_opp_r.
    rewrite Heq. apply Qle_refl.
Qed.

(** Rounding at work: a tie goes to the even significand, 0.1 + 0.2 is
    not the double of 0.3, and what is too small or too large for a double
    becomes zero or an infinity. *)
Example round_examples :
  Double.round (inject_Z (2 ^ 53 + 1)) = inject_Z (2 ^ 53)
  /\ Double.round (inject_Z (2 ^ 53 + 3)) = inject_Z (2 ^ 53 + 4)
  /\ Double.add (Double.round (1 # 10)) (Double.round (2 # 10))
     = Double.round (30000000000000004 # 100000000000000000)
  /\ Double.add (Double.round (1 # 10)) (Double.round (2 # 10))
     <> Double.round (3 # 10)
  /\ Double.round (1 / inject_Z (10 ^ 400)) = 0%Q
  /\ Double.round (inject_Z (10 ^ 400)) = Double.infinity
  /\ Double.finite (10029 # 100) = false
  /\ Double.finite (Double.round (10029 # 100)) = true.
Proof.
  repeat split; try (vm_compute; reflexivity). vm_compute. discriminate.
Qed.

Import Ranking.

(** ** Duration of an offer *)

Lemma parseIntOr0_value (s : string) : parseIntOr0 s = digits_value 0 s.
Proof.
  unfold parseIntOr0, parseInt. destruct s as [|c s]; [reflexivity|].
  destruct (Z.eqb_spec (digits_value 0 (String c s)) 0) as [->|]; reflexivity.
Qed.

Lemma durationOf_groups (s n m : string) :
  durationSearch s = Some (n, m) ->
  durationOf (Some s) = (60 * digits_value 0 n + digits_value 0 m)%Z.
Proof.
  intros H. unfold durationOf, durationGroups. rewrite H.
  cbn [map reduceFrom Nat.eqb]. rewrite !parseIntOr0_value. lia.
Qed.

Lemma digits_head (m r : string) (c : ascii) :
  all_chars is_digit m = true -> is_space c = false ->
  match m ++ String c r with
  | EmptyString => True
  | String x _ => is_space x = false
  end.
Proof.
  intros Hm Hc. destruct m as [|x m]; cbn [append]; [assumption|].
  cbn [all_chars] in Hm. split_andb. now apply digit_char_facts in H.
Qed.

Lemma durationHere_ok (n ws m rest : string) :
  all_chars is_digit n = true -> n <> EmptyString ->
  all_chars is_space ws = true ->
  all_chars is_digit m = true ->
  durationHere (n ++ "h" ++ ws ++ m ++ "m" ++ rest) = Some (n, m).
Proof.
  intros Hn Hne Hw Hm. unfold durationHere.
  rewrite span_app by (assumption || reflexivity).
  destruct n as [|c n]; [contradiction|]. cbn [is_empty append].
  rewrite (span_app is_space ws) by (assumption || now apply digits_head).
  cbn [snd]. rewrite (span_app is_digit m) by (assumption || reflexivity).
  reflexivity.
Qed.

Lemma durationSearch_here (s : string) (g : string * string) :
  durationHere s = Some g -> durationSearch s = Some g.
Proof. intros H. destruct s; cbn [durationSearch]; now rewrite H. Qed.

(** C3, as the code has it.  The hours, their [h] and the [m] of the
    minutes are required; only the digits of the minutes may be absent, and
    count for nothing.  The value is 60 times the hours plus the minutes; an
    offer without a duration, or whose duration has no such part, counts for
    0.  The fastest ranking compares these values, the best ranking their
    sum with half the price, as doubles. *)
Theorem duration_minutes :
  (forall n ws m rest : string,
      all_chars is_digit n = true -> n <> EmptyString ->
      all_chars is_space ws = true ->
      all_chars is_digit m = true ->
      durationOf (Some (n ++ "h" ++ ws ++ m ++ "m" ++ rest))
      = (60 * digits_value 0 n + digits_value 0 m)%Z)
  /\ durationOf None = 0%Z
  /\ (forall s : string, durationSearch s = None -> durationOf (Some s) = 0%Z)
  /\ (forall a b : Flight,
      compareFlights "fastest" a b
      = inject_Z (durationMinutes a - durationMinutes b))
  /\ (forall a b : Flight,
      compareFlights "best" a b
      = Double.sub
          (Double.add (Double.div (price a) 2) (inject_Z (durationMinutes a)))
          (Double.add (Double.div (price b) 2) (inject_Z (durationMinutes b)))).
Proof.
  split; [|split; [|split; [|split]]].
  - intros n ws m rest Hn Hne Hw Hm. apply durationOf_groups.
    now apply durationSearch_here, durationHere_ok.
  - reflexivity.
  - intros s H. unfold durationOf, durationGroups. now rewrite H.
  - reflexivity.
  - reflexivity.
Qed.

Lemma duration_minutes_witness :
  durationOf (Some "14h 30m") = 870%Z
  /\ durationOf (Some "8h m") = 480%Z
  /\ durationOf (Some "soon") = 0%Z.
Proof.
  destruct duration_minutes as (H1 & _ & H3 & _).
  split; [|split].
  - apply (H1 "14" " " "30" ""); first [reflexivity | discriminate].
  - apply (H1 "8" " " "" ""); first [reflexivity | discriminate].
  - apply (H3 "soon"). reflexivity.
Defined.

(** C3 as stated fails: without hours, or without the [m] of the minutes,
    the pattern does not match and the offer counts for 0 minutes. *)
Lemma duration_component_absent :
  durationOf (Some "45m") = 0%Z
  /\ spec_durationMinutes "45m" = 45%Z
  /\ durationOf (Some "2h") = 0%Z
  /\ spec_durationMinutes "2h" = 120%Z
  /\ durationOf (Some "45m") <> spec_durationMinutes "45m".
Proof. repeat split; try reflexivity. vm_compute. discriminate. Qed.

(** ** Stable sorting with a comparator *)

Section SortBy.
Context {A : Type}.
Variable key : A -> Q.
Variable cmp : A -> A -> Q.
Variable ok : A -> Prop.
Hypothesis cmp_le :
  forall a b, ok a -> ok b -> (Qle_bool (cmp a b) 0 = true <-> (key a <= key b)%Q).

Lemma cmp_gt (x y : A) :
  ok x -> ok y -> Qle_bool (cmp x y) 0 = false -> (key y < key x)%Q.
Proof.
  intros Hx Hy H. apply Qnot_le_lt. intros Hle. apply (cmp_le x y Hx Hy) in Hle.
  congruence.
Qed.

Lemma insertBy_perm (x : A) (l : list A) : Permutation (x :: l) (insertBy cmp x l).
Proof.
  induction l as [|y t IH]; cbn [insertBy]; [reflexivity|].
  destruct (Qle_bool (cmp x y) 0); [reflexivity|].
  rewrite perm_swap. now constructor.
Qed.

Lemma sortBy_perm (l : list A) : Permutation l (sortBy cmp l).
Proof.
  induction l as [|x l IH]; cbn; [constructor|].
  rewrite <- insertBy_perm. now constructor.
Qed.

Lemma insertBy_Forall (P : A -> Prop) (x : A) (l : list A) :
  P x -> Forall P l -> Forall P (insertBy cmp x l).
Proof.
  intros Hx Hl. induction Hl as [|y t Hy Ht IH]; cbn [insertBy].
  - now repeat constructor.
  - destruct (Qle_bool (cmp x y) 0); repeat constructor; assumption.
Qed.

Lemma sortBy_Forall (P : A -> Prop) (l : list A) :
  Forall P l -> Forall P (sortBy cmp l).
Proof.
  induction 1 as [|x l Hx Hl IH]; cbn; [constructor|].
  now apply insertBy_Forall.
Qed.

Lemma insertBy_sorted (x : A) (l : list A) :
  ok x -> Forall ok l ->
  StronglySorted (fun a b => (key a <= key b)%Q) l ->
  StronglySorted (fun a b => (key a <= key b)%Q) (insertBy cmp x l).
Proof.
  intros Hx Hok Hl. induction Hl as [|y t Ht IH Hy]; cbn [insertBy].
  - repeat constructor.
  - pose proof (Forall_inv Hok) as Hoky. apply Forall_inv_tail in Hok.
    destruct (Qle_bool (cmp x y) 0) eqn:Hc.
    + apply (cmp_le x y Hx Hoky) in Hc. constructor; [now constructor|].
      constructor; [assumption|].
      revert Hy. apply Forall_impl. intros z Hz. now apply Qle_trans with (key y).
    + apply (cmp_gt x y Hx Hoky) in Hc. constructor; [now apply IH|].
      apply insertBy_Forall; [now apply Qlt_le_weak|assumption].
Qed.

Lemma sortBy_sorted (l : list A) :
  Forall ok l -> StronglySorted (fun a b => (key a <= key b)%Q) (sortBy cmp l).
Proof.
  induction 1 as [|x l Hx Hl IH]; cbn; [constructor|].
  apply insertBy_sorted; [assumption|now apply sortBy_Forall|assumption].
Qed.

Lemma insertBy_filter (k : Q) (x : A) (l : list A) :
  ok x -> Forall ok l ->
  filter (fun a => Qeq_bool (key a) k) (insertBy cmp x l)
  = filter (fun a => Qeq_bool (key a) k) (x :: l).
Proof.
  intros Hx Hok. induction Hok as [|y t Hoky Hok IH]; cbn [insertBy]; [reflexivity|].
  destruct (Qle_bool (cmp x y) 0) eqn:Hc; [reflexivity|].
  apply (cmp_gt x y Hx Hoky) in Hc. cbn [filter] in *. rewrite IH.
  destruct (Qeq_bool (key x) k) eqn:Ex; [|reflexivity].
  destruct (Qeq_bool (key y) k) eqn:Ey; [|reflexivity].
  apply Qeq_bool_iff in Ex, Ey. rewrite Ex, Ey in Hc.
  now apply Qlt_irrefl in Hc.
Qed.

Lemma sortBy_filter (k : Q) (l : list A) :
  Forall ok l ->
  filter (fun a => Qeq_bool (key a) k) (sortBy cmp l)
  = filter (fun a => Qeq_bool (key a) k) l.
Proof.
  induction 1 as [|x l Hx Hl IH]; [reflexivity|].
  cbn [sortBy fold_right].
  rewrite insertBy_filter by (assumption || now apply sortBy_Forall).
  cbn [filter]. unfold sortBy in IH. now rewrite IH.
Qed.

Lemma sortBy_stably_sorted (l : list A) :
  Forall ok l -> stably_sorted_by key l (sortBy cmp l).
Proof.
  intros Hok.
  split; [apply sortBy_perm|split; [now apply sortBy_sorted|]].
  intros k. now apply sortBy_filter.
Qed.

Lemma sortBy_head (l : list A) (f : A) :
  Forall ok l ->
  hd_error (sortBy cmp l) = Some f ->
  In f l
  /\ (forall g, In g l -> (key f <= key g)%Q)
  /\ hd_error (filter (fun g => Qeq_bool (key g) (key f)) l) = Some f.
Proof.
  intros Hok H. destruct (sortBy_stably_sorted l Hok) as (Hp & Hs & Hf).
  destruct (sortBy cmp l) as [|x t]; [discriminate|]. injection H as ->.
  split; [|split].
  - apply (Permutation_in f (Permutation_sym Hp)). now left.
  - intros g Hg. apply (Permutation_in g Hp) in Hg. destruct Hg as [<-|Hg].
    + apply Qle_refl.
    + apply StronglySorted_inv in Hs. destruct Hs as [_ Hs].
      rewrite Forall_forall in Hs. now apply Hs.
  - rewrite <- (Hf (key f)). cbn [filter].
    assert (Hr : Qeq_bool (key f) (key f) = true) by (apply Qeq_bool_iff; reflexivity).
    now rewrite Hr.
Qed.

Lemma sortBy_nonempty (l : list A) :
  l <> [] -> exists f, hd_error (sortBy cmp l) = Some f.
Proof.
  intros Hl. pose proof (sortBy_perm l) as Hp.
  destruct (sortBy cmp l) as [|x t]; [|now exists x].
  apply Permutation_sym, Permutation_nil in Hp. contradiction.
Qed.

Lemma sortBy_sorted_id (l : list A) :
  Forall ok l ->
  StronglySorted (fun a b => (key a <= key b)%Q) l -> sortBy cmp l = l.
Proof.
  intros Hok. induction 1 as [|x l Hl IH Hx]; [reflexivity|].
  pose proof (Forall_inv Hok) as Hokx. apply Forall_inv_tail in Hok.
  cbn [sortBy fold_right]. unfold sortBy in IH. rewrite (IH Hok).
  destruct l as [|y t]; [reflexivity|]. cbn [insertBy].
  apply Forall_inv in Hx. apply Forall_inv in Hok.
  apply (cmp_le x y Hokx Hok) in Hx. now rewrite Hx.
Qed.

End SortBy.

(** ** Ranking *)

(** An offer whose price is a finite double. *)
Lemma finite_prices_onGrid (flights : list Flight) :
  Forall (fun f => Double.finite (price f) = true) flights ->
  Forall (fun f => Double.onGrid (price f)) flights.
Proof. apply Forall_impl. intros f. apply finite_onGrid. Qed.

Lemma cheapest_le (a b : Flight) :
  Double.onGrid (price a) -> Double.onGrid (price b) ->
  Qle_bool (Double.sub (price a) (price b)) 0 = true <-> (price a <= price b)%Q.
Proof. apply sub_sign. Qed.

Lemma fastest_le (a b : Flight) :
  Qle_bool (inject_Z (durationMinutes a - durationMinutes b)) 0 = true
  <-> (inject_Z (durationMinutes a) <= inject_Z (durationMinutes b))%Q.
Proof.
  rewrite Qle_bool_iff. change 0%Q with (inject_Z 0). rewrite <- !Zle_Qle. lia.
Qed.

Lemma best_le (a b : Flight) :
  Qle_bool (compareFlights "best" a b) 0 = true
  <-> (rankKey "best" a <= rankKey "best" b)%Q.
Proof. apply sub_sign; apply round_onGrid. Qed.

Lemma compareFlights_le (activeTab : string) (a b : Flight) :
  Double.onGrid (price a) -> Double.onGrid (price b) ->
  Qle_bool (compareFlights activeTab a b) 0 = true
  <-> (rankKey activeTab a <= rankKey activeTab b)%Q.
Proof.
  intros Ha Hb. unfold compareFlights, rankKey.
  destruct (String.eqb activeTab "cheapest"); [now apply sub_sign|].
  destruct (String.eqb activeTab "fastest"); [apply fastest_le|].
  apply sub_sign; apply round_onGrid.
Qed.

(** C5, as the code has it.  On offers whose prices are finite numbers,
    each ranking is a stable ascending sort: by price, by duration in
    minutes, and by the key of the best ranking, which is half the price
    plus the duration as the code computes it, in doubles: the half and
    the sum are each rounded to the nearest double, so that two offers
    whose exact sums differ by less than the rounding are ties. *)
Theorem ranking_stable_sort (flights : list Flight) :
  Forall (fun f => Double.finite (price f) = true) flights ->
  stably_sorted_by price flights (sortedFlights "cheapest" flights)
  /\ stably_sorted_by (fun f => inject_Z (durationMinutes f)) flights
       (sortedFlights "fastest" flights)
  /\ stably_sorted_by
       (fun f => Double.add (Double.div (price f) 2) (inject_Z (durationMinutes f)))
       flights (sortedFlights "best" flights)
  /\ (let a := offer "A" 600 "10h 00m" in
      let b := offer "B" 600 "8h 00m" in
      sortedFlights "fastest" [a; b] = [b; a]
      /\ sortedFlights "cheapest" [a; b] = [a; b]
      /\ sortedFlights "cheapest" [b; a] = [b; a])
  /\ (let a := offer "A" 800 "5h 00m" in
      let b := offer "B" 400 "20h 00m" in
      (rankKey "best" a == 700)%Q /\ (rankKey "best" b == 1400)%Q
      /\ sortedFlights "best" [b; a] = [a; b]
      /\ sortedFlights "best" [a; b] = [a; b]).
Proof.
  intros Hfin. apply finite_prices_onGrid in Hfin.
  split; [|split; [|split; [|split]]].
  - apply (sortBy_stably_sorted price _ (fun f => Double.onGrid (price f)));
      [|exact Hfin].
    intros a b. apply cheapest_le.
  - apply (sortBy_stably_sorted _ _ (fun _ => True));
      [|now apply Forall_forall].
    intros a b _ _. apply fastest_le.
  - apply (sortBy_stably_sorted _ _ (fun _ => True));
      [|now apply Forall_forall].
    intros a b _ _. apply best_le.
  - vm_compute. repeat split; reflexivity.
  - vm_compute. repeat split; reflexivity.
Qed.

Lemma ranking_stable_sort_witness :
  stably_sorted_by price
    [offer "A" 600 "10h 00m"; offer "B" 600 "8h 00m"]
    (sortedFlights "cheapest" [offer "A" 600 "10h 00m"; offer "B" 600 "8h 00m"])
  /\ stably_sorted_by
       (fun f => Double.add (Double.div (price f) 2) (inject_Z (durationMinutes f)))
       [offer "A" 600 "10h 00m"; offer "B" 600 "8h 00m"]
       (sortedFlights "best" [offer "A" 600 "10h 00m"; offer "B" 600 "8h 00m"]).
Proof.
  destruct (ranking_stable_sort [offer "A" 600 "10h 00m"; offer "B" 600 "8h 00m"])
    as (H1 & _ & H3 & _).
  - repeat (constructor; [vm_compute; reflexivity|]); constructor.
  - split; [exact H1|exact H3].
Defined.

(** C5 as stated fails for the best ranking.  The prices of [A] and [B]
    are the doubles nearest to 100.01 and 130.01; half the price plus the
    duration is strictly smaller for [B], yet both sums round to the same
    double, the comparator returns 0 and [A] stays before [B].  And two
    offers priced 100.29 and 130.29, whose sums as written are both
    140.145, are not a tie for the code: [B] goes first. *)
Lemma best_ranking_rounds :
  let a := offer "A" (Double.round (10001 # 100)) "1h 30m" in
  let b := offer "B" (Double.round (13001 # 100)) "1h 15m" in
  Double.finite (price a) = true /\ Double.finite (price b) = true
  /\ (price b / 2 + inject_Z (durationMinutes b)
      < price a / 2 + inject_Z (durationMinutes a))%Q
  /\ (compareFlights "best" a b == 0)%Q
  /\ sortedFlights "best" [a; b] = [a; b]
  /\ ~ StronglySorted
         (fun x y => (price x / 2 + inject_Z (durationMinutes x)
                      <= price y / 2 + inject_Z (durationMinutes y))%Q)
         (sortedFlights "best" [a; b])
  /\ ((10029 # 100) / 2 + 90 == (13029 # 100) / 2 + 75)%Q
  /\ sortedFlights "best"
       [offer "A" (Double.round (10029 # 100)) "1h 30m";
        offer "B" (Double.round (13029 # 100)) "1h 15m"]
     = [offer "B" (Double.round (13029 # 100)) "1h 15m";
        offer "A" (Double.round (10029 # 100)) "1h 30m"].
Proof.
  cbv zeta.
  split; [vm_compute; reflexivity|]. split; [vm_compute; reflexivity|].
  split; [vm_compute; reflexivity|]. split; [vm_compute; reflexivity|].
  split; [vm_compute; reflexivity|]. split.
  - assert (E : sortedFlights "best"
                  [offer "A" (Double.round (10001 # 100)) "1h 30m";
                   offer "B" (Double.round (13001 # 100)) "1h 15m"]
                = [offer "A" (Double.round (10001 # 100)) "1h 30m";
                   offer "B" (Double.round (13001 # 100)) "1h 15m"])
      by (vm_compute; reflexivity).
    rewrite E. intros H. apply StronglySorted_inv in H. destruct H as [_ H].
    apply Forall_inv in H. vm_compute in H. now apply H.
  - split; [vm_compute; reflexivity|vm_compute; reflexivity].
Qed.
Import Assistant.

(** ** The retry loop *)

Lemma fallback_class (lastError : option Error) :
  fallback lastError = fallbackOf (replyOfClass (classify lastError)).
Proof.
  unfold fallback, classify.
  destruct (errStatusIs lastError 503 || errMessageIncludes lastError "overloaded");
    [reflexivity|].
  destruct (errStatusIs lastError 429 || errMessageIncludes lastError "quota");
    [reflexivity|].
  destruct (errStatusIs lastError 401 || errStatusIs lastError 403); reflexivity.
Qed.

Lemma replies_claim_nothing (c : FailureClass) :
  claimsFlightFound (replyOfClass c) = false.
Proof. destruct c; vm_compute; reflexivity. Qed.

Lemma quota_class (e : Error) :
  statusIs e 429 = true -> classify (Some e) = Overloaded \/ classify (Some e) = QuotaExceeded.
Proof.
  intros H. unfold classify. cbn [errStatusIs errMessageIncludes]. rewrite H.
  destruct (statusIs e 503 || messageIncludes e "overloaded"); [now left|now right].
Qed.

Lemma flow_returned_first (prompt : nat -> Attempt) (o : FlightBookingOutput) :
  prompt 1 = Returned o ->
  flightBookingAssistantFlow prompt
  = {| result := o; fromFallback := false; events := [Called 1] |}.
Proof.
  intros H. unfold flightBookingAssistantFlow, maxRetries. cbn [retryLoop].
  now rewrite H.
Qed.

Lemma flow_fail_fast (prompt : nat -> Attempt) (e : Error) :
  prompt 1 = Thrown e -> noRetry e = true ->
  flightBookingAssistantFlow prompt
  = {| result := fallback (Some e); fromFallback := true; events := [Called 1] |}.
Proof.
  intros H Hn. unfold flightBookingAssistantFlow, maxRetries. cbn [retryLoop].
  now rewrite H, Hn.
Qed.

Lemma flow_returned_second (prompt : nat -> Attempt) (e : Error) (o : FlightBookingOutput) :
  prompt 1 = Thrown e -> noRetry e = false -> prompt 2 = Returned o ->
  flightBookingAssistantFlow prompt
  = {| result := o; fromFallback := false;
       events := Called 1 :: waitAfterFirst e ++ [Called 2] |}.
Proof.
  intros H Hn H2. unfold flightBookingAssistantFlow, maxRetries. cbn [retryLoop].
  rewrite H, Hn, H2. reflexivity.
Qed.

Lemma flow_failed_twice (prompt : nat -> Attempt) (e1 e2 : Error) :
  prompt 1 = Thrown e1 -> noRetry e1 = false -> prompt 2 = Thrown e2 ->
  flightBookingAssistantFlow prompt
  = {| result := fallback (Some e2); fromFallback := true;
       events := Called 1 :: waitAfterFirst e1 ++ [Called 2] |}.
Proof.
  intros H Hn H2. unfold flightBookingAssistantFlow, maxRetries. cbn [retryLoop].
  rewrite H, Hn, H2.
  destruct (noRetry e2); [reflexivity|].
  cbn [Nat.ltb Nat.leb andb app]. now rewrite app_nil_r.
Qed.

Lemma calls_after_wait (e : Error) :
  List.length (filter isCall (Called 1 :: waitAfterFirst e ++ [Called 2])) = 2.
Proof. unfold waitAfterFirst. destruct (_ || _); reflexivity. Qed.

(** C6.  The flow calls the completion service at most twice; after a
    failure of status 429, 401 or 403 it does not call again; and when the
    last call made has failed, the result is the fallback of that failure:
    never complete, without flight details, with the reply of the failure's
    class, which does not speak of a flight found. *)
Theorem retry_and_fallback (prompt : nat -> Attempt) :
  let run := flightBookingAssistantFlow prompt in
  attemptsMade run <= 2
  /\ (forall e : Error,
        prompt 1 = Thrown e -> noRetry e = true ->
        events run = [Called 1] /\ result run = fallback (Some e))
  /\ (forall e1 e2 : Error,
        prompt 1 = Thrown e1 -> noRetry e1 = false -> prompt 2 = Thrown e2 ->
        attemptsMade run = 2 /\ result run = fallback (Some e2))
  /\ (forall lastError : option Error,
        isFlightDetailsComplete (fallback lastError) = false
        /\ flightDetails (fallback lastError) = None
        /\ reply (fallback lastError) = replyOfClass (classify lastError)
        /\ claimsFlightFound (reply (fallback lastError)) = false)
  /\ (forall e : Error,
        statusIs e 429 = true ->
        classify (Some e) = Overloaded \/ classify (Some e) = QuotaExceeded)
  /\ (fromFallback run = true ->
      exists (n : nat) (e : Error),
        1 <= n <= 2 /\ prompt n = Thrown e /\ result run = fallback (Some e)).
Proof.
  cbv zeta. split; [|split; [|split; [|split; [|split]]]].
  - unfold attemptsMade. destruct (prompt 1) as [o1|e1] eqn:H1.
    + rewrite (flow_returned_first _ _ H1). cbn. lia.
    + destruct (noRetry e1) eqn:Hn.
      * rewrite (flow_fail_fast _ _ H1 Hn). cbn. lia.
      * destruct (prompt 2) as [o2|e2] eqn:H2.
        -- rewrite (flow_returned_second _ _ _ H1 Hn H2). cbn [events].
           rewrite calls_after_wait. lia.
        -- rewrite (flow_failed_twice _ _ _ H1 Hn H2). cbn [events].
           rewrite calls_after_wait. lia.
  - intros e H1 Hn. rewrite (flow_fail_fast _ _ H1 Hn). split; reflexivity.
  - intros e1 e2 H1 Hn H2. rewrite (flow_failed_twice _ _ _ H1 Hn H2).
    unfold attemptsMade. cbn [events result]. rewrite calls_after_wait.
    split; reflexivity.
  - intros le. rewrite fallback_class.
    cbn [fallbackOf isFlightDetailsComplete flightDetails reply].
    repeat split. apply replies_claim_nothing.
  - apply quota_class.
  - destruct (prompt 1) as [o1|e1] eqn:H1.
    + rewrite (flow_returned_first _ _ H1). discriminate.
    + destruct (noRetry e1) eqn:Hn.
      * rewrite (flow_fail_fast _ _ H1 Hn). intros _.
        exists 1, e1. repeat split; auto.
      * destruct (prompt 2) as [o2|e2] eqn:H2.
        -- rewrite (flow_returned_second _ _ _ H1 Hn H2). discriminate.
        -- rewrite (flow_failed_twice _ _ _ H1 Hn H2). intros _.
           exists 2, e2. repeat split; auto.
Qed.

Lemma retry_and_fallback_witness :
  let run := flightBookingAssistantFlow (serviceOf [Thrown quotaError; Thrown overloadError]) in
  events run = [Called 1]
  /\ isFlightDetailsComplete (result run) = false
  /\ reply (result run) = quotaReply.
Proof.
  cbv zeta.
  destruct (retry_and_fallback (serviceOf [Thrown quotaError; Thrown overloadError]))
    as (_ & H & _).
  destruct (H quotaError eq_refl eq_refl) as [He Hr].
  split; [exact He|]. rewrite Hr. split; reflexivity.
Defined.
Import Json SearchRoute.

(** ** Evaluation of the JSON parser *)

Example parse_nested :
  JSON_parse " [1, -2.5e1, true, null, {} , [[]]] "
  = Some (Arr [Num 1; Num (-25); Bool true; Null; Obj []; Arr [Arr []]]).
Proof. vm_compute. reflexivity. Qed.

Example parse_object :
  JSON_parse ("{" ++ quoted "a\u0041" ++ ": 1, " ++ quoted "b" ++ ": [], "
              ++ quoted "b" ++ ": false}")
  = Some (Obj [("aA", Num 1); ("b", Bool false)]).
Proof. vm_compute. reflexivity. Qed.

Example parse_rejects :
  map JSON_parse [ ""; "01"; "[1,]"; "{,}"; "tru"; "-"; "1 2"; "Traceback" ]
  = [ None; None; None; None; None; None; None; None ].
Proof. vm_compute. reflexivity. Qed.

(** ** The fuel of the JSON parser *)

Lemma span_length (p : ascii -> bool) (s a b : string) :
  span p s = (a, b) -> String.length s = String.length a + String.length b.
Proof.
  revert a b. induction s as [|c s IH]; cbn [span]; intros a b.
  - intros [= <- <-]. reflexivity.
  - destruct (p c).
    + destruct (span p s) as [a' b'] eqn:Hs. intros [= <- <-].
      cbn [String.length]. now rewrite (IH a' b' eq_refl).
    + intros [= <- <-]. reflexivity.
Qed.

Lemma skip_ws_length (s : string) : String.length (skip_ws s) <= String.length s.
Proof.
  induction s as [|c s IH]; cbn [skip_ws]; [lia|].
  destruct (is_ws c); cbn [String.length]; lia.
Qed.

Lemma skip_ws_cons (s r : string) (c : ascii) :
  skip_ws s = String c r -> String.length r < String.length s.
Proof.
  intros H. pose proof (skip_ws_length s) as Hl. rewrite H in Hl.
  cbn [String.length] in Hl. lia.
Qed.

Lemma strip_prefix_length (w s r : string) :
  strip_prefix w s = Some r -> String.length s = String.length w + String.length r.
Proof.
  revert s. induction w as [|a w IH]; intros s; cbn [strip_prefix].
  - intros [= <-]. reflexivity.
  - destruct s as [|b s]; [discriminate|].
    destruct (Ascii.eqb a b); [|discriminate].
    intros H. apply IH in H. cbn [String.length]. lia.
Qed.

Lemma literal_length (w : string) (v v' : value) (s r : string) :
  literal w v s = Some (v', r) -> String.length s = String.length w + String.length r.
Proof.
  unfold literal. destruct (strip_prefix w s) as [r'|] eqn:H; [|discriminate].
  intros [= _ <-]. now apply strip_prefix_length.
Qed.

Lemma parse_chars_length (n : nat) :
  forall s t r, String.length s <= n ->
    parse_chars s = Some (t, r) -> String.length r < String.length s.
Proof.
  induction n as [|n IH]; intros s t r Hl H.
  - destruct s; [discriminate H|cbn in Hl; lia].
  - destruct s as [|c s]; [discriminate H|]. cbn [String.length] in *.
    cbn [parse_chars] in H.
    destruct (Ascii.eqb c DQ); [injection H as _ <-; lia|].
    destruct (Ascii.eqb c "\").
    + destruct s as [|e r1]; [discriminate H|]. cbn [String.length] in *.
      destruct (Ascii.eqb e "u").
      * destruct r1 as [|a [|b [|c' [|d r2]]]]; try discriminate H.
        cbn [String.length] in *.
        destruct (hexval a), (hexval b), (hexval c'), (hexval d); try discriminate H.
        destruct (parse_chars r2) as [[t' r']|] eqn:Hr; [|discriminate H].
        injection H as _ <-. apply IH in Hr; lia.
      * destruct (escape e); [|discriminate H].
        destruct (parse_chars r1) as [[t' r']|] eqn:Hr; [|discriminate H].
        injection H as _ <-. apply IH in Hr; lia.
    + destruct (nat_of_ascii c <? 32)%nat; [discriminate H|].
      destruct (parse_chars s) as [[t' r']|] eqn:Hr; [|discriminate H].
      injection H as _ <-. apply IH in Hr; lia.
Qed.

Lemma parse_number_length (s r : string) (q : Q) :
  parse_number s = Some (q, r) -> String.length r < String.length s.
Proof.
  unfold parse_number.
  set (sg := match s with String "-" r0 => (true, r0) | _ => (false, s) end).
  assert (Hsg : String.length (snd sg) <= String.length s).
  { subst sg. destruct s as [|c s0]; [cbn; lia|].
    destruct (Ascii.eqb_spec c "-") as [->|Hc]; [cbn; lia|].
    assert (Hsame : snd (match String c s0 with String "-" r0 => (true, r0) | _ => (false, String c s0) end) = String c s0).
    { destruct c as [[] [] [] [] [] [] [] []]; try reflexivity. now contradiction Hc. }
    rewrite Hsame. lia. }
  destruct sg as [neg s1]. cbn [snd] in Hsg.
  destruct (span is_digit s1) as [ip s2] eqn:Hip.
  apply span_length in Hip.
  destruct ip as [|i0 ip]; [discriminate|]. cbn [String.length] in Hip.
  match goal with |- (if negb ?b then _ else _) = _ -> _ => destruct b end;
    cbn [negb]; [|discriminate].
  set (frac := match s2 with String "." r0 => _ | _ => _ end).
  assert (Hfrac : forall fp s3, frac = Some (fp, s3) -> String.length s3 <= String.length s2).
  { subst frac. intros fp s3. destruct s2 as [|c s2']; [intros [= _ <-]; lia|].
    destruct (Ascii.eqb_spec c ".") as [->|Hc].
    - destruct (span is_digit s2') as [fp' s3'] eqn:Hfp. apply span_length in Hfp.
      destruct (is_empty fp'); [discriminate|]. intros [= _ <-].
      cbn [String.length]. lia.
    - assert (Hsame : match String c s2' with
                      | String "." r0 => let (fp0, s4) := span is_digit r0 in
                                         if is_empty fp0 then None else Some (fp0, s4)
                      | _ => Some (EmptyString, String c s2') end
                      = Some (EmptyString, String c s2')).
      { destruct c as [[] [] [] [] [] [] [] []]; try reflexivity. now contradiction Hc. }
      rewrite Hsame. intros [= _ <-]. lia. }
  destruct frac as [[fp s3]|]; [|discriminate].
  specialize (Hfrac fp s3 eq_refl).
  set (expo := match s3 with String c r0 => _ | EmptyString => _ end).
  assert (Hexpo : forall e s4, expo = Some (e, s4) -> String.length s4 <= String.length s3).
  { subst expo. intros e s4. destruct s3 as [|c s3']; [intros [= _ <-]; lia|].
    destruct (Ascii.eqb c "e" || Ascii.eqb c "E"); [|intros [= _ <-]; lia].
    set (sg2 := match s3' with String "-" r' => _ | String "+" r' => _ | _ => _ end).
    assert (Hsg2 : String.length (snd sg2) <= String.length s3').
    { subst sg2. destruct s3' as [|c2 s3'']; [cbn; lia|].
      destruct c2 as [[] [] [] [] [] [] [] []]; cbn; lia. }
    destruct sg2 as [eneg r1]. cbn [snd] in Hsg2.
    destruct (span is_digit r1) as [ed s4'] eqn:Hed. apply span_length in Hed.
    destruct (is_empty ed); [discriminate|]. intros [= _ <-].
    cbn [String.length]. lia. }
  destruct expo as [[e s4]|]; [|discriminate].
  specialize (Hexpo e s4 eq_refl).
  intros [= _ <-]. lia.
Qed.

Lemma parse_value_length (fuel : nat) :
  (forall s v r, parse_value fuel s = Some (v, r) ->
      String.length r < String.length s)
  /\ (forall s l r, parse_items fuel s = Some (l, r) ->
      String.length r < String.length s)
  /\ (forall acc s m r, parse_members fuel acc s = Some (m, r) ->
      String.length r < String.length s).
Proof.
  induction fuel as [|fuel (IHv & IHi & IHm)];
    [repeat split; intros; discriminate|].
  split; [|split].
  - intros s v r. cbn [parse_value].
    destruct (skip_ws s) as [|c r0] eqn:Hs; [discriminate|].
    pose proof (skip_ws_length s) as Hl. rewrite Hs in Hl. cbn [String.length] in Hl.
    destruct (Ascii.eqb c "[").
    { destruct (skip_ws r0) as [|c' r'] eqn:Hs'; [discriminate|].
      apply skip_ws_cons in Hs' as Hl'.
      destruct (Ascii.eqb c' "]"); [intros [= _ <-]; lia|].
      destruct (parse_items fuel (String c' r')) as [[l r'']|] eqn:Hi; [|discriminate].
      intros [= _ <-]. apply IHi in Hi. cbn [String.length] in Hi. lia. }
    destruct (Ascii.eqb c "{").
    { destruct (skip_ws r0) as [|c' r'] eqn:Hs'; [discriminate|].
      apply skip_ws_cons in Hs' as Hl'.
      destruct (Ascii.eqb c' "}"); [intros [= _ <-]; lia|].
      destruct (parse_members fuel [] (String c' r')) as [[m r'']|] eqn:Hm; [|discriminate].
      intros [= _ <-]. apply IHm in Hm. cbn [String.length] in Hm. lia. }
    destruct (Ascii.eqb c DQ).
    { destruct (parse_chars r0) as [[t r']|] eqn:Hc; [|discriminate].
      intros [= _ <-]. apply (parse_chars_length _ _ _ _ (le_n _)) in Hc. lia. }
    destruct (Ascii.eqb c "t"); [intros H; apply literal_length in H; cbn in H; lia|].
    destruct (Ascii.eqb c "f"); [intros H; apply literal_length in H; cbn in H; lia|].
    destruct (Ascii.eqb c "n"); [intros H; apply literal_length in H; cbn in H; lia|].
    destruct (parse_number (String c r0)) as [[q r']|] eqn:Hn; [|discriminate].
    intros [= _ <-]. apply parse_number_length in Hn. cbn [String.length] in Hn. lia.
  - intros s l r. cbn [parse_items].
    destruct (parse_value fuel s) as [[v r0]|] eqn:Hv; [|discriminate].
    apply IHv in Hv.
    destruct (skip_ws r0) as [|c r'] eqn:Hs; [discriminate|].
    apply skip_ws_cons in Hs.
    destruct (Ascii.eqb c ",").
    { destruct (parse_items fuel r') as [[l' r'']|] eqn:Hi; [|discriminate].
      intros [= _ <-]. apply IHi in Hi. lia. }
    destruct (Ascii.eqb c "]"); [|discriminate]. intros [= _ <-]. lia.
  - intros acc s m r. cbn [parse_members].
    destruct (skip_ws s) as [|c r0] eqn:Hs; [discriminate|].
    apply skip_ws_cons in Hs.
    destruct (Ascii.eqb c DQ); [|discriminate].
    destruct (parse_chars r0) as [[k r1]|] eqn:Hc; [|discriminate].
    apply (parse_chars_length _ _ _ _ (le_n _)) in Hc.
    destruct (skip_ws r1) as [|c1 r2] eqn:Hs1; [discriminate|].
    apply skip_ws_cons in Hs1.
    destruct (Ascii.eqb c1 ":"); [|discriminate].
    destruct (parse_value fuel r2) as [[v r3]|] eqn:Hv; [|discriminate].
    apply IHv in Hv.
    destruct (skip_ws r3) as [|c3 r4] eqn:Hs3; [discriminate|].
    apply skip_ws_cons in Hs3.
    destruct (Ascii.eqb c3 ",").
    { intros H. apply IHm in H. lia. }
    destruct (Ascii.eqb c3 "}"); [|discriminate]. intros [= _ <-]. lia.
Qed.

(** With the fuel that [JSON_parse] gives, or more, the parser never stops
    for want of fuel: its result does not depend on the amount. *)
Lemma parse_fuel_enough (f1 : nat) :
  (forall f2 s, 2 * String.length s + 1 <= f1 -> 2 * String.length s + 1 <= f2 ->
      parse_value f1 s = parse_value f2 s)
  /\ (forall f2 s, 2 * String.length s + 2 <= f1 -> 2 * String.length s + 2 <= f2 ->
      parse_items f1 s = parse_items f2 s)
  /\ (forall f2 acc s, 2 * String.length s + 1 <= f1 -> 2 * String.length s + 1 <= f2 ->
      parse_members f1 acc s = parse_members f2 acc s).
Proof.
  induction f1 as [|f1 (IHv & IHi & IHm)]; [repeat split; intros; lia|].
  split; [|split].
  - intros [|f2] s H1 H2; [lia|]. cbn [parse_value].
    destruct (skip_ws s) as [|c r0] eqn:Hs; [reflexivity|].
    apply skip_ws_cons in Hs.
    destruct (Ascii.eqb c "[").
    { destruct (skip_ws r0) as [|c' r'] eqn:Hs'; [reflexivity|].
      pose proof (skip_ws_length r0) as Hl'. rewrite Hs' in Hl'.
      destruct (Ascii.eqb c' "]"); [reflexivity|].
      rewrite (IHi f2) by lia. reflexivity. }
    destruct (Ascii.eqb c "{").
    { destruct (skip_ws r0) as [|c' r'] eqn:Hs'; [reflexivity|].
      pose proof (skip_ws_length r0) as Hl'. rewrite Hs' in Hl'.
      destruct (Ascii.eqb c' "}"); [reflexivity|].
      rewrite (IHm f2) by lia. reflexivity. }
    reflexivity.
  - intros [|f2] s H1 H2; [lia|]. cbn [parse_items].
    rewrite (IHv f2) by lia.
    destruct (parse_value f2 s) as [[v r0]|] eqn:Hv; [|reflexivity].
    apply (proj1 (parse_value_length f2)) in Hv.
    destruct (skip_ws r0) as [|c r'] eqn:Hs; [reflexivity|].
    apply skip_ws_cons in Hs.
    destruct (Ascii.eqb c ","); [|reflexivity].
    rewrite (IHi f2) by lia. reflexivity.
  - intros [|f2] acc s H1 H2; [lia|]. cbn [parse_members].
    destruct (skip_ws s) as [|c r0] eqn:Hs; [reflexivity|].
    apply skip_ws_cons in Hs.
    destruct (Ascii.eqb c DQ); [|reflexivity].
    destruct (parse_chars r0) as [[k r1]|] eqn:Hc; [|reflexivity].
    apply (parse_chars_length _ _ _ _ (le_n _)) in Hc.
    destruct (skip_ws r1) as [|c1 r2] eqn:Hs1; [reflexivity|].
    apply skip_ws_cons in Hs1.
    destruct (Ascii.eqb c1 ":"); [|reflexivity].
    rewrite (IHv f2) by lia.
    destruct (parse_value f2 r2) as [[v r3]|] eqn:Hv; [|reflexivity].
    apply (proj1 (parse_value_length f2)) in Hv.
    destruct (skip_ws r3) as [|c3 r4] eqn:Hs3; [reflexivity|].
    apply skip_ws_cons in Hs3.
    destruct (Ascii.eqb c3 ","); [|reflexivity].
    rewrite (IHm f2) by lia. reflexivity.
Qed.

Lemma JSON_parse_fuel (text : string) (fuel : nat) :
  2 * String.length text + 2 <= fuel ->
  parse_value fuel text = parse_value (2 * String.length text + 2) text.
Proof. intros H. apply (proj1 (parse_fuel_enough fuel)); lia. Qed.

(** ** The lookup promise *)

Lemma listen_stdout (out : list string) (x : Executor) :
  fold_left listen (map EvStdout out) x
  = {| stdout := stdout x ++ joinChunks out; stderr := stderr x; settled := settled x |}.
Proof.
  revert x. induction out as [|d out IH]; intros x; cbn [map fold_left joinChunks fold_right].
  - rewrite append_empty_r. now destruct x.
  - rewrite IH. cbn [listen stdout stderr settled]. now rewrite append_assoc.
Qed.

Lemma listen_stderr (err : list string) (x : Executor) :
  fold_left listen (map EvStderr err) x
  = {| stdout := stdout x; stderr := stderr x ++ joinChunks err; settled := settled x |}.
Proof.
  revert x. induction err as [|d err IH]; intros x; cbn [map fold_left joinChunks fold_right].
  - rewrite append_empty_r. now destruct x.
  - rewrite IH. cbn [listen stdout stderr settled]. now rewrite append_assoc.
Qed.

Lemma awaitLookup_cannot_start (code : option Z) :
  awaitLookup (CannotStart code) = Some (Normal startFailureOutput).
Proof. destruct code as [[| |]|]; reflexivity. Qed.

Lemma awaitLookup_exits (out err : list string) (code : option Z) :
  awaitLookup (Exits out err code)
  = Some match code with
         | Some 0%Z => Normal (joinChunks out)
         | _ => Throw
         end.
Proof.
  unfold awaitLookup. cbn [eventsOf]. rewrite !fold_left_app.
  rewrite listen_stdout, listen_stderr. cbn [fold_left listen stdout stderr settled pending].
  destruct code as [[| |]|]; reflexivity.
Qed.

Lemma awaitLookup_settles (r : ChildRun) : exists c, awaitLookup r = Some c.
Proof.
  destruct r as [code|out err code].
  - eexists. apply awaitLookup_cannot_start.
  - eexists. apply awaitLookup_exits.
Qed.

Lemma startFailure_parsed :
  JSON_parse startFailureOutput
  = Some (Obj [("flights", Arr []); ("error", Str "Python environment not available")]).
Proof. vm_compute. reflexivity. Qed.

(** ** Normalisation of the lookup output *)

Lemma rewrap_test (f : jsval) :
  negb (truthy f) || negb (isArray f) = negb (isArray f).
Proof.
  destruct f as [v|]; [destruct v|]; cbn [truthy isArray negb];
    rewrite ?orb_true_r, ?orb_false_r; reflexivity.
Qed.

Lemma tryParse_rewrap (p : Params) (out : string) (v : value) :
  JSON_parse out = Some v -> v <> Null ->
  isArray (getProp v "flights") = false ->
  tryParse p out = Some (rewrap p v).
Proof.
  intros Hp Hn Ha. unfold tryParse. rewrite Hp, rewrap_test, Ha.
  destruct v; try reflexivity. now contradiction Hn.
Qed.

Lemma tryParse_pass (p : Params) (out : string) (v : value) :
  JSON_parse out = Some v ->
  isArray (getProp v "flights") = true ->
  tryParse p out = Some v.
Proof.
  intros Hp Ha. unfold tryParse. rewrite Hp, rewrap_test, Ha.
  destruct v; try reflexivity. discriminate Ha.
Qed.

Lemma tryParse_none (p : Params) (out : string) :
  tryParse p out = None <-> JSON_parse out = None \/ JSON_parse out = Some Null.
Proof.
  unfold tryParse. destruct (JSON_parse out) as [v|]; [|tauto].
  rewrite rewrap_test.
  destruct v; cbn [getProp];
    try (destruct (negb (isArray (assoc "flights" members))));
    cbn [isArray negb]; split; intros H;
    try discriminate H; try tauto; destruct H as [H|H]; discriminate H.
Qed.

Lemma rewrap_fields (p : Params) (v : value) :
  exists l : list value,
    getProp (rewrap p v) "flights" = Some (Arr l)
    /\ getProp (rewrap p v) "total_results" = Some (ofNat (List.length l))
    /\ getProp (rewrap p v) "search_params" = Some (search_params p)
    /\ l = match v with Arr items => items | _ => [] end.
Proof.
  destruct v; eexists; repeat split; reflexivity.
Qed.

Lemma demoResults_strings (p : Params) (o d : string) :
  origin p = Some (Str o) -> destination p = Some (Str d) ->
  exists flight : value,
    demoResults p
    = Normal (Obj [ ("flights", Arr [flight]);
                    ("total_results", ofNat 1);
                    ("search_params", search_params p);
                    ("note", Str demoNote) ])
    /\ flight = mockFlight p (Str (toUpperCase (slice_0_3 o)))
                            (Str (toUpperCase (slice_0_3 d))).
Proof.
  intros Ho Hd. unfold demoResults, code3. rewrite Ho, Hd.
  eexists. split; reflexivity.
Qed.

Lemma demoResults_fields (p : Params) (r : value) :
  demoResults p = Normal r ->
  exists l : list value,
    getProp r "flights" = Some (Arr l)
    /\ getProp r "total_results" = Some (ofNat (List.length l))
    /\ List.length l = 1.
Proof.
  unfold demoResults.
  destruct (code3 (origin p)); [|discriminate].
  destruct (code3 (destination p)); [|discriminate].
  intros [= <-]. eexists. repeat split; reflexivity.
Qed.

(** C10.  In the two branches that build the result, the re-wrapping of a
    parsed value without a list of flights and the demonstration result
    that replaces an output that cannot be read, [total_results] is the
    length of [flights]. *)
Theorem total_results_is_length (p : Params) (out : string) :
  (forall v : value,
      JSON_parse out = Some v -> v <> Null ->
      isArray (getProp v "flights") = false ->
      normalizeResults p out = Normal (rewrap p v))
  /\ (forall o d : string,
      tryParse p out = None ->
      origin p = Some (Str o) -> destination p = Some (Str d) ->
      exists r, normalizeResults p out = Normal r)
  /\ (forall r : value,
      normalizeResults p out = Normal r ->
      (tryParse p out = None
       \/ exists v, JSON_parse out = Some v
                    /\ isArray (getProp v "flights") = false) ->
      exists l : list value,
        getProp r "flights" = Some (Arr l)
        /\ getProp r "total_results" = Some (ofNat (List.length l))).
Proof.
  split; [|split].
  - intros v Hp Hn Ha. unfold normalizeResults.
    now rewrite (tryParse_rewrap p out v Hp Hn Ha).
  - intros o d Ht Ho Hd. unfold normalizeResults. rewrite Ht.
    destruct (demoResults_strings p o d Ho Hd) as (f & -> & _). now eexists.
  - intros r Hr Hb. unfold normalizeResults in Hr.
    destruct (tryParse p out) as [w|] eqn:Ht.
    + destruct Hb as [Hb|(v & Hp & Ha)]; [discriminate Hb|].
      injection Hr as <-.
      assert (Hn : v <> Null).
      { intros ->. unfold tryParse in Ht. rewrite Hp in Ht. discriminate Ht. }
      rewrite (tryParse_rewrap p out v Hp Hn Ha) in Ht. injection Ht as <-.
      destruct (rewrap_fields p v) as (l & Hf & Hc & _). now exists l.
    + apply demoResults_fields in Hr. destruct Hr as (l & Hf & Hc & _).
      now exists l.
Qed.

Lemma total_results_is_length_witness :
  normalizeResults glasgowChennai "[1, 2, 3]"
    = Normal (rewrap glasgowChennai (Arr [Num 1; Num 2; Num 3]))
  /\ (exists r, normalizeResults glasgowChennai "Traceback" = Normal r)
  /\ exists l : list value,
       getProp (rewrap glasgowChennai (Arr [Num 1; Num 2; Num 3])) "flights" = Some (Arr l)
       /\ getProp (rewrap glasgowChennai (Arr [Num 1; Num 2; Num 3])) "total_results"
          = Some (ofNat (List.length l)).
Proof.
  destruct (total_results_is_length glasgowChennai "[1, 2, 3]") as (H1 & _ & H3).
  destruct (total_results_is_length glasgowChennai "Traceback") as (_ & H2 & _).
  split; [|split].
  - apply H1; [reflexivity|discriminate|reflexivity].
  - apply (H2 "Glasgow" "Chennai"); reflexivity.
  - apply H3.
    + apply H1; [reflexivity|discriminate|reflexivity].
    + right. exists (Arr [Num 1; Num 2; Num 3]). split; reflexivity.
Defined.

(** ** The handler *)

Lemma missing_is_required (body : value) (p : Params) :
  destructure body = Normal p ->
  getProp body "origin" = None \/ getProp body "destination" = None
  \/ getProp body "departureDate" = None ->
  missingRequired p = true.
Proof.
  intros Hd Hm. unfold destructure in Hd.
  assert (Hp : p = {| origin := getProp body "origin";
                      destination := getProp body "destination";
                      departureDate := getProp body "departureDate";
                      returnDate := getProp body "returnDate";
                      passengers := getProp body "passengers";
                      googleFlightsUrl := getProp body "googleFlightsUrl" |}).
  { destruct body; try discriminate Hd; now injection Hd as <-. }
  subst p. unfold missingRequired. cbn [origin destination departureDate].
  destruct Hm as [-> | [-> | ->]]; cbn [truthy negb];
    rewrite ?orb_true_r; reflexivity.
Qed.

Lemma destructure_total (body : value) :
  body <> Null -> exists p, destructure body = Normal p.
Proof. intros H. destruct body; try (eexists; reflexivity). now contradiction H. Qed.

Lemma demoResults_throws (p : Params) :
  (forall s : string, origin p <> Some (Str s)) -> demoResults p = Throw.
Proof.
  intros H. unfold demoResults, code3.
  destruct (origin p) as [[| | |s| |]|]; try reflexivity. now contradiction (H s).
Qed.

Section Handler.
Variable spawn : value -> ChildRun.
Variable requestText : string.

Lemma POST_answers : exists r, response (POST spawn requestText) = Some r.
Proof.
  unfold POST. destruct (JSON_parse requestText) as [body|]; [|now eexists].
  destruct (destructure body) as [p|]; [|now eexists].
  destruct (missingRequired p); [now eexists|].
  destruct (awaitLookup_settles (spawn (searchData p))) as [[out|] ->];
    [|now eexists].
  destruct (normalizeResults p out); now eexists.
Qed.

Lemma POST_500 (r : Response) :
  response (POST spawn requestText) = Some r -> status r = 500%Z ->
  r = internalError.
Proof.
  unfold POST. destruct (JSON_parse requestText) as [body|];
    [|now intros [= <-]].
  destruct (destructure body) as [p|]; [|now intros [= <-]].
  destruct (missingRequired p); [intros [= <-]; discriminate|].
  destruct (awaitLookup (spawn (searchData p))) as [[out|]|];
    [|now intros [= <-]|discriminate].
  destruct (normalizeResults p out); [intros [= <-]; discriminate|now intros [= <-]].
Qed.

(** C7.  A body in which [origin], [destination] or [departureDate] is
    missing is answered 400, with an error that names the three
    parameters, and no lookup is started.  Whatever throws inside the
    handler, a body that is not JSON or is [null], a lookup that exits
    with a status other than zero, is answered 500 with an error and an
    empty list of flights; and the handler always answers. *)
Theorem validation_and_failure :
  (forall body : value,
      JSON_parse requestText = Some body -> body <> Null ->
      getProp body "origin" = None \/ getProp body "destination" = None
      \/ getProp body "departureDate" = None ->
      POST spawn requestText = {| response := Some badRequest; lookups := [] |})
  /\ (status badRequest = 400%Z
      /\ exists msg : string,
           getProp (body badRequest) "error" = Some (Str msg)
           /\ JS.includes msg "origin" = true
           /\ JS.includes msg "destination" = true
           /\ JS.includes msg "departureDate" = true)
  /\ (JSON_parse requestText = None \/ JSON_parse requestText = Some Null ->
      POST spawn requestText = {| response := Some internalError; lookups := [] |})
  /\ (forall (body : value) (p : Params) (out err : list string) (code : option Z),
      JSON_parse requestText = Some body -> destructure body = Normal p ->
      missingRequired p = false ->
      spawn (searchData p) = Exits out err code -> code <> Some 0%Z ->
      POST spawn requestText
      = {| response := Some internalError; lookups := [searchData p] |})
  /\ (forall (body : value) (p : Params) (out err : list string),
      JSON_parse requestText = Some body -> destructure body = Normal p ->
      missingRequired p = false ->
      spawn (searchData p) = Exits out err (Some 0%Z) ->
      tryParse p (joinChunks out) = None ->
      (forall s : string, origin p <> Some (Str s)) ->
      POST spawn requestText
      = {| response := Some internalError; lookups := [searchData p] |})
  /\ (status internalError = 500%Z
      /\ (exists msg : string, getProp (body internalError) "error" = Some (Str msg))
      /\ getProp (body internalError) "flights" = Some (Arr []))
  /\ (exists r : Response, response (POST spawn requestText) = Some r)
  /\ (forall r : Response,
      response (POST spawn requestText) = Some r -> status r = 500%Z ->
      r = internalError).
Proof.
  split; [|split; [|split; [|split; [|split; [|split; [|split]]]]]].
  - intros body Hp Hn Hm. unfold POST. rewrite Hp.
    destruct (destructure_total body Hn) as [p Hd]. rewrite Hd.
    now rewrite (missing_is_required body p Hd Hm).
  - split; [reflexivity|]. eexists. repeat split; reflexivity.
  - intros [H|H]; unfold POST; rewrite H; reflexivity.
  - intros body p out err code Hp Hd Hm Hs Hc. unfold POST.
    rewrite Hp, Hd, Hm, Hs, awaitLookup_exits.
    destruct code as [[| |]|]; try reflexivity. now contradiction Hc.
  - intros body p out err Hp Hd Hm Hs Ht Ho. unfold POST.
    rewrite Hp, Hd, Hm, Hs, awaitLookup_exits. cbn [Z.eqb].
    unfold normalizeResults. now rewrite Ht, (demoResults_throws p Ho).
  - split; [reflexivity|]. split; [now eexists|reflexivity].
  - apply POST_answers.
  - apply POST_500.
Qed.

End Handler.

Lemma validation_and_failure_witness :
  POST (fun _ => CannotStart (Some (-2)%Z)) noOriginRequest
    = {| response := Some badRequest; lookups := [] |}
  /\ POST (fun _ => CannotStart (Some (-2)%Z)) "null"
    = {| response := Some internalError; lookups := [] |}
  /\ POST (fun _ => Exits [] ["Traceback"] (Some 1%Z)) glasgowRequest
    = {| response := Some internalError; lookups := [searchData glasgowChennai] |}.
Proof.
  split; [|split].
  - apply (proj1 (validation_and_failure (fun _ => CannotStart (Some (-2)%Z)) noOriginRequest)
             (Obj [("destination", Str "Chennai"); ("departureDate", Str "2025-09-19")]));
      [vm_compute; reflexivity|discriminate|left; reflexivity].
  - apply (proj1 (proj2 (proj2 (validation_and_failure (fun _ => CannotStart (Some (-2)%Z)) "null")))).
    right. vm_compute. reflexivity.
  - apply (proj1 (proj2 (proj2 (proj2
             (validation_and_failure (fun _ => Exits [] ["Traceback"] (Some 1%Z)) glasgowRequest))))
             (Obj [("origin", Str "Glasgow"); ("destination", Str "Chennai");
                   ("departureDate", Str "2025-09-19")])
             glasgowChennai [] ["Traceback"] (Some 1%Z));
      [vm_compute; reflexivity|reflexivity|reflexivity|reflexivity|discriminate].
Defined.

(** ** The result of the gateway *)

Lemma normalize_startFailure (p : Params) :
  normalizeResults p startFailureOutput = Normal startFailureResult.
Proof.
  unfold normalizeResults, tryParse. rewrite startFailure_parsed. reflexivity.
Qed.

Lemma normalize_flights (p : Params) (out : string) (r : value) :
  normalizeResults p out = Normal r ->
  exists l : list value, getProp r "flights" = Some (Arr l).
Proof.
  unfold normalizeResults. destruct (tryParse p out) as [w|] eqn:Ht.
  - intros [= <-]. unfold tryParse in Ht.
    destruct (JSON_parse out) as [v|]; [|discriminate].
    rewrite rewrap_test in Ht.
    destruct (isArray (getProp v "flights")) eqn:Ha; cbn [negb] in Ht.
    + assert (w = v) as -> by (destruct v; congruence).
      destruct (getProp v "flights") as [[]|]; try discriminate Ha. now eexists.
    + assert (w = rewrap p v) as -> by (destruct v; congruence).
      destruct (rewrap_fields p v) as (l & Hf & _). now exists l.
  - intros H. apply demoResults_fields in H. destruct H as (l & Hf & _).
    now exists l.
Qed.

Section Gateway.
Variable spawn : value -> ChildRun.
Variables (requestText : string) (requestBody : value) (p : Params).
Hypothesis body_parsed : JSON_parse requestText = Some requestBody.
Hypothesis body_fields : destructure requestBody = Normal p.
Hypothesis required_present : missingRequired p = false.

Lemma POST_lookup :
  POST spawn requestText =
    match awaitLookup (spawn (searchData p)) with
    | None => {| response := None; lookups := [searchData p] |}
    | Some Throw => answer internalError [searchData p]
    | Some (Normal out) =>
        match normalizeResults p out with
        | Normal finalResults => answer (ok finalResults) [searchData p]
        | Throw => answer internalError [searchData p]
        end
    end.
Proof.
  unfold POST. now rewrite body_parsed, body_fields, required_present.
Qed.

(** C1, as the code has it.  A request that reaches the gateway starts one
    lookup and is answered with a [flights] list in every case.  When the
    process cannot be started the answer is 200 with no offer and an
    error, and with nothing else; an output that is not JSON, or is
    [null], gives the single demonstration offer with its note, the count
    and the search parameters; a parsed value other than [null] without a
    list of flights is re-wrapped with its count and the search
    parameters, a bare list as the offers and anything else as none; and a
    parsed object that has a list of flights is passed on as it is. *)
Theorem gateway_result :
  (exists r : Response,
      POST spawn requestText = {| response := Some r; lookups := [searchData p] |}
      /\ exists l : list value, getProp (body r) "flights" = Some (Arr l))
  /\ (forall code : option Z,
      spawn (searchData p) = CannotStart code ->
      response (POST spawn requestText) = Some (ok startFailureResult))
  /\ (forall (out err : list string) (o d : string),
      spawn (searchData p) = Exits out err (Some 0%Z) ->
      JSON_parse (joinChunks out) = None \/ JSON_parse (joinChunks out) = Some Null ->
      origin p = Some (Str o) -> destination p = Some (Str d) ->
      response (POST spawn requestText)
      = Some (ok (Obj [ ("flights",
                         Arr [mockFlight p (Str (JS.toUpperCase (JS.slice_0_3 o)))
                                           (Str (JS.toUpperCase (JS.slice_0_3 d)))]);
                        ("total_results", ofNat 1);
                        ("search_params", search_params p);
                        ("note", Str demoNote) ])))
  /\ (forall (out err : list string) (v : value),
      spawn (searchData p) = Exits out err (Some 0%Z) ->
      JSON_parse (joinChunks out) = Some v -> v <> Null ->
      isArray (getProp v "flights") = false ->
      response (POST spawn requestText)
      = Some (ok (Obj [ ("flights", Arr match v with Arr items => items | _ => [] end);
                        ("total_results",
                         ofNat (List.length match v with Arr items => items | _ => [] end));
                        ("search_params", search_params p) ])))
  /\ (forall (out err : list string) (v : value),
      spawn (searchData p) = Exits out err (Some 0%Z) ->
      JSON_parse (joinChunks out) = Some v ->
      isArray (getProp v "flights") = true ->
      response (POST spawn requestText) = Some (ok v)).
Proof.
  rewrite POST_lookup.
  split; [|split; [|split; [|split]]].
  - destruct (awaitLookup_settles (spawn (searchData p))) as [[out|] ->].
    + destruct (normalizeResults p out) as [r|] eqn:Hn.
      * eexists. split; [reflexivity|]. cbn [ok body].
        now apply (normalize_flights p out).
      * eexists. split; [reflexivity|]. now exists [].
    + eexists. split; [reflexivity|]. now exists [].
  - intros code ->. rewrite awaitLookup_cannot_start, normalize_startFailure.
    reflexivity.
  - intros out err o d -> Hp Ho Hd. rewrite awaitLookup_exits.
    unfold normalizeResults. rewrite (proj2 (tryParse_none p _) Hp).
    destruct (demoResults_strings p o d Ho Hd) as (f & -> & ->). reflexivity.
  - intros out err v -> Hp Hn Ha. rewrite awaitLookup_exits.
    unfold normalizeResults. rewrite (tryParse_rewrap p _ v Hp Hn Ha).
    destruct v; reflexivity.
  - intros out err v -> Hp Ha. rewrite awaitLookup_exits.
    unfold normalizeResults. now rewrite (tryParse_pass p _ v Hp Ha).
Qed.

End Gateway.

Lemma glasgowRequest_parsed :
  JSON_parse glasgowRequest
  = Some (Obj [("origin", Str "Glasgow"); ("destination", Str "Chennai");
               ("departureDate", Str "2025-09-19")]).
Proof. vm_compute. reflexivity. Qed.

Lemma gateway_result_witness :
  response (POST (fun _ => CannotStart (Some (-2)%Z)) glasgowRequest) = Some (ok startFailureResult)
  /\ response (POST (fun _ => Exits ["[7"; "]"] [] (Some 0%Z)) glasgowRequest)
     = Some (ok (Obj [ ("flights", Arr [Num 7]); ("total_results", ofNat 1);
                       ("search_params", search_params glasgowChennai) ])).
Proof.
  split.
  - apply (proj1 (proj2 (gateway_result (fun _ => CannotStart (Some (-2)%Z)) glasgowRequest _
                           glasgowChennai glasgowRequest_parsed eq_refl eq_refl))
             (Some (-2)%Z)).
    reflexivity.
  - apply (proj1 (proj2 (proj2 (proj2
             (gateway_result (fun _ => Exits ["[7"; "]"] [] (Some 0%Z)) glasgowRequest _
                glasgowChennai glasgowRequest_parsed eq_refl eq_refl))))
             ["[7"; "]"] [] (Arr [Num 7]));
      [reflexivity|vm_compute; reflexivity|discriminate|reflexivity].
Defined.

(** C1 as stated fails: when the lookup process cannot be started the
    result has its list of flights and an error, and neither a count of
    results nor the search parameters. *)
Lemma gateway_start_failure_fields :
  exists r : Response,
    POST (fun _ => CannotStart (Some (-2)%Z)) glasgowRequest
    = {| response := Some r; lookups := [searchData glasgowChennai] |}
    /\ status r = 200%Z
    /\ getProp (body r) "flights" = Some (Arr [])
    /\ getProp (body r) "total_results" = None
    /\ getProp (body r) "search_params" = None.
Proof. exists (ok startFailureResult). repeat split; vm_compute; reflexivity. Qed.

(** * Further properties of the code *)

Import DateParts.

(** ** The normaliser applied twice *)

Lemma utcDateTime_iso (s d : string) :
  utcDateTime s = Some d -> isoDatePattern d = true.
Proof.
  unfold utcDateTime. intros H.
  repeat match type of H with
  | context [match ?x with EmptyString => _ | String _ _ => _ end] =>
      destruct x; try discriminate H
  | context [match ?c with Ascii _ _ _ _ _ _ _ _ => _ end] =>
      destruct c as [[] [] [] [] [] [] [] []]; cbv iota in H; try discriminate H
  end.
  destruct (isoDatePattern (String.substring 0 10 s)) eqn:Hd; [|discriminate H].
  cbn [andb] in H.
  match type of H with (if ?b then _ else _) = _ => destruct b end;
    [|discriminate H].
  now injection H as <-.
Qed.

Section NormalizerTwice.
Variable E : Engine.
Hypothesis year_range : (1000 <= currentYear E <= 9999)%Z.
Hypothesis engine_iso :
  forall s d : string, Date_parse E s = Some d -> isoDatePattern d = true.

(** X1.  With an engine whose parser yields dates of the shape
    [YYYY-MM-DD], normalising the result of a normalisation changes
    nothing, whatever the input. *)
Theorem normalizer_idempotent (dateStr : string) :
  parseFlexibleDate E (parseFlexibleDate E dateStr) = parseFlexibleDate E dateStr.
Proof.
  assert (Hiso : forall r, isoDatePattern r = true -> parseFlexibleDate E r = r).
  { intros r Hr. unfold parseFlexibleDate.
    now rewrite (isoDatePattern_clean r Hr), Hr. }
  unfold parseFlexibleDate at 2 3.
  destruct (isoDatePattern (trim (toLowerCase dateStr))) eqn:Hc; [now apply Hiso|].
  destruct (monthDayMatch (trim (toLowerCase dateStr))) as [[m d]|] eqn:Hm.
  - apply Hiso. apply monthDayFrom_sound in Hm. destruct Hm as [Hm Hd].
    apply month_day_shape; [now apply year_four_digits|assumption..].
  - destruct (Date_parse E dateStr) as [iso|] eqn:Hp.
    + apply Hiso. now apply (engine_iso dateStr).
    + unfold parseFlexibleDate. now rewrite Hc, Hm, Hp.
Qed.

End NormalizerTwice.

Lemma normalizer_idempotent_witness :
  parseFlexibleDate engine2025 (parseFlexibleDate engine2025 " Feb 3rd ")
  = parseFlexibleDate engine2025 " Feb 3rd ".
Proof.
  apply (normalizer_idempotent engine2025).
  - cbn. lia.
  - exact utcDateTime_iso.
Defined.

(** ** Dashes and the parts of a split *)

Lemma span_decomp (p : ascii -> bool) (s a b : string) :
  span p s = (a, b) -> s = a ++ b /\ all_chars p a = true.
Proof.
  revert a b. induction s as [|c s IH]; cbn [span]; intros a b.
  - intros [= <- <-]. split; reflexivity.
  - destruct (p c) eqn:Hc.
    + destruct (span p s) as [a' b'] eqn:Hs. intros [= <- <-].
      destruct (IH a' b' eq_refl) as [-> Ha]. cbn. now rewrite Hc, Ha.
    + intros [= <- <-]. split; reflexivity.
Qed.

Lemma span_snd_decomp (p : ascii -> bool) (s : string) :
  exists w, s = w ++ snd (span p s) /\ all_chars p w = true.
Proof.
  destruct (span p s) as [a b] eqn:H. exists a. now apply span_decomp.
Qed.

Lemma nonempty_span_decomp (p : ascii -> bool) (s r : string) :
  nonempty_span p s = Some r -> exists w, s = w ++ r /\ all_chars p w = true.
Proof.
  unfold nonempty_span. destruct (span p s) as [a b] eqn:H.
  destruct (is_empty a); [discriminate|]. intros [= <-].
  exists a. now apply span_decomp.
Qed.

Lemma strip_prefix_decomp (w s r : string) :
  strip_prefix w s = Some r -> s = w ++ r.
Proof.
  revert s. induction w as [|a w IH]; intros s; cbn [strip_prefix].
  - now intros [= <-].
  - destruct s as [|b s]; [discriminate|].
    destruct (Ascii.eqb_spec a b) as [->|]; [|discriminate].
    intros H. cbn. now rewrite (IH s H).
Qed.

Lemma dashes_app (a b : string) : dashes (a ++ b) = dashes a + dashes b.
Proof. induction a as [|c a IH]; cbn; [reflexivity|]. rewrite IH. lia. Qed.

Lemma space_not_dash (c : ascii) : is_space c = true -> Ascii.eqb c "-" = false.
Proof.
  destruct (Ascii.eqb_spec c "-") as [->|]; [discriminate|reflexivity].
Qed.

Lemma dashes_spaces (w : string) : all_chars is_space w = true -> dashes w = 0.
Proof.
  induction w as [|c w IH]; cbn; [reflexivity|]. intros H. split_andb.
  now rewrite (space_not_dash c H), IH.
Qed.

Lemma string_drop_app (a b : string) : string_drop (String.length a) (a ++ b) = b.
Proof. induction a as [|c a IH]; cbn; [now destruct b|exact IH]. Qed.

Lemma wordSeparator_region (s rest : string) :
  wordSeparator s = Some rest ->
  exists region, s = region ++ rest /\ dashes region = 0.
Proof.
  unfold wordSeparator.
  destruct (nonempty_span is_space s) as [r|] eqn:H1; [|discriminate].
  apply nonempty_span_decomp in H1. destruct H1 as (w1 & -> & Hw1).
  assert (Hword : forall word, dashes word = 0 ->
            match strip_prefix word r with
            | Some r' => nonempty_span is_space r'
            | None => None
            end = Some rest ->
            exists region, w1 ++ r = region ++ rest /\ dashes region = 0).
  { intros word Hd H.
    destruct (strip_prefix word r) as [r'|] eqn:H2; [|discriminate].
    apply strip_prefix_decomp in H2. subst r.
    apply nonempty_span_decomp in H. destruct H as (w2 & -> & Hw2).
    exists (w1 ++ word ++ w2). split.
    - now rewrite !append_assoc.
    - now rewrite !dashes_app, Hd, (dashes_spaces w1 Hw1), (dashes_spaces w2 Hw2). }
  destruct (match strip_prefix "to" r with
            | Some r' => nonempty_span is_space r'
            | None => None
            end) as [r0|] eqn:Hto.
  - intros [= <-]. now apply (Hword "to").
  - intros H. now apply (Hword "through").
Qed.

Lemma dashSeparator_region (s rest : string) :
  dashSeparator s = Some rest ->
  exists region, s = region ++ rest /\ dashes region = 1.
Proof.
  unfold dashSeparator.
  destruct (span_snd_decomp is_space s) as (w1 & Hs & Hw1).
  destruct (snd (span is_space s)) as [|c r]; [discriminate|].
  destruct (Ascii.eqb_spec c "-") as [->|]; [|discriminate].
  intros [= <-].
  destruct (span_snd_decomp is_space r) as (w2 & Hr & Hw2).
  exists (w1 ++ "-" ++ w2). split.
  - rewrite Hs at 1. rewrite Hr at 1. now rewrite !append_assoc.
  - rewrite !dashes_app, (dashes_spaces w1 Hw1), (dashes_spaces w2 Hw2). reflexivity.
Qed.

Lemma separator_region (s rest : string) :
  separator s = Some rest ->
  exists region, s = region ++ rest /\ dashes region <= 1.
Proof.
  unfold separator. destruct (wordSeparator s) as [r|] eqn:Hw.
  - intros [= <-]. destruct (wordSeparator_region s r Hw) as (g & Hs & Hd).
    exists g. split; [assumption|lia].
  - intros H. destruct (dashSeparator_region s rest H) as (g & Hs & Hd).
    exists g. split; [assumption|lia].
Qed.

Lemma separatorLength_region (s : string) (n : nat) :
  separatorLength s = Some n -> dashes s <= 1 + dashes (string_drop n s).
Proof.
  unfold separatorLength. destruct (separator s) as [rest|] eqn:H; [|discriminate].
  intros [= <-]. destruct (separator_region s rest H) as (g & -> & Hd).
  rewrite length_append.
  replace (String.length g + String.length rest - String.length rest)
    with (String.length g) by lia.
  rewrite string_drop_app, dashes_app. lia.
Qed.

Lemma separatorLength_dash (r : string) :
  exists k, separatorLength (String "-" r) = Some (S k).
Proof.
  unfold separatorLength, separator, wordSeparator, nonempty_span, dashSeparator.
  cbn [span]. change (is_space "-") with false. cbn [is_empty snd].
  change (Ascii.eqb "-" "-") with true. cbv iota.
  destruct (span_snd_decomp is_space r) as (w & Hr & _).
  exists (String.length w). f_equal. cbn [String.length].
  rewrite Hr at 1. rewrite length_append. lia.
Qed.

Lemma splitFrom_char (c : ascii) (r cur : string) :
  (exists k, separatorLength (String c r) = Some (S k)
             /\ splitFrom 0 cur (String c r) = cur :: splitFrom k EmptyString r)
  \/ (Ascii.eqb c "-" = false
      /\ splitFrom 0 cur (String c r) = splitFrom 0 (cur ++ String c EmptyString) r).
Proof.
  cbn [splitFrom].
  destruct (separatorLength (String c r)) as [[|k]|] eqn:Hl.
  - right. split; [|reflexivity].
    destruct (Ascii.eqb_spec c "-") as [->|]; [|reflexivity].
    destruct (separatorLength_dash r) as (k & Hk). congruence.
  - left. now exists k.
  - right. split; [|reflexivity].
    destruct (Ascii.eqb_spec c "-") as [->|]; [|reflexivity].
    destruct (separatorLength_dash r) as (k & Hk). congruence.
Qed.

Lemma splitFrom_nodash (s : string) :
  forall skip cur, all_chars nodash cur = true ->
    Forall (fun p => all_chars nodash p = true) (splitFrom skip cur s).
Proof.
  induction s as [|c r IH]; intros skip cur Hcur.
  - destruct skip; cbn; now repeat constructor.
  - destruct skip as [|k]; [|now apply IH].
    destruct (splitFrom_char c r cur) as [(k & _ & ->)|(Hc & ->)].
    + constructor; [assumption|]. now apply IH.
    + apply IH. rewrite all_chars_app, Hcur. cbn. unfold nodash. now rewrite Hc.
Qed.

Lemma splitFrom_count (s : string) :
  forall skip cur, dashes (string_drop skip s) < List.length (splitFrom skip cur s).
Proof.
  induction s as [|c r IH]; intros skip cur.
  - destruct skip; cbn; lia.
  - destruct skip as [|k]; [|exact (IH k cur)].
    destruct (splitFrom_char c r cur) as [(k & Hl & ->)|(Hc & ->)].
    + apply separatorLength_region in Hl. cbn [string_drop List.length] in *.
      specialize (IH k EmptyString). lia.
    + specialize (IH 0 (cur ++ String c EmptyString)).
      assert (Hr : string_drop 0 r = r) by now destruct r.
      rewrite Hr in IH. cbn [string_drop dashes]. rewrite Hc. cbn. lia.
Qed.

Lemma lower_nodash (c : ascii) : nodash c = true -> nodash (lower_char c) = true.
Proof.
  destruct c as [[] [] [] [] [] [] [] []]; vm_compute; intros H;
    try discriminate H; reflexivity.
Qed.

Lemma toLowerCase_all (p : ascii -> bool) (s : string) :
  (forall c, p c = true -> p (lower_char c) = true) ->
  all_chars p s = true -> all_chars p (toLowerCase s) = true.
Proof.
  intros Hp. unfold toLowerCase.
  induction s as [|c s IH]; cbn [map_string all_chars]; [reflexivity|].
  intros H. split_andb. now rewrite (Hp c), IH.
Qed.

Lemma trimEnd_all (p : ascii -> bool) (s : string) :
  all_chars p s = true -> all_chars p (trimEnd s) = true.
Proof.
  induction s as [|c s IH]; cbn [trimEnd all_chars]; [reflexivity|].
  intros H. split_andb.
  destruct (is_space c && is_empty (trimEnd s)); [reflexivity|].
  cbn [all_chars]. now rewrite H, IH.
Qed.

Lemma trim_all (p : ascii -> bool) (s : string) :
  all_chars p s = true -> all_chars p (trim s) = true.
Proof.
  intros H. unfold trim, trimStart. apply trimEnd_all.
  destruct (span_snd_decomp is_space s) as (w & Hs & _).
  rewrite Hs, all_chars_app in H. now split_andb.
Qed.

Lemma iso_has_dash (s : string) :
  isoDatePattern s = true -> all_chars nodash s = false.
Proof.
  intros H. do 10 (destruct s as [|? s]; [discriminate H|]).
  cbn [isoDatePattern] in H. destruct s; [|discriminate H]. split_andb.
  cbn [all_chars]. unfold nodash at 5.
  match goal with h : Ascii.eqb _ "-" = true |- _ => rewrite h end.
  cbn [negb andb]. now rewrite !andb_false_r.
Qed.

Lemma iso_two_dashes (s : string) : isoDatePattern s = true -> 2 <= dashes s.
Proof.
  intros H. do 10 (destruct s as [|? s]; [discriminate H|]).
  cbn [isoDatePattern] in H. destruct s; [|discriminate H]. split_andb.
  cbn [dashes].
  repeat match goal with h : Ascii.eqb _ "-" = true |- _ => rewrite h; clear h end.
  lia.
Qed.

Lemma dashes_includes (s : string) : 1 <= dashes s -> includes s "-" = true.
Proof.
  induction s as [|c s IH]; cbn [dashes]; [lia|].
  destruct (Ascii.eqb_spec c "-") as [->|Hc].
  - intros _. apply includes_here. reflexivity.
  - intros H. apply includes_later, IH. cbn in H. lia.
Qed.

(** X2.  No part of a split date expression contains a dash, so that no
    part is ever taken by the first step of the normaliser: a date written
    [YYYY-MM-DD] inside a range is not recognised as such. *)
Theorem range_parts_without_dash (dates : string) :
  Forall (fun p => all_chars nodash p = true
                   /\ isoDatePattern (trim (toLowerCase p)) = false)
         (splitDates dates).
Proof.
  unfold splitDates.
  eapply Forall_impl; [|apply (splitFrom_nodash dates 0 EmptyString eq_refl)].
  intros p Hp. split; [assumption|].
  destruct (isoDatePattern (trim (toLowerCase p))) eqn:Hiso; [|reflexivity].
  apply iso_has_dash in Hiso.
  rewrite trim_all in Hiso; [discriminate|].
  apply toLowerCase_all; [exact lower_nodash|assumption].
Qed.

Section ManyDashes.
Variable E : Engine.

Lemma two_dashes_parts (dates : string) :
  2 <= dashes dates ->
  3 <= List.length (splitDates dates) /\ resolveDates E dates = (dates, None).
Proof.
  intros H.
  assert (Hl : 3 <= List.length (splitDates dates)).
  { pose proof (splitFrom_count dates 0 EmptyString) as Hc.
    assert (Hd : string_drop 0 dates = dates) by now destruct dates.
    rewrite Hd in Hc. unfold splitDates. lia. }
  split; [exact Hl|].
  unfold resolveDates, hasConnector.
  rewrite (dashes_includes dates) by lia. rewrite !orb_true_r.
  destruct (splitDates dates) as [|p0 [|p1 [|p2 l]]]; try reflexivity.
  cbn in Hl. lia.
Qed.

(** X3.  An expression with two dashes or more always falls in three parts
    or more: it is passed on as it was written, without a return date and
    without normalisation.  This is the fate of every date written
    [YYYY-MM-DD], alone or with text around it, such as a range of two such
    dates. *)
Theorem two_dashes_unresolved :
  (forall dates : string,
      2 <= dashes dates ->
      3 <= List.length (splitDates dates)
      /\ resolveDates E dates = (dates, None))
  /\ (forall before d after : string,
      isoDatePattern d = true ->
      resolveDates E (before ++ d ++ after) = (before ++ d ++ after, None)).
Proof.
  split; [exact two_dashes_parts|].
  intros before d after H. apply two_dashes_parts.
  rewrite !dashes_app. apply iso_two_dashes in H. lia.
Qed.

End ManyDashes.

Lemma two_dashes_unresolved_witness :
  (3 <= List.length (splitDates "12-25 - 01-03")
   /\ resolveDates engine2025 "12-25 - 01-03" = ("12-25 - 01-03", None))
  /\ resolveDates engine2025 (EmptyString ++ "2025-09-25" ++ " to 2025-10-02")
     = (EmptyString ++ "2025-09-25" ++ " to 2025-10-02", None).
Proof.
  split.
  - apply (proj1 (two_dashes_unresolved engine2025)). cbn. lia.
  - apply (proj2 (two_dashes_unresolved engine2025)). reflexivity.
Defined.

(** ** The selected offers *)

(** X4.  The three selected offers, on offers whose prices are finite
    numbers: on an empty list there is none; on any other list each is an
    offer of the list whose key (price, duration, or half the price plus
    the duration as the code computes it, in doubles) no other offer
    undercuts, the first such offer in the order of the list, and the first
    card of the list sorted on the tab of the same name. *)
Theorem selected_offers (flights : list Flight) :
  Forall (fun f => Double.finite (price f) = true) flights ->
  (flights = [] ->
   bestFlight flights = None /\ cheapestFlight flights = None
   /\ fastestFlight flights = None)
  /\ (flights <> [] ->
      exists b c f : Flight,
        bestFlight flights = Some b /\ cheapestFlight flights = Some c
        /\ fastestFlight flights = Some f)
  /\ (forall c : Flight,
      cheapestFlight flights = Some c ->
      In c flights
      /\ (forall g, In g flights -> (price c <= price g)%Q)
      /\ hd_error (filter (fun g => Qeq_bool (price g) (price c)) flights) = Some c)
  /\ (forall f : Flight,
      fastestFlight flights = Some f ->
      In f flights
      /\ (forall g, In g flights -> (durationMinutes f <= durationMinutes g)%Z)
      /\ hd_error (filter (fun g => (durationMinutes g =? durationMinutes f)%Z) flights)
         = Some f)
  /\ (forall b : Flight,
      bestFlight flights = Some b ->
      In b flights
      /\ (forall g, In g flights -> (rankKey "best" b <= rankKey "best" g)%Q)
      /\ hd_error (filter (fun g => Qeq_bool (rankKey "best" g) (rankKey "best" b))
                     flights) = Some b)
  /\ bestFlight flights = hd_error (sortedFlights "best" flights)
  /\ cheapestFlight flights = hd_error (sortedFlights "cheapest" flights)
  /\ fastestFlight flights = hd_error (sortedFlights "fastest" flights).
Proof.
  intros Hfin. apply finite_prices_onGrid in Hfin.
  assert (Htrue : Forall (fun _ : Flight => True) flights) by now apply Forall_forall.
  split; [|split; [|split; [|split; [|split; [|split; [|split]]]]]].
  - intros ->. repeat split; reflexivity.
  - intros Hl.
    destruct (sortBy_nonempty (compareFlights "best") flights Hl) as (b & Hb).
    destruct (sortBy_nonempty (fun a b => Double.sub (price a) (price b)) flights Hl)
      as (c & Hc).
    destruct (sortBy_nonempty
                (fun a b => inject_Z (durationMinutes a - durationMinutes b))
                flights Hl) as (f & Hf).
    now exists b, c, f.
  - intros c Hc.
    apply (sortBy_head price (fun a b => Double.sub (price a) (price b))
             (fun f => Double.onGrid (price f))); [|exact Hfin|exact Hc].
    intros a b. apply cheapest_le.
  - intros f Hf.
    apply (sortBy_head (fun g => inject_Z (durationMinutes g)) _ (fun _ => True))
      in Hf; [|intros a b _ _; apply fastest_le|exact Htrue].
    destruct Hf as (Hin & Hmin & Hfirst). split; [assumption|]. split.
    + intros g Hg. apply Hmin in Hg. now rewrite <- Zle_Qle in Hg.
    + rewrite <- Hfirst. f_equal. apply filter_ext. intros g.
      destruct (Z.eqb_spec (durationMinutes g) (durationMinutes f)) as [->|Hn].
      * symmetry. apply Qeq_bool_iff. reflexivity.
      * symmetry. apply not_true_is_false. intros Hq. apply Qeq_bool_iff in Hq.
        apply Hn. now apply inject_Z_injective.
  - intros b Hb.
    apply (sortBy_head (rankKey "best") _ (fun _ => True)) in Hb;
      [exact Hb|intros x y _ _; apply best_le|exact Htrue].
  - reflexivity.
  - reflexivity.
  - reflexivity.
Qed.

Lemma selected_offers_witness :
  exists b c f : Flight,
    bestFlight [offer "A" 800 "5h 00m"; offer "B" 400 "20h 00m"] = Some b
    /\ cheapestFlight [offer "A" 800 "5h 00m"; offer "B" 400 "20h 00m"] = Some c
    /\ fastestFlight [offer "A" 800 "5h 00m"; offer "B" 400 "20h 00m"] = Some f.
Proof.
  apply (proj1 (proj2 (selected_offers
           [offer "A" 800 "5h 00m"; offer "B" 400 "20h 00m"]
           ltac:(repeat (constructor; [vm_compute; reflexivity|]); constructor)))).
  discriminate.
Defined.

(** X5.  On offers whose prices are finite numbers, sorting is idempotent
    and a list already in the order of the key of a tab is left as it is,
    the key of the best ranking being the sum as the code computes it; and
    a tab value other than [cheapest] and [fastest] orders like [best]. *)
Theorem sorting_again (activeTab : string) (flights : list Flight) :
  Forall (fun f => Double.finite (price f) = true) flights ->
  sortedFlights activeTab (sortedFlights activeTab flights)
  = sortedFlights activeTab flights
  /\ (StronglySorted (fun a b => (rankKey activeTab a <= rankKey activeTab b)%Q) flights ->
      sortedFlights activeTab flights = flights)
  /\ (activeTab <> "cheapest" -> activeTab <> "fastest" ->
      sortedFlights activeTab flights = sortedFlights "best" flights).
Proof.
  intros Hfin. apply finite_prices_onGrid in Hfin.
  split; [|split].
  - apply (sortBy_sorted_id (rankKey activeTab) _ (fun f => Double.onGrid (price f))).
    + intros a b. apply compareFlights_le.
    + now apply sortBy_Forall.
    + apply (sortBy_sorted _ _ (fun f => Double.onGrid (price f))); [|exact Hfin].
      intros a b. apply compareFlights_le.
  - apply (sortBy_sorted_id (rankKey activeTab) _ (fun f => Double.onGrid (price f)));
      [|exact Hfin].
    intros a b. apply compareFlights_le.
  - intros Hc Hf. unfold sortedFlights. f_equal.
    unfold compareFlights.
    apply String.eqb_neq in Hc, Hf. now rewrite Hc, Hf.
Qed.

Lemma sorting_again_witness :
  sortedFlights "cheapest" [offer "A" 400 "5h 00m"; offer "B" 800 "2h 00m"]
  = [offer "A" 400 "5h 00m"; offer "B" 800 "2h 00m"]
  /\ sortedFlights "price" [offer "A" 400 "20h 00m"; offer "B" 800 "2h 00m"]
     = sortedFlights "best" [offer "A" 400 "20h 00m"; offer "B" 800 "2h 00m"].
Proof.
  split.
  - apply (proj1 (proj2 (sorting_again "cheapest"
             [offer "A" 400 "5h 00m"; offer "B" 800 "2h 00m"]
             ltac:(repeat (constructor; [vm_compute; reflexivity|]); constructor)))).
    repeat constructor; vm_compute; discriminate.
  - apply (proj2 (proj2 (sorting_again "price"
             [offer "A" 400 "20h 00m"; offer "B" 800 "2h 00m"]
             ltac:(repeat (constructor; [vm_compute; reflexivity|]); constructor))));
      discriminate.
Defined.

(** ** Durations *)

Lemma span_fst_all (p : ascii -> bool) (s : string) :
  all_chars p (fst (span p s)) = true.
Proof.
  destruct (span p s) as [a b] eqn:H. now apply span_decomp in H.
Qed.

Lemma digits_value_nonneg (s : string) :
  forall acc, (0 <= acc)%Z -> all_chars is_digit s = true ->
    (acc <= digits_value acc s)%Z.
Proof.
  induction s as [|c s IH]; intros acc Ha; cbn [digits_value all_chars]; [lia|].
  intros H. apply andb_true_iff in H. destruct H as [Hc Hs].
  assert (Hd : (0 <= Z.of_nat (nat_of_ascii c) - 48 <= 9)%Z).
  { unfold is_digit in Hc. apply andb_true_iff in Hc. destruct Hc as [H1 H2].
    apply Nat.leb_le in H1, H2. lia. }
  assert (H0 : (0 <= 10 * acc + (Z.of_nat (nat_of_ascii c) - 48))%Z) by lia.
  pose proof (IH _ H0 Hs). lia.
Qed.

Lemma durationHere_digits (s h m : string) :
  durationHere s = Some (h, m) ->
  all_chars is_digit h = true /\ all_chars is_digit m = true.
Proof.
  unfold durationHere.
  pose proof (span_fst_all is_digit s) as Hh.
  destruct (span is_digit s) as [h' r1]. cbn [fst] in Hh.
  destruct (is_empty h'); [discriminate|].
  destruct r1 as [|c r2]; [discriminate|].
  destruct (Ascii.eqb_spec c "h") as [->|Hc].
  - pose proof (span_fst_all is_digit (snd (span is_space r2))) as Hm.
    destruct (span is_digit (snd (span is_space r2))) as [m' r3]. cbn [fst] in Hm.
    destruct r3 as [|c3 r4]; [discriminate|].
    destruct c3 as [[] [] [] [] [] [] [] []]; try discriminate.
    now intros [= <- <-].
  - destruct c as [[] [] [] [] [] [] [] []]; try discriminate. now contradiction Hc.
Qed.

Lemma durationSearch_digits (s h m : string) :
  durationSearch s = Some (h, m) ->
  all_chars is_digit h = true /\ all_chars is_digit m = true.
Proof.
  induction s as [|c s IH]; cbn [durationSearch].
  - destruct (durationHere EmptyString) as [g|] eqn:Hg; [|discriminate].
    intros [= ->]. now apply durationHere_digits in Hg.
  - destruct (durationHere (String c s)) as [g|] eqn:Hg; [|exact IH].
    intros [= ->]. now apply durationHere_digits in Hg.
Qed.

(** X6.  The duration of an offer is never negative, and text without
    digits before the duration does not change it. *)
Theorem duration_nonnegative :
  (forall f : Flight, (0 <= durationMinutes f)%Z)
  /\ (forall label s : string,
      all_chars (fun c => negb (is_digit c)) label = true ->
      durationOf (Some (label ++ s)) = durationOf (Some s)).
Proof.
  split.
  - intros f. unfold durationMinutes, durationOf, durationGroups.
    destruct (duration f) as [s|]; [|cbn; lia].
    destruct (durationSearch s) as [[h m]|] eqn:Hs; [|cbn; lia].
    apply durationSearch_digits in Hs. destruct Hs as [Hh Hm].
    cbn [map reduceFrom Nat.eqb]. rewrite !parseIntOr0_value.
    pose proof (digits_value_nonneg h 0%Z (Z.le_refl 0) Hh).
    pose proof (digits_value_nonneg m 0%Z (Z.le_refl 0) Hm). lia.
  - intros label s Hl. unfold durationOf, durationGroups. f_equal. f_equal.
    induction label as [|c label IH]; [reflexivity|].
    cbn [all_chars] in Hl. apply andb_true_iff in Hl. destruct Hl as [Hc Hl].
    apply negb_true_iff in Hc.
    cbn [append durationSearch]. unfold durationHere at 1. cbn [span].
    rewrite Hc. cbn [is_empty]. now apply IH.
Qed.

Lemma duration_nonnegative_witness :
  durationOf (Some ("Total: " ++ "2h 05m")) = durationOf (Some "2h 05m").
Proof. apply (proj2 duration_nonnegative). reflexivity. Defined.

Import FlowSamples.

(** ** More on the retry loop *)

Lemma flow_cases (prompt : nat -> Attempt) :
  (exists o, prompt 1 = Returned o
             /\ flightBookingAssistantFlow prompt
                = {| result := o; fromFallback := false; events := [Called 1] |})
  \/ (exists e, prompt 1 = Thrown e /\ noRetry e = true
                /\ flightBookingAssistantFlow prompt
                   = {| result := fallback (Some e); fromFallback := true;
                        events := [Called 1] |})
  \/ (exists e o, prompt 1 = Thrown e /\ noRetry e = false /\ prompt 2 = Returned o
                  /\ flightBookingAssistantFlow prompt
                     = {| result := o; fromFallback := false;
                          events := Called 1 :: waitAfterFirst e ++ [Called 2] |})
  \/ (exists e1 e2, prompt 1 = Thrown e1 /\ noRetry e1 = false /\ prompt 2 = Thrown e2
                    /\ flightBookingAssistantFlow prompt
                       = {| result := fallback (Some e2); fromFallback := true;
                            events := Called 1 :: waitAfterFirst e1 ++ [Called 2] |}).
Proof.
  destruct (prompt 1) as [o1|e1] eqn:H1.
  - left. exists o1. split; [reflexivity|]. now apply flow_returned_first.
  - destruct (noRetry e1) eqn:Hn.
    + right; left. exists e1. repeat split; try assumption.
      now apply flow_fail_fast.
    + destruct (prompt 2) as [o2|e2] eqn:H2.
      * right; right; left. exists e1, o2. repeat split; try assumption.
        now apply flow_returned_second.
      * right; right; right. exists e1, e2. repeat split; try assumption.
        now apply flow_failed_twice.
Qed.

Lemma fallback_incomplete (lastError : option Assistant.Error) :
  isFlightDetailsComplete (fallback lastError) = false
  /\ flightDetails (fallback lastError) = None.
Proof. rewrite fallback_class. split; reflexivity. Qed.

(** X7.  The flow makes up no flight details: a result that is complete, or
    that carries flight details, is the very output of one of the two
    calls; and an output returned by the first call is the result after
    that single call. *)
Theorem flow_result_from_service (prompt : nat -> Attempt) :
  let run := flightBookingAssistantFlow prompt in
  (isFlightDetailsComplete (result run) = true \/ flightDetails (result run) <> None ->
   exists n : nat,
     1 <= n <= 2 /\ prompt n = Returned (result run) /\ fromFallback run = false)
  /\ (forall o : FlightBookingOutput,
      prompt 1 = Returned o ->
      result run = o /\ events run = [Called 1])
  /\ (forall (e : Assistant.Error) (o : FlightBookingOutput),
      prompt 1 = Thrown e -> noRetry e = false -> prompt 2 = Returned o ->
      result run = o /\ attemptsMade run = 2).
Proof.
  cbv zeta. split; [|split].
  - destruct (flow_cases prompt)
      as [(o & H1 & ->)|[(e & H1 & Hn & ->)|[(e & o & H1 & Hn & H2 & ->)
                                              |(e1 & e2 & H1 & Hn & H2 & ->)]]];
      cbn [result fromFallback]; intros H.
    + exists 1. repeat split; auto.
    + destruct (fallback_incomplete (Some e)) as [Hc Hd].
      destruct H as [H|H]; [rewrite Hc in H; discriminate H|now contradiction H].
    + exists 2. repeat split; auto.
    + destruct (fallback_incomplete (Some e2)) as [Hc Hd].
      destruct H as [H|H]; [rewrite Hc in H; discriminate H|now contradiction H].
  - intros o H1. rewrite (flow_returned_first _ _ H1). split; reflexivity.
  - intros e o H1 Hn H2. rewrite (flow_returned_second _ _ _ H1 Hn H2).
    unfold attemptsMade. cbn [result events]. rewrite calls_after_wait.
    split; reflexivity.
Qed.

Lemma flow_result_from_service_witness :
  let run := flightBookingAssistantFlow
               (serviceOf [Thrown overloadError; Returned completeOutput]) in
  (exists n : nat,
      1 <= n <= 2
      /\ serviceOf [Thrown overloadError; Returned completeOutput] n
         = Returned (result run)
      /\ fromFallback run = false)
  /\ result run = completeOutput /\ attemptsMade run = 2.
Proof.
  cbv zeta.
  destruct (flow_result_from_service
              (serviceOf [Thrown overloadError; Returned completeOutput]))
    as (H1 & _ & H3).
  split.
  - apply H1. left. reflexivity.
  - apply (H3 overloadError completeOutput); reflexivity.
Defined.

(** X8.  The second call is made exactly when the first one failed with a
    status other than 429, 401 and 403, whatever the failure is otherwise
    (a quota error known by its message only is tried again).  The flow
    waits at most once, for one second, and only between a first failure
    by overload and the second call: never after the last call. *)
Theorem second_call_and_wait (prompt : nat -> Attempt) :
  let run := flightBookingAssistantFlow prompt in
  (In (Called 2) (events run) <->
   exists e : Assistant.Error, prompt 1 = Thrown e /\ noRetry e = false)
  /\ (forall ms : nat,
      In (Slept ms) (events run) ->
      ms = 1000
      /\ events run = [Called 1; Slept 1000; Called 2]
      /\ exists e : Assistant.Error,
           prompt 1 = Thrown e /\ noRetry e = false
           /\ (statusIs e 503 || messageIncludes e "overloaded") = true)
  /\ (forall e : Assistant.Error,
      prompt 1 = Thrown e -> noRetry e = false ->
      (statusIs e 503 || messageIncludes e "overloaded") = false ->
      events run = [Called 1; Called 2]).
Proof.
  cbv zeta.
  destruct (flow_cases prompt)
    as [(o & H1 & ->)|[(e & H1 & Hn & ->)|[(e & o & H1 & Hn & H2 & ->)
                                            |(e1 & e2 & H1 & Hn & H2 & ->)]]];
    cbn [events]; unfold waitAfterFirst.
  - split; [|split].
    + split.
      * intros [H|[]]. discriminate H.
      * intros (e & He & _). congruence.
    + intros ms [H|[]]. discriminate H.
    + intros e He. congruence.
  - split; [|split].
    + split.
      * intros [H|[]]. discriminate H.
      * intros (e' & He & Hn'). congruence.
    + intros ms [H|[]]. discriminate H.
    + intros e' He Hn'. congruence.
  - split; [|split].
    + split; [intros _; now exists e|].
      intros _. right. apply in_or_app. right. now left.
    + destruct (statusIs e 503 || messageIncludes e "overloaded") eqn:Hw;
        cbn [app In]; intros ms H;
        repeat (destruct H as [H|H]; try discriminate H); try contradiction.
      injection H as <-. split; [reflexivity|]. split; [reflexivity|].
      now exists e.
    + intros e' He _ Hw. assert (e' = e) as -> by congruence.
      now rewrite Hw.
  - split; [|split].
    + split; [intros _; now exists e1|].
      intros _. right. apply in_or_app. right. now left.
    + destruct (statusIs e1 503 || messageIncludes e1 "overloaded") eqn:Hw;
        cbn [app In]; intros ms H;
        repeat (destruct H as [H|H]; try discriminate H); try contradiction.
      injection H as <-. split; [reflexivity|]. split; [reflexivity|].
      now exists e1.
    + intros e' He _ Hw. assert (e' = e1) as -> by congruence.
      now rewrite Hw.
Qed.

Lemma second_call_and_wait_witness :
  let run := flightBookingAssistantFlow
               (serviceOf [Thrown quotaByMessage; Thrown quotaByMessage]) in
  In (Called 2) (events run) /\ events run = [Called 1; Called 2]
  /\ reply (result run) = quotaReply.
Proof.
  cbv zeta.
  destruct (second_call_and_wait
              (serviceOf [Thrown quotaByMessage; Thrown quotaByMessage]))
    as (H1 & _ & H3).
  split; [|split].
  - apply H1. now exists quotaByMessage.
  - apply (H3 quotaByMessage); reflexivity.
  - reflexivity.
Defined.

(** ** More on the route *)

Import LookupEvents.

Lemma settle_settled (s : Settled) (x : Executor) :
  settled x <> None -> settle s x = x.
Proof. unfold settle. destruct (settled x); [reflexivity|contradiction]. Qed.

Lemma listen_settled (x : Executor) (ev : ChildEvent) :
  settled x <> None -> settled (listen x ev) = settled x.
Proof.
  intros H. destruct ev as [|data|data|code]; cbn [listen settled].
  - now rewrite !settle_settled by (rewrite ?settle_settled; assumption).
  - reflexivity.
  - reflexivity.
  - destruct code as [[| |]|]; now rewrite settle_settled.
Qed.

Lemma listen_all_settled (evs : list ChildEvent) (x : Executor) :
  settled x <> None -> settled (fold_left listen evs x) = settled x.
Proof.
  revert x. induction evs as [|ev evs IH]; intros x H; [reflexivity|].
  cbn [fold_left]. rewrite IH; [now apply listen_settled|].
  now rewrite listen_settled.
Qed.

Lemma listen_data (evs : list ChildEvent) (x : Executor) :
  forallb isData evs = true ->
  settled (fold_left listen evs x) = settled x
  /\ stdout (fold_left listen evs x) = stdout x ++ stdoutOf evs.
Proof.
  revert x. induction evs as [|ev evs IH]; intros x H.
  - cbn. now rewrite append_empty_r.
  - cbn [forallb] in H. apply andb_true_iff in H. destruct H as [Hev H].
    cbn [fold_left]. destruct (IH (listen x ev) H) as [Hs Ho].
    rewrite Hs, Ho. destruct ev; try discriminate Hev; cbn [listen settled stdout stdoutOf].
    + split; [reflexivity|]. now rewrite append_assoc.
    + now split.
Qed.

(** X9.  The promise of the lookup is settled by the first [error] or
    [close] event and by nothing after it.  Before that event the output
    is only collected; an [error] gives the output of the start failure,
    even when a [close] with code 0 follows; a [close] gives the collected
    output when its code is 0 and a failure otherwise; and a child that
    emits neither leaves the promise pending. *)
Theorem lookup_settles_once (data rest : list ChildEvent) :
  forallb isData data = true ->
  awaitEvents data = None
  /\ awaitEvents (data ++ EvError :: rest) = Some (Normal startFailureOutput)
  /\ awaitEvents (data ++ EvClose (Some 0%Z) :: rest) = Some (Normal (stdoutOf data))
  /\ (forall code : option Z,
      code <> Some 0%Z -> awaitEvents (data ++ EvClose code :: rest) = Some Throw)
  /\ (forall r : ChildRun, awaitLookup r = awaitEvents (eventsOf r)).
Proof.
  intros Hd.
  destruct (listen_data data pending Hd) as [Hs Ho]. cbn in Hs, Ho.
  split; [|split; [|split; [|split]]].
  - unfold awaitEvents. now rewrite Hs.
  - unfold awaitEvents. rewrite fold_left_app. cbn [fold_left].
    rewrite listen_all_settled.
    + cbn [listen]. unfold settle at 2. rewrite Hs. reflexivity.
    + cbn [listen]. unfold settle at 2. rewrite Hs. discriminate.
  - unfold awaitEvents. rewrite fold_left_app. cbn [fold_left].
    rewrite listen_all_settled.
    + cbn [listen]. unfold settle. now rewrite Hs, Ho.
    + cbn [listen]. unfold settle. rewrite Hs. discriminate.
  - intros code Hc. unfold awaitEvents. rewrite fold_left_app. cbn [fold_left].
    rewrite listen_all_settled.
    + destruct code as [[| |]|]; try (now contradiction Hc);
        cbn [listen]; unfold settle; now rewrite Hs.
    + destruct code as [[| |]|]; try (now contradiction Hc);
        cbn [listen]; unfold settle; rewrite Hs; discriminate.
  - reflexivity.
Qed.

Lemma lookup_settles_once_witness :
  awaitEvents [EvStdout "[1"; EvStderr "warning"; EvStdout "]"] = None
  /\ awaitEvents ([EvStdout "[1"; EvStderr "warning"; EvStdout "]"]
                  ++ EvError :: [EvClose (Some 0%Z)])
     = Some (Normal startFailureOutput)
  /\ awaitEvents ([EvStdout "[1"; EvStderr "warning"; EvStdout "]"]
                  ++ EvClose (Some 0%Z) :: [EvError])
     = Some (Normal (stdoutOf [EvStdout "[1"; EvStderr "warning"; EvStdout "]"])).
Proof.
  destruct (lookup_settles_once [EvStdout "[1"; EvStderr "warning"; EvStdout "]"]
              [EvClose (Some 0%Z)] eq_refl) as (H1 & H2 & _).
  destruct (lookup_settles_once [EvStdout "[1"; EvStderr "warning"; EvStdout "]"]
              [EvError] eq_refl) as (_ & _ & H3 & _).
  split; [exact H1|]. split; [exact H2|exact H3].
Defined.

Lemma awaitLookup_essence (r : ChildRun) : awaitLookup (essence r) = awaitLookup r.
Proof.
  destruct r as [code|out err code].
  - cbn [essence]. now rewrite !awaitLookup_cannot_start.
  - destruct code as [[| |]|]; cbn [essence]; rewrite !awaitLookup_exits;
      reflexivity.
Qed.

(** X10.  The answer of the route depends on the run of the lookup only
    through whether the process started, whether its exit code is 0 and,
    when it is, the chunks of its standard output: neither what was
    written on the error channel, nor the output of a run that failed, nor
    the value of a code other than 0 changes the answer or the lookups
    started. *)
Theorem answer_ignores_stderr (spawn : value -> ChildRun) (requestText : string) :
  POST (fun payload => essence (spawn payload)) requestText = POST spawn requestText.
Proof.
  unfold POST. destruct (JSON_parse requestText) as [body|]; [|reflexivity].
  destruct (destructure body) as [p|]; [|reflexivity].
  destruct (missingRequired p); [reflexivity|].
  now rewrite awaitLookup_essence.
Qed.

Lemma destructure_fields (body : value) (p : Params) :
  destructure body = Normal p ->
  origin p = getProp body "origin"
  /\ destination p = getProp body "destination"
  /\ departureDate p = getProp body "departureDate"
  /\ returnDate p = getProp body "returnDate"
  /\ passengers p = getProp body "passengers"
  /\ googleFlightsUrl p = getProp body "googleFlightsUrl".
Proof.
  unfold destructure. destruct body; try discriminate;
    intros [= <-]; repeat split; reflexivity.
Qed.

Lemma POST_lookups (spawn : value -> ChildRun) (requestText : string)
    (body : value) (p : Params) :
  JSON_parse requestText = Some body -> destructure body = Normal p ->
  missingRequired p = false ->
  lookups (POST spawn requestText) = [searchData p]
  /\ response (POST spawn requestText) <> Some badRequest.
Proof.
  intros Hp Hd Hm. unfold POST. rewrite Hp, Hd, Hm.
  destruct (awaitLookup (spawn (searchData p))) as [[out|]|]; cbn;
    try (split; [reflexivity|discriminate]).
  destruct (normalizeResults p out); cbn; split; try reflexivity; discriminate.
Qed.

(** X11.  A required parameter counts as missing as soon as its value is
    falsy: an empty string, a zero (also a number too small for a double,
    which is read as zero), [null] or [false] as well as an absent member.
    The request is answered 400 with no lookup started in exactly these
    cases; in all others one lookup is started and the answer is not the
    400 one. *)
Theorem required_must_be_truthy (spawn : value -> ChildRun) (requestText : string)
    (body : value) :
  JSON_parse requestText = Some body -> body <> Null ->
  (truthy (getProp body "origin") = false
   \/ truthy (getProp body "destination") = false
   \/ truthy (getProp body "departureDate") = false ->
   POST spawn requestText = {| response := Some badRequest; lookups := [] |})
  /\ (truthy (getProp body "origin") = true ->
      truthy (getProp body "destination") = true ->
      truthy (getProp body "departureDate") = true ->
      List.length (lookups (POST spawn requestText)) = 1
      /\ response (POST spawn requestText) <> Some badRequest)
  /\ (forall v : value,
      In v [Str EmptyString; Num 0; Null; Bool false] ->
      getProp body "origin" = Some v \/ getProp body "destination" = Some v
      \/ getProp body "departureDate" = Some v ->
      POST spawn requestText = {| response := Some badRequest; lookups := [] |}).
Proof.
  intros Hp Hn. destruct (destructure_total body Hn) as [p Hd].
  destruct (destructure_fields body p Hd) as (Ho & Hde & Hdd & _).
  assert (H400 : truthy (getProp body "origin") = false
                 \/ truthy (getProp body "destination") = false
                 \/ truthy (getProp body "departureDate") = false ->
                 POST spawn requestText = {| response := Some badRequest; lookups := [] |}).
  { intros H. unfold POST. rewrite Hp, Hd.
    assert (Hm : missingRequired p = true).
    { unfold missingRequired. rewrite Ho, Hde, Hdd.
      destruct H as [-> | [-> | ->]]; cbn [negb]; rewrite ?orb_true_r; reflexivity. }
    now rewrite Hm. }
  split; [exact H400|]. split.
  - intros H1 H2 H3.
    assert (Hm : missingRequired p = false).
    { unfold missingRequired. now rewrite Ho, Hde, Hdd, H1, H2, H3. }
    destruct (POST_lookups spawn requestText body p Hp Hd Hm) as [Hl Hr].
    split; [now rewrite Hl|exact Hr].
  - intros v Hv H. apply H400.
    assert (Hf : truthy (Some v) = false).
    { cbn in Hv. repeat destruct Hv as [<- | Hv]; try contradiction; reflexivity. }
    destruct H as [-> | [-> | ->]]; auto.
Qed.

Lemma required_must_be_truthy_witness :
  POST (fun _ => Exits [] [] (Some 0%Z))
       ("{" ++ quoted "origin" ++ ": 1e-400, "
        ++ quoted "destination" ++ ": " ++ quoted "Chennai" ++ ", "
        ++ quoted "departureDate" ++ ": " ++ quoted "2025-09-19" ++ "}")
  = {| response := Some badRequest; lookups := [] |}.
Proof.
  apply (proj1 (required_must_be_truthy (fun _ => Exits [] [] (Some 0%Z))
                  ("{" ++ quoted "origin" ++ ": 1e-400, "
                   ++ quoted "destination" ++ ": " ++ quoted "Chennai" ++ ", "
                   ++ quoted "departureDate" ++ ": " ++ quoted "2025-09-19" ++ "}")
                  (Obj [("origin", Num 0); ("destination", Str "Chennai");
                        ("departureDate", Str "2025-09-19")])
                  ltac:(vm_compute; reflexivity) ltac:(discriminate))).
  left. reflexivity.
Defined.

Lemma searchData_members (p : Params) :
  missingRequired p = false ->
  getProp (searchData p) "origin" = origin p
  /\ getProp (searchData p) "destination" = destination p
  /\ getProp (searchData p) "departureDate" = departureDate p
  /\ getProp (searchData p) "returnDate" = returnDate p
  /\ getProp (searchData p) "passengers"
     = (if truthy (passengers p) then passengers p else Some (Num 1))
  /\ getProp (searchData p) "googleFlightsUrl" = googleFlightsUrl p.
Proof.
  unfold missingRequired. intros Hm.
  apply orb_false_iff in Hm. destruct Hm as [Hm H3].
  apply orb_false_iff in Hm. destruct Hm as [H1 H2].
  apply negb_false_iff in H1, H2, H3.
  destruct p as [o d dd r pa g]. cbn [origin destination departureDate] in *.
  destruct o as [o|]; [|discriminate H1].
  destruct d as [d|]; [|discriminate H2].
  destruct dd as [dd|]; [|discriminate H3].
  unfold searchData.
  cbn [origin destination departureDate returnDate passengers googleFlightsUrl].
  destruct (truthy pa) eqn:Hpa; destruct r, pa, g; try discriminate Hpa;
    repeat split; reflexivity.
Qed.

(** X12.  When no number of the body is an infinity (a literal too large
    for a double), the lookup that a valid request starts receives the members
    [origin], [destination], [departureDate], [returnDate] and
    [googleFlightsUrl] of the body as they are, and a [passengers] member
    that is the body's when truthy and 1 otherwise, so that it is never
    absent; whereas the [search_params] of a re-wrapped result repeat
    [passengers] as sent, absent when it was not sent. *)
Theorem lookup_payload (spawn : value -> ChildRun) (requestText : string)
    (body : value) :
  JSON_parse requestText = Some body -> body <> Null ->
  finiteNumbers body = true ->
  truthy (getProp body "origin") = true ->
  truthy (getProp body "destination") = true ->
  truthy (getProp body "departureDate") = true ->
  exists (payload : value) (p : Params),
    lookups (POST spawn requestText) = [payload]
    /\ destructure body = Normal p
    /\ (forall k : string,
        In k ["origin"; "destination"; "departureDate"; "returnDate"; "googleFlightsUrl"] ->
        getProp payload k = getProp body k)
    /\ getProp payload "passengers"
       = (if truthy (getProp body "passengers") then getProp body "passengers"
          else Some (Num 1))
    /\ truthy (getProp payload "passengers") = true
    /\ getProp (search_params p) "passengers" = getProp body "passengers".
Proof.
  intros Hp Hn _ H1 H2 H3. destruct (destructure_total body Hn) as [p Hd].
  destruct (destructure_fields body p Hd) as (Ho & Hde & Hdd & Hr & Hpa & Hg).
  assert (Hm : missingRequired p = false).
  { unfold missingRequired. now rewrite Ho, Hde, Hdd, H1, H2, H3. }
  destruct (POST_lookups spawn requestText body p Hp Hd Hm) as [Hl _].
  destruct (searchData_members p Hm) as (S1 & S2 & S3 & S4 & S5 & S6).
  exists (searchData p), p. split; [exact Hl|]. split; [exact Hd|].
  split; [|split; [|split]].
  - intros k Hk. cbn in Hk.
    destruct Hk as [<- | [<- | [<- | [<- | [<- | []]]]]]; congruence.
  - now rewrite S5, Hpa.
  - rewrite S5. destruct (truthy (passengers p)) eqn:Ht; [exact Ht|reflexivity].
  - rewrite <- Hpa. unfold search_params.
    destruct p as [o d dd r pa g]. cbn [origin destination departureDate returnDate passengers].
    destruct o, d, dd, r, pa; reflexivity.
Qed.

Lemma lookup_payload_witness :
  exists (payload : value) (p : Params),
    lookups (POST (fun _ => CannotStart None) glasgowRequest) = [payload]
    /\ getProp payload "passengers" = Some (Num 1)
    /\ getProp (search_params p) "passengers" = None.
Proof.
  destruct (lookup_payload (fun _ => CannotStart None) glasgowRequest _
              glasgowRequest_parsed ltac:(discriminate) eq_refl eq_refl eq_refl
              eq_refl)
    as (payload & p & Hl & _ & _ & Hpa & _ & Hsp).
  exists payload, p. split; [exact Hl|]. split; [exact Hpa|exact Hsp].
Defined.

(** ** The chat component *)

Import Chat.

Lemma concat_snoc (sep : string) (l : list string) (x : string) :
  l <> [] -> String.concat sep (l ++ [x]) = String.concat sep l ++ sep ++ x.
Proof.
  induction l as [|a l IH]; [contradiction|]. intros _.
  destruct l as [|b l]; [reflexivity|].
  change (String.concat sep ((a :: b :: l) ++ [x]))
    with (a ++ sep ++ String.concat sep ((b :: l) ++ [x])).
  rewrite IH by discriminate.
  change (String.concat sep (a :: b :: l)) with (a ++ sep ++ String.concat sep (b :: l)).
  now rewrite !append_assoc.
Qed.

(** X13.  The history given to the assistant has one line per message, in
    order, joined by line feeds.  The history of the second call, made of
    the first history, a line feed and the first reply, is the history of
    the transcript with that reply added, as long as the transcript is not
    empty; on an empty transcript it starts with a line feed that the
    history of the one-message transcript does not have. *)
Theorem history_extends (msgs : list Message) (replyText : string) :
  (msgs <> [] ->
   conversationHistory msgs ++ LF ++ "assistant: " ++ replyText
   = conversationHistory (msgs ++ [{| role := assistant; content := replyText |}]))
  /\ (conversationHistory [] ++ LF ++ "assistant: " ++ replyText
      = LF ++ conversationHistory [{| role := assistant; content := replyText |}])
  /\ (forall m : Message,
      msgs <> [] ->
      conversationHistory (msgs ++ [m])
      = conversationHistory msgs ++ LF ++ renderMessage m).
Proof.
  split; [|split].
  - intros H. unfold conversationHistory. rewrite map_app. cbn [map].
    rewrite concat_snoc; [reflexivity|]. now destruct msgs.
  - reflexivity.
  - intros m H. unfold conversationHistory. rewrite map_app. cbn [map].
    apply concat_snoc. now destruct msgs.
Qed.

Lemma history_extends_witness :
  conversationHistory [{| role := user; content := "Glasgow to Chennai" |}]
  ++ LF ++ "assistant: " ++ "What dates?"
  = conversationHistory ([{| role := user; content := "Glasgow to Chennai" |}]
                         ++ [{| role := assistant; content := "What dates?" |}]).
Proof. apply (proj1 (history_extends _ "What dates?")). discriminate. Defined.

Lemma fetchedFlights_throw (flightData : value) :
  fetchedFlights flightData = Throw -> flightData = Null.
Proof.
  unfold fetchedFlights. destruct flightData; try reflexivity;
    destruct (getProp _ "flights") as [f|]; try discriminate;
    destruct (truthy (Some f)); discriminate.
Qed.

Section OneMessage.
Variable E : Engine.
Variable S : Services.
Variable processed : bool.
Variable messageContent : option string.
Variable st : State.

Lemma handle_blank :
  is_empty (trim (contentOf messageContent st)) = true ->
  handleSendMessage E S processed messageContent st = (st, []).
Proof. intros H. unfold handleSendMessage. now rewrite H. Qed.

(** The four courses of a call on a message that is not blank. *)
Lemma handle_outcome :
  is_empty (trim (contentOf messageContent st)) = false ->
  let st1 := started processed messageContent st in
  let request := firstRequest processed messageContent st in
  (flightBookingAssistant S request = Throw
   /\ handleSendMessage E S processed messageContent st
      = (say errorText st1, [AssistantCall request]))
  \/ (exists response,
        flightBookingAssistant S request = Normal response
        /\ (Assistant.isFlightDetailsComplete response = false
            \/ Assistant.flightDetails response = None)
        /\ handleSendMessage E S processed messageContent st
           = (say (Assistant.reply response) st1, [AssistantCall request]))
  \/ (exists response details dep ret,
        flightBookingAssistant S request = Normal response
        /\ Assistant.isFlightDetailsComplete response = true
        /\ Assistant.flightDetails response = Some details
        /\ resolveDates E (dates (detailsOf details)) = (dep, ret)
        /\ (searchFlights S (searchRequest (detailsOf details) dep ret) = Throw
            \/ searchFlights S (searchRequest (detailsOf details) dep ret) = Normal Null)
        /\ handleSendMessage E S processed messageContent st
           = (say fetchFailureText
                (setFlightQuery (newFlightQuery (detailsOf details)) st1),
              [AssistantCall request;
               SearchCall (searchRequest (detailsOf details) dep ret)]))
  \/ (exists response details dep ret flightData flights,
        flightBookingAssistant S request = Normal response
        /\ Assistant.isFlightDetailsComplete response = true
        /\ Assistant.flightDetails response = Some details
        /\ resolveDates E (dates (detailsOf details)) = (dep, ret)
        /\ searchFlights S (searchRequest (detailsOf details) dep ret) = Normal flightData
        /\ fetchedFlights flightData = Normal flights
        /\ handleSendMessage E S processed messageContent st
           = (match flightBookingAssistant S
                      (analysisRequest (history request) response flights) with
              | Normal response2 =>
                  say (Assistant.reply response2)
                    (setShowViewFlightsButton true (searched details dep ret flights st1))
              | Throw => say fetchFailureText (searched details dep ret flights st1)
              end,
              [AssistantCall request;
               SearchCall (searchRequest (detailsOf details) dep ret);
               AssistantCall (analysisRequest (history request) response flights)])).
Proof.
  intros H st1 request. unfold handleSendMessage. rewrite H.
  fold st1. fold request.
  destruct (flightBookingAssistant S request) as [response|] eqn:H1;
    [|now left].
  right.
  destruct (Assistant.isFlightDetailsComplete response) eqn:Hc;
    [|left; exists response; repeat split; auto].
  destruct (Assistant.flightDetails response) as [details|] eqn:Hd;
    [|left; exists response; repeat split; auto].
  right. unfold searchAndAnalyse.
  destruct (resolveDates E (dates (detailsOf details))) as [dep ret] eqn:Hr.
  destruct (searchFlights S (searchRequest (detailsOf details) dep ret))
    as [flightData|] eqn:Hs.
  - destruct (fetchedFlights flightData) as [flights|] eqn:Hf.
    + right. exists response, details, dep, ret, flightData, flights.
      repeat (split; [assumption || reflexivity|]).
      unfold searched.
      destruct (flightBookingAssistant S
                  (analysisRequest (history request) response flights)); reflexivity.
    + apply fetchedFlights_throw in Hf. subst flightData.
      left. exists response, details, dep, ret. repeat split; auto.
  - left. exists response, details, dep, ret. repeat split; auto.
Qed.

End OneMessage.

Section AfterOneMessage.
Variable E : Engine.
Variable S : Services.
Variable processed : bool.
Variable messageContent : option string.
Variable st : State.
Hypothesis not_blank : is_empty (trim (contentOf messageContent st)) = false.

(** X14.  A message that is not blank adds to the transcript the message
    of the user, unless it is the initial query already processed, and then
    exactly one message of the assistant, whatever the services do; the
    messages already there are kept, [loading] is false at the end, and the
    input is emptied when the message was typed.  Between one and three
    calls are made. *)
Theorem one_reply_per_message :
  let after := handleSendMessage E S processed messageContent st in
  exists text : string,
    messages (fst after)
    = ((messages st
        ++ (if addsUserMessage processed messageContent
            then [{| role := user; content := contentOf messageContent st |}]
            else []))
       ++ [{| role := assistant; content := text |}])%list
    /\ loading (fst after) = false
    /\ input (fst after) = (if present messageContent then input st else EmptyString)
    /\ 1 <= List.length (snd after) <= 3.
Proof.
  cbv zeta.
  assert (Hcur : currentMessages processed messageContent st
                 = (messages st
                    ++ (if addsUserMessage processed messageContent
                        then [{| role := user; content := contentOf messageContent st |}]
                        else []))%list).
  { unfold currentMessages. destruct (addsUserMessage processed messageContent);
      [reflexivity|now rewrite app_nil_r]. }
  rewrite <- Hcur.
  destruct (handle_outcome E S processed messageContent st not_blank)
    as [(_ & ->)|[(r & _ & _ & ->)|[(r & d & dep & ret & _ & _ & _ & _ & _ & ->)
       |(r & d & dep & ret & fd & fl & _ & _ & _ & _ & _ & _ & ->)]]].
  - eexists. cbn. repeat split; lia.
  - eexists. cbn. repeat split; lia.
  - eexists. cbn. repeat split; lia.
  - destruct (flightBookingAssistant S _); eexists; cbn; repeat split; lia.
Qed.

(** X15.  The first call gives the assistant the history of the transcript
    and no flights.  A search is requested only when the first answer is
    complete and has details, with the request built from these details
    and the resolved dates.  A call that gives flights to the assistant
    gives the flights that the search returned (none, as an empty list,
    when the answer had no list), with the first history followed by the
    first reply. *)
Theorem calls_of_a_message :
  let after := handleSendMessage E S processed messageContent st in
  let request := firstRequest processed messageContent st in
  (exists rest, snd after = AssistantCall request :: rest)
  /\ (forall body : value,
      In (SearchCall body) (snd after) ->
      exists response details,
        flightBookingAssistant S request = Normal response
        /\ Assistant.isFlightDetailsComplete response = true
        /\ Assistant.flightDetails response = Some details
        /\ body = searchRequest (detailsOf details)
                    (fst (resolveDates E (dates (detailsOf details))))
                    (snd (resolveDates E (dates (detailsOf details)))))
  /\ (forall (request2 : FlightBookingInput) (flights : value),
      In (AssistantCall request2) (snd after) ->
      availableFlights request2 = Some flights ->
      exists body flightData response,
        In (SearchCall body) (snd after)
        /\ searchFlights S body = Normal flightData
        /\ fetchedFlights flightData = Normal flights
        /\ flightBookingAssistant S request = Normal response
        /\ history request2
           = history request ++ LF ++ "assistant: " ++ Assistant.reply response).
Proof.
  cbv zeta.
  destruct (handle_outcome E S processed messageContent st not_blank)
    as [(_ & ->)|[(r & _ & _ & ->)|[(r & d & dep & ret & H1 & Hc & Hd & Hr & _ & ->)
       |(r & d & dep & ret & fd & fl & H1 & Hc & Hd & Hr & Hs & Hf & ->)]]];
    cbn [snd].
  - split; [now eexists|]. split.
    + intros body [H|[]]. discriminate H.
    + intros q fl [H|[]] Hq. injection H as <-. discriminate Hq.
  - split; [now eexists|]. split.
    + intros body [H|[]]. discriminate H.
    + intros q fl [H|[]] Hq. injection H as <-. discriminate Hq.
  - split; [now eexists|]. split.
    + intros body [H|[H|[]]]; [discriminate H|]. injection H as <-.
      exists r, d. rewrite Hr. repeat split; assumption.
    + intros q fl [H|[H|[]]] Hq; [|discriminate H].
      injection H as <-. discriminate Hq.
  - split; [now eexists|]. split.
    + intros body [H|[H|[H|[]]]]; try discriminate H. injection H as <-.
      exists r, d. rewrite Hr. repeat split; assumption.
    + intros q fl' [H|[H|[H|[]]]] Hq; try discriminate H.
      * injection H as <-. discriminate Hq.
      * injection H as <-. cbn in Hq. injection Hq as <-.
        exists (searchRequest (detailsOf d) dep ret), fd, r.
        split; [right; now left|]. repeat split; assumption.
Qed.


End AfterOneMessage.

(** ** The chat component and the route *)

Lemma orElse_nonempty (s d : string) :
  is_empty d = false -> is_empty (orElse s d) = false.
Proof. intros H. unfold orElse. destruct (is_empty s) eqn:Hs; assumption. Qed.

Lemma orElseZ_nonzero (n : Z) : orElseZ n 1 <> 0%Z.
Proof. unfold orElseZ. destruct (Z.eqb_spec n 0); [discriminate|assumption]. Qed.

Lemma truthy_integer (n : Z) : n <> 0%Z -> truthy (Some (Num (inject_Z n))) = true.
Proof. intros H. destruct n; [now contradiction H|reflexivity|reflexivity]. Qed.

Lemma normalize_strings (p : Params) (out o de : string) :
  SearchRoute.origin p = Some (Str o) -> SearchRoute.destination p = Some (Str de) ->
  exists r, normalizeResults p out = Normal r.
Proof.
  intros Ho Hd. unfold normalizeResults. destruct (tryParse p out); [now eexists|].
  unfold demoResults. rewrite Ho, Hd. cbn [code3]. now eexists.
Qed.

Lemma chat_request_params (d : Details) (dep : string) (ret : option string) :
  exists p : Params,
    destructure (searchRequest d dep ret) = Normal p
    /\ missingRequired p = false
    /\ searchData p = searchRequest d dep ret
    /\ SearchRoute.origin p = Some (Str (orElse (origin d) "Glasgow"))
    /\ SearchRoute.destination p = Some (Str (orElse (destination d) "Chennai")).
Proof.
  eexists. split; [reflexivity|].
  assert (Ho : is_empty (orElse (origin d) "Glasgow") = false)
    by now apply orElse_nonempty.
  assert (Hd : is_empty (orElse (destination d) "Chennai") = false)
    by now apply orElse_nonempty.
  assert (Hdd : is_empty (orElse dep "2025-09-19") = false)
    by now apply orElse_nonempty.
  assert (Hp := truthy_integer _ (orElseZ_nonzero (passengers d))).
  split; [|split; [|split; reflexivity]].
  - unfold missingRequired.
    cbn [SearchRoute.origin SearchRoute.destination SearchRoute.departureDate
         searchRequest getProp Json.assoc String.eqb Ascii.eqb Bool.eqb truthy].
    cbn. now rewrite Ho, Hd, Hdd.
  - unfold searchData.
    cbn [SearchRoute.origin SearchRoute.destination SearchRoute.departureDate
         SearchRoute.returnDate SearchRoute.passengers SearchRoute.googleFlightsUrl].
    change (getProp (searchRequest d dep ret) "passengers")
      with (Some (Num (inject_Z (orElseZ (passengers d) 1)))).
    rewrite Hp. destruct ret; reflexivity.
Qed.

(** X17.  The request that the chat sends is served by the route: because
    of its defaults it is never answered 400, and the lookup process
    receives exactly the object that the chat sent.  From every answer that
    the route gives to it the chat reads a list of flights without a
    failure.  The answer is 200 when the promise of the lookup was
    resolved, whatever the output; when it was rejected the answer is the
    500 one and the chat reads an empty list, as after a search that found
    nothing. *)
Theorem chat_request_served (spawn : value -> ChildRun) (requestText : string)
    (d : Details) (departureDate : string) (returnDate : option string) :
  JSON_parse requestText = Some (searchRequest d departureDate returnDate) ->
  lookups (POST spawn requestText) = [searchRequest d departureDate returnDate]
  /\ forall r : Response,
       SearchRoute.response (POST spawn requestText) = Some r ->
       SearchRoute.status r <> 400%Z
       /\ (exists l : list value,
             fetchedFlights (SearchRoute.body r) = Normal (Arr l)
             /\ (SearchRoute.status r = 500%Z -> l = []))
       /\ (forall out : string,
           awaitLookup (spawn (searchRequest d departureDate returnDate))
           = Some (Normal out) ->
           SearchRoute.status r = 200%Z)
       /\ (awaitLookup (spawn (searchRequest d departureDate returnDate))
           = Some Throw ->
           r = internalError).
Proof.
  intros Hp.
  destruct (chat_request_params d departureDate returnDate)
    as (p & Hd & Hm & Hs & Ho & Hde).
  split.
  { destruct (POST_lookups spawn requestText _ p Hp Hd Hm) as [-> _].
    now rewrite Hs. }
  unfold POST. rewrite Hp, Hd, Hm. rewrite Hs.
  destruct (awaitLookup (spawn (searchRequest d departureDate returnDate)))
    as [[out|]|]; [| |intros r H; discriminate H].
  - destruct (normalize_strings p out _ _ Ho Hde) as [res Hr]. rewrite Hr.
    destruct (normalize_flights p out res Hr) as [l Hl].
    intros r [= <-]. cbn [ok SearchRoute.status SearchRoute.body].
    split; [discriminate|]. split.
    + exists l. split; [|discriminate].
      unfold fetchedFlights. rewrite Hl.
      destruct res; try discriminate Hl; reflexivity.
    + split; [reflexivity|discriminate].
  - intros r [= <-]. split; [discriminate|]. split.
    + exists []. split; reflexivity.
    + split; [discriminate|reflexivity].
Qed.

Lemma chat_request_served_witness :
  lookups (POST (fun _ => CannotStart None) ChatSamples.searchText)
  = [searchRequest ChatSamples.glasgowDetails "2025-09-25" (Some "2025-10-02")]
  /\ exists r : Response,
       SearchRoute.response (POST (fun _ => CannotStart None) ChatSamples.searchText)
       = Some r
       /\ SearchRoute.status r <> 400%Z.
Proof.
  destruct (chat_request_served (fun _ => CannotStart None)
              ChatSamples.searchText ChatSamples.glasgowDetails
              "2025-09-25" (Some "2025-10-02")
              ltac:(vm_compute; reflexivity)) as [Hl Hr].
  split; [exact Hl|].
  exists (ok startFailureResult).
  assert (E : SearchRoute.response
                (POST (fun _ => CannotStart None) ChatSamples.searchText)
              = Some (ok startFailureResult)) by (vm_compute; reflexivity).
  split; [exact E|]. exact (proj1 (Hr _ E)).
Defined.

Lemma one_reply_per_message_witness :
  exists text : string,
    messages (fst (handleSendMessage engine2025 ChatSamples.services false
                     (Some "to Chennai") ChatSamples.fresh))
    = [{| role := user; content := "to Chennai" |};
       {| role := assistant; content := text |}].
Proof.
  destruct (one_reply_per_message engine2025 ChatSamples.services false
              (Some "to Chennai") ChatSamples.fresh eq_refl) as (text & H & _).
  exists text. exact H.
Defined.

Lemma calls_of_a_message_witness :
  exists rest : list Call,
    snd (handleSendMessage engine2025 ChatSamples.services false
           (Some "to Chennai") ChatSamples.fresh)
    = AssistantCall (firstRequest false (Some "to Chennai") ChatSamples.fresh) :: rest.
Proof.
  exact (proj1 (calls_of_a_message engine2025 ChatSamples.services false
                  (Some "to Chennai") ChatSamples.fresh eq_refl)).
Defined.


(** ** The results view *)

Example split_from :
  ResultsView.split "a from b from c" "from" = ["a "; " b "; " c"]
  /\ ResultsView.split "fromfrom" "from" = [EmptyString; EmptyString; EmptyString]
  /\ ResultsView.split "abc" "from" = ["abc"]
  /\ ResultsView.originOf ResultsView.toChennai = "Glasgow"
  /\ ResultsView.originOf
       {| ResultsView.destination := "Chennai"; ResultsView.dates := "2025-09-19";
          ResultsView.otherDetails := Some "from  from Glasgow" |} = "London".
Proof. vm_compute. repeat split; reflexivity. Qed.

Lemma originOf_nonempty (parsed : ResultsView.ParseFlightQueryOutput) :
  is_empty (ResultsView.originOf parsed) = false.
Proof.
  unfold ResultsView.originOf.
  destruct (ResultsView.otherDetails parsed) as [details|]; [|reflexivity].
  destruct (includes details "from"); [|reflexivity].
  destruct (nth_error _ 1); [|reflexivity].
  now apply orElse_nonempty.
Qed.

Lemma showAnswer_throw (flightData : value) (st : ResultsView.State) :
  ResultsView.showAnswer flightData st = Throw <-> flightData = Null.
Proof.
  split; [|intros ->; reflexivity].
  destruct flightData; try reflexivity; intros H; exfalso;
    unfold ResultsView.showAnswer in H;
    repeat match type of H with
           | context [match ?x with _ => _ end] => destruct x
           end;
    discriminate H.
Qed.

Lemma showAnswer_normal (flightData : value) (st st' : ResultsView.State) :
  ResultsView.showAnswer flightData st = Normal st' ->
  flightData <> Null
  /\ ResultsView.loading st' = ResultsView.loading st
  /\ ResultsView.parsedQuery st' = ResultsView.parsedQuery st
  /\ ResultsView.searchParams st' = ResultsView.searchParams st
  /\ ((exists f l, getProp flightData "flights" = Some (Arr (f :: l))
                   /\ ResultsView.flights st' = f :: l
                   /\ ResultsView.error st' = ResultsView.error st)
      \/ ((forall f l, getProp flightData "flights" <> Some (Arr (f :: l)))
          /\ ResultsView.flights st' = []
          /\ ResultsView.error st'
             = Some (if truthy (getProp flightData "error")
                     then match getProp flightData "error" with
                          | Some e => ResultsView.ApiError e
                          | None => ResultsView.NoFlightsAvailable
                          end
                     else ResultsView.NoFlightsAvailable))).
Proof.
  intros H. split; [intros ->; discriminate H|].
  assert (E : ResultsView.showAnswer flightData st
              = match getProp flightData "flights" with
                | Some (Arr (f :: l)) => Normal (ResultsView.setFlights (f :: l) st)
                | _ =>
                    match getProp flightData "error" with
                    | Some e =>
                        if truthy (Some e)
                        then Normal (ResultsView.setFlights []
                                       (ResultsView.setError (Some (ResultsView.ApiError e)) st))
                        else Normal (ResultsView.setFlights []
                                       (ResultsView.setError (Some ResultsView.NoFlightsAvailable) st))
                    | None => Normal (ResultsView.setFlights []
                                        (ResultsView.setError (Some ResultsView.NoFlightsAvailable) st))
                    end
                end).
  { destruct flightData; try reflexivity. discriminate H. }
  rewrite E in H. clear E.
  destruct (getProp flightData "flights") as [[| | | |[|f l]|]|] eqn:Hf;
    try (destruct (getProp flightData "error") as [e|];
         [destruct (truthy (Some e)) eqn:Ht|];
         (injection H as <-;
          split; [reflexivity|]; split; [reflexivity|]; split; [reflexivity|];
          right; split; [intros; discriminate|split; reflexivity])).
  injection H as <-. split; [reflexivity|]. split; [reflexivity|].
  split; [reflexivity|]. left. exists f, l. repeat split; reflexivity.
Qed.

Lemma parse_outcome (mockFlights : list value) (S : ResultsView.Services)
    (query : string) (st0 : ResultsView.State) :
  let after := ResultsView.parseAndSearch mockFlights S query st0 in
  (ResultsView.parseFlightQuery S query = Throw
   /\ after = (ResultsView.unreachable st0, [ResultsView.ParseCall query]))
  \/ (exists parsed,
        ResultsView.parseFlightQuery S query = Normal parsed
        /\ (is_empty (ResultsView.destination parsed) = true
            \/ is_empty (ResultsView.dates parsed) = true)
        /\ after
           = (ResultsView.setLoading false
                (ResultsView.setFlights mockFlights
                   (ResultsView.setParsedQuery parsed st0)),
              [ResultsView.ParseCall query]))
  \/ (exists parsed,
        ResultsView.parseFlightQuery S query = Normal parsed
        /\ is_empty (ResultsView.destination parsed) = false
        /\ is_empty (ResultsView.dates parsed) = false
        /\ snd after = ResultsView.callsFor query parsed
        /\ ResultsView.searchParams (fst after)
           = Some (ResultsView.searchParamsOf parsed)
        /\ ResultsView.loading (fst after) = false
        /\ ((ResultsView.searchFlights S (ResultsView.searchParamsOf parsed) = Throw
             \/ ResultsView.searchFlights S (ResultsView.searchParamsOf parsed)
                = Normal Null)
            /\ ResultsView.flights (fst after) = []
            /\ ResultsView.error (fst after) = Some ResultsView.Unreachable
            \/ exists flightData,
                 ResultsView.searchFlights S (ResultsView.searchParamsOf parsed)
                 = Normal flightData
                 /\ flightData <> Null
                 /\ ((exists f l,
                        getProp flightData "flights" = Some (Arr (f :: l))
                        /\ ResultsView.flights (fst after) = f :: l
                        /\ ResultsView.error (fst after) = ResultsView.error st0)
                     \/ ((forall f l,
                           getProp flightData "flights" <> Some (Arr (f :: l)))
                         /\ ResultsView.flights (fst after) = []
                         /\ ResultsView.error (fst after)
                            = Some (if truthy (getProp flightData "error")
                                    then match getProp flightData "error" with
                                         | Some e => ResultsView.ApiError e
                                         | None => ResultsView.NoFlightsAvailable
                                         end
                                    else ResultsView.NoFlightsAvailable))))).
Proof.
  cbv zeta. unfold ResultsView.parseAndSearch.
  destruct (ResultsView.parseFlightQuery S query) as [parsed|] eqn:Hp;
    [|left; split; reflexivity].
  right.
  destruct (is_empty (ResultsView.destination parsed)) eqn:Hde;
    [left; exists parsed; split; [reflexivity|]; split; [now left|reflexivity]|].
  destruct (is_empty (ResultsView.dates parsed)) eqn:Hda;
    [left; exists parsed; split; [reflexivity|]; split; [now right|reflexivity]|].
  right. exists parsed. cbn [negb andb].
  split; [reflexivity|]. split; [exact Hde|]. split; [exact Hda|].
  destruct (ResultsView.searchFlights S (ResultsView.searchParamsOf parsed))
    as [flightData|] eqn:Hs.
  - destruct (ResultsView.showAnswer flightData _) as [st3|] eqn:Hshow.
    + destruct (showAnswer_normal _ _ _ Hshow) as (Hn & Hl & Hpq & Hsp & Hc).
      cbn [fst snd]. split; [reflexivity|].
      split; [cbn [ResultsView.setLoading ResultsView.searchParams]; now rewrite Hsp|].
      split; [reflexivity|].
      right. exists flightData. split; [reflexivity|]. split; [exact Hn|].
      exact Hc.
    + apply showAnswer_throw in Hshow. subst flightData.
      cbn [fst snd]. split; [reflexivity|]. split; [reflexivity|].
      split; [reflexivity|]. left. split; [now right|]. split; reflexivity.
  - cbn [fst snd]. split; [reflexivity|]. split; [reflexivity|].
    split; [reflexivity|]. left. split; [now left|]. split; reflexivity.
Qed.

Lemma parse_view (mockFlights : list value) (S : ResultsView.Services)
    (query : string) (st : ResultsView.State) :
  mockFlights <> [] ->
  let after := ResultsView.parseAndSearch mockFlights S query (ResultsView.cleared st) in
  ResultsView.loading (fst after) = false
  /\ (ResultsView.flights (fst after) = [] <-> ResultsView.error (fst after) <> None)
  /\ (forall body, In (ResultsView.SearchCall body) (snd after) ->
      exists parsed,
        ResultsView.parseFlightQuery S query = Normal parsed
        /\ is_empty (ResultsView.destination parsed) = false
        /\ is_empty (ResultsView.dates parsed) = false
        /\ body = ResultsView.searchParamsOf parsed
        /\ ResultsView.searchParams (fst after) = Some body
        /\ forall flightData f l,
             ResultsView.searchFlights S body = Normal flightData ->
             getProp flightData "flights" = Some (Arr (f :: l)) ->
             ResultsView.flights (fst after) = f :: l)
  /\ (ResultsView.error (fst after) = Some ResultsView.Unreachable <->
      (ResultsView.parseFlightQuery S query = Throw
       \/ exists parsed,
            ResultsView.parseFlightQuery S query = Normal parsed
            /\ is_empty (ResultsView.destination parsed) = false
            /\ is_empty (ResultsView.dates parsed) = false
            /\ (ResultsView.searchFlights S (ResultsView.searchParamsOf parsed) = Throw
                \/ ResultsView.searchFlights S (ResultsView.searchParamsOf parsed)
                   = Normal Null))).
Proof.
  intros Hm. cbv zeta.
  destruct (parse_outcome mockFlights S query (ResultsView.cleared st))
    as [(Hp & ->)|[(parsed & Hp & He & ->)
       |(parsed & Hp & Hde & Hda & Hcalls & Hsp & Hl & Hc)]].
  - cbn [fst snd]. split; [reflexivity|]. split.
    { split; [discriminate|reflexivity]. }
    split.
    { intros body [H|[]]. discriminate H. }
    split; [intros _; now left|reflexivity].
  - cbn [fst snd]. split; [reflexivity|]. split.
    { cbn. split; [intros H; now contradiction (Hm H)|intros H; now contradiction H]. }
    split.
    { intros body [H|[]]. discriminate H. }
    cbn. split; [discriminate|].
    intros [H|(parsed' & H & Hde' & Hda' & _)]; [congruence|].
    assert (parsed' = parsed) as -> by congruence.
    destruct He; congruence.
  - split; [exact Hl|].
    assert (Hbody : forall body,
      In (ResultsView.SearchCall body)
         (snd (ResultsView.parseAndSearch mockFlights S query (ResultsView.cleared st))) ->
      body = ResultsView.searchParamsOf parsed).
    { rewrite Hcalls. intros body [H|[H|[]]]; [discriminate H|now injection H]. }
    destruct Hc as [(Hs & Hf & Herr)|(flightData & Hs & Hn & Hc)].
    + split.
      { rewrite Hf, Herr. split; [discriminate|reflexivity]. }
      split.
      { intros body Hin. apply Hbody in Hin. subst body. exists parsed.
        repeat (split; [assumption|]). split; [reflexivity|]. split; [exact Hsp|].
        intros fd f l Hfd Hfl. destruct Hs as [Hs|Hs]; rewrite Hs in Hfd;
          [discriminate Hfd|]. injection Hfd as <-. discriminate Hfl. }
      rewrite Herr. split; [intros _|reflexivity].
      right. exists parsed. repeat (split; [assumption|]). exact Hs.
    + assert (Hnot : ~ (ResultsView.parseFlightQuery S query = Throw
               \/ exists parsed',
                    ResultsView.parseFlightQuery S query = Normal parsed'
                    /\ is_empty (ResultsView.destination parsed') = false
                    /\ is_empty (ResultsView.dates parsed') = false
                    /\ (ResultsView.searchFlights S (ResultsView.searchParamsOf parsed') = Throw
                        \/ ResultsView.searchFlights S (ResultsView.searchParamsOf parsed')
                           = Normal Null))).
      { intros [H|(parsed' & H & _ & _ & H')]; [congruence|].
        assert (parsed' = parsed) as -> by congruence.
        destruct H' as [H'|H']; rewrite H' in Hs; [discriminate Hs|].
        injection Hs as <-. now contradiction Hn. }
      destruct Hc as [(f & l & Hfl & Hf & Herr)|(Hno & Hf & Herr)].
      * split.
        { rewrite Hf, Herr. cbn.
          split; [discriminate|intros H; now contradiction H]. }
        split.
        { intros body Hin. apply Hbody in Hin. subst body. exists parsed.
          repeat (split; [assumption|]). split; [reflexivity|]. split; [exact Hsp|].
          intros fd f' l' Hfd Hfl'. rewrite Hs in Hfd. injection Hfd as <-.
          rewrite Hfl in Hfl'. injection Hfl' as <- <-. exact Hf. }
        rewrite Herr. cbn. split; [discriminate|]. intros H. now contradiction (Hnot H).
      * split.
        { rewrite Hf, Herr. split; [discriminate|reflexivity]. }
        split.
        { intros body Hin. apply Hbody in Hin. subst body. exists parsed.
          repeat (split; [assumption|]). split; [reflexivity|]. split; [exact Hsp|].
          intros fd f' l' Hfd Hfl'. rewrite Hs in Hfd. injection Hfd as <-.
          now contradiction (Hno f' l'). }
        rewrite Herr. split; [|intros H; now contradiction (Hnot H)].
        destruct (truthy (getProp flightData "error"));
          [destruct (getProp flightData "error")|]; discriminate.
Qed.

(** X18.  After the effect on a query that is not empty the view is no
    longer loading and, the list of mock flights not being empty, shows
    either flights or an error, never both and never neither.  Flights
    given by the parent are shown without a call.  The route is asked only
    for a query parsed with a destination and dates, with the search
    parameters made of them; flights of the route are shown as received;
    and the message that the service cannot be reached is shown exactly
    when a service failed or the answer was [null]. *)
Theorem view_flights_or_error (mockFlights : list value) (S : ResultsView.Services)
    (query : string) (providedFlights : option (list value))
    (providedSearchParams : option value) (st : ResultsView.State) :
  is_empty query = false -> mockFlights <> [] ->
  let after := ResultsView.onQuery mockFlights S query providedFlights
                 providedSearchParams st in
  ResultsView.loading (fst after) = false
  /\ (ResultsView.flights (fst after) = [] <-> ResultsView.error (fst after) <> None)
  /\ (forall l, providedFlights = Some l -> l <> [] ->
      snd after = [] /\ ResultsView.flights (fst after) = l)
  /\ (forall body, In (ResultsView.SearchCall body) (snd after) ->
      exists parsed,
        ResultsView.parseFlightQuery S query = Normal parsed
        /\ is_empty (ResultsView.destination parsed) = false
        /\ is_empty (ResultsView.dates parsed) = false
        /\ body = ResultsView.searchParamsOf parsed
        /\ ResultsView.searchParams (fst after) = Some body
        /\ forall flightData f l,
             ResultsView.searchFlights S body = Normal flightData ->
             getProp flightData "flights" = Some (Arr (f :: l)) ->
             ResultsView.flights (fst after) = f :: l)
  /\ (ResultsView.error (fst after) = Some ResultsView.Unreachable <->
      (providedFlights = None \/ providedFlights = Some [])
      /\ (ResultsView.parseFlightQuery S query = Throw
          \/ exists parsed,
               ResultsView.parseFlightQuery S query = Normal parsed
               /\ is_empty (ResultsView.destination parsed) = false
               /\ is_empty (ResultsView.dates parsed) = false
               /\ (ResultsView.searchFlights S (ResultsView.searchParamsOf parsed) = Throw
                   \/ ResultsView.searchFlights S (ResultsView.searchParamsOf parsed)
                      = Normal Null))).
Proof.
  intros Hq Hm. cbv zeta. unfold ResultsView.onQuery. rewrite Hq.
  unfold ResultsView.fetchQueryAndFlights. cbv zeta.
  destruct (parse_view mockFlights S query st Hm) as (P1 & P2 & P3 & P4).
  destruct providedFlights as [[|f l]|].
  - split; [exact P1|]. split; [exact P2|]. split.
    { intros l' [= <-] H. now contradiction H. }
    split; [exact P3|].
    rewrite P4. split; [intros H; split; [now right|exact H]|intros [_ H]; exact H].
  - cbn [fst snd]. split; [reflexivity|]. split.
    { destruct providedSearchParams; cbn; (split; [discriminate|intros H; now contradiction H]). }
    split.
    { intros l' [= <-] _. split; [reflexivity|].
      destruct providedSearchParams; reflexivity. }
    split; [intros body []|].
    split; [destruct providedSearchParams; cbn; discriminate|].
    intros [[H|H] _]; discriminate H.
  - split; [exact P1|]. split; [exact P2|]. split.
    { intros l' H. discriminate H. }
    split; [exact P3|].
    rewrite P4. split; [intros H; split; [now left|exact H]|intros [_ H]; exact H].
Qed.

Lemma view_flights_or_error_witness :
  ResultsView.error
    (fst (ResultsView.onQuery [Null] ResultsView.sampleServices "to Chennai"
            None None ResultsView.initial))
  <> None.
Proof.
  destruct (view_flights_or_error [Null] ResultsView.sampleServices "to Chennai"
              None None ResultsView.initial eq_refl ltac:(discriminate))
    as (_ & H & _).
  apply H. reflexivity.
Defined.

(** ** The results view and the route *)

Lemma view_request_params (parsed : ResultsView.ParseFlightQueryOutput) :
  is_empty (ResultsView.destination parsed) = false ->
  is_empty (ResultsView.dates parsed) = false ->
  exists p : Params,
    destructure (ResultsView.searchParamsOf parsed) = Normal p
    /\ missingRequired p = false
    /\ searchData p = ResultsView.searchParamsOf parsed
    /\ SearchRoute.origin p = Some (Str (ResultsView.originOf parsed))
    /\ SearchRoute.destination p = Some (Str (ResultsView.destination parsed)).
Proof.
  intros Hde Hda. eexists. split; [reflexivity|].
  split; [|split; [|split; reflexivity]].
  - unfold missingRequired.
    cbn [SearchRoute.origin SearchRoute.destination SearchRoute.departureDate].
    cbn. now rewrite originOf_nonempty, Hde, Hda.
  - reflexivity.
Qed.

(** X19.  The request that the results view sends for a parsed query with
    a destination and dates is always served by the route: it is never
    answered 400, the lookup process receives exactly the object sent, with
    one passenger and no link, and the view can read every answer.  It
    does not look at the status: a rejected lookup (answer 500) and a
    lookup that could not be started (answer 200) are both shown as an
    error of the service with the text of the route, and no flights; and
    when the output of the lookup is not JSON the view shows the single
    demo flight of the route as a result and sets no error. *)
Theorem view_request_served (spawn : value -> ChildRun) (requestText : string)
    (parsed : ResultsView.ParseFlightQueryOutput) (st : ResultsView.State) :
  is_empty (ResultsView.destination parsed) = false ->
  is_empty (ResultsView.dates parsed) = false ->
  JSON_parse requestText = Some (ResultsView.searchParamsOf parsed) ->
  lookups (POST spawn requestText) = [ResultsView.searchParamsOf parsed]
  /\ exists (r : Response) (st' : ResultsView.State),
       SearchRoute.response (POST spawn requestText) = Some r
       /\ SearchRoute.status r <> 400%Z
       /\ ResultsView.showAnswer (SearchRoute.body r) st = Normal st'
       /\ (awaitLookup (spawn (ResultsView.searchParamsOf parsed)) = Some Throw ->
           SearchRoute.status r = 500%Z
           /\ ResultsView.flights st' = []
           /\ ResultsView.error st'
              = Some (ResultsView.ApiError (Str "Internal server error")))
       /\ (forall code : option Z,
           spawn (ResultsView.searchParamsOf parsed) = CannotStart code ->
           SearchRoute.status r = 200%Z
           /\ ResultsView.flights st' = []
           /\ ResultsView.error st'
              = Some (ResultsView.ApiError (Str "Python environment not available")))
       /\ (forall out : string,
           awaitLookup (spawn (ResultsView.searchParamsOf parsed)) = Some (Normal out) ->
           JSON_parse out = None \/ JSON_parse out = Some Null ->
           SearchRoute.status r = 200%Z
           /\ List.length (ResultsView.flights st') = 1
           /\ ResultsView.error st' = ResultsView.error st).
Proof.
  intros Hde Hda Hp.
  destruct (view_request_params parsed Hde Hda) as (p & Hd & Hm & Hs & Ho & Hdest).
  split.
  { destruct (POST_lookups spawn requestText _ p Hp Hd Hm) as [-> _].
    now rewrite Hs. }
  unfold POST. rewrite Hp, Hd, Hm. rewrite Hs.
  destruct (awaitLookup_settles (spawn (ResultsView.searchParamsOf parsed)))
    as [[out|] Hrun]; rewrite Hrun.
  - destruct (normalize_strings p out _ _ Ho Hdest) as [res Hr]. rewrite Hr.
    destruct (normalize_flights p out res Hr) as [l Hl].
    cbn [answer SearchRoute.response].
    destruct (ResultsView.showAnswer (SearchRoute.body (ok res)) st) as [st'|] eqn:Hshow;
      [|apply showAnswer_throw in Hshow; cbn in Hshow; subst res; discriminate Hl].
    exists (ok res), st'. split; [reflexivity|]. split; [discriminate|].
    split; [exact Hshow|].
    destruct (showAnswer_normal _ _ _ Hshow) as (_ & _ & _ & _ & Hc).
    cbn [ok SearchRoute.body SearchRoute.status] in *.
    split; [discriminate|]. split.
    + intros code Hcode. rewrite Hcode, awaitLookup_cannot_start in Hrun.
      injection Hrun as <-.
      assert (res = Obj [("flights", Arr []);
                         ("error", Str "Python environment not available")]) as ->.
      { unfold normalizeResults in Hr.
        rewrite (tryParse_pass p _ _ startFailure_parsed eq_refl) in Hr.
        now injection Hr. }
      split; [reflexivity|].
      destruct Hc as [(f & l' & Hfl & _)|(_ & Hf & He)]; [discriminate Hfl|].
      split; [exact Hf|exact He].
    + intros out' [= <-] Hbad. split; [reflexivity|].
      unfold normalizeResults in Hr.
      rewrite (proj2 (tryParse_none p out) Hbad) in Hr.
      destruct (demoResults_fields p res Hr) as (l' & Hl' & _ & Hlen).
      destruct Hc as [(f & l'' & Hfl & Hf & He)|(Hno & _)].
      * rewrite Hl' in Hfl. injection Hfl as ->. rewrite Hf.
        split; [exact Hlen|exact He].
      * destruct l' as [|f l']; [discriminate Hlen|].
        now contradiction (Hno f l').
  - cbn [answer SearchRoute.response].
    exists internalError. eexists. split; [reflexivity|]. split; [discriminate|].
    split; [reflexivity|]. split.
    + intros _. split; [reflexivity|]. split; reflexivity.
    + split; [intros code Hcode|intros out H; discriminate H].
      rewrite Hcode, awaitLookup_cannot_start in Hrun. discriminate Hrun.
Qed.

Lemma view_request_served_witness :
  lookups (POST (fun _ => CannotStart None) ResultsView.searchText)
  = [ResultsView.searchParamsOf ResultsView.toChennai].
Proof.
  exact (proj1 (view_request_served (fun _ => CannotStart None)
                  ResultsView.searchText ResultsView.toChennai ResultsView.initial
                  eq_refl eq_refl ltac:(vm_compute; reflexivity))).
Defined.
